(** * dns-xdp: wire codec, domain trie and C facade

    A shallow embedding of the C++ core of the XDP DNS filter
    (src/cpp): [DNSParser] and [DNSResponseBuilder] of dns_parser.cpp,
    [DomainTrie] of domain_trie.cpp, [FilterEngine] of filter_engine.cpp
    and the entry points of cgo_bridge.cpp, followed by the properties
    of the specification that concern them and by further properties of
    the code.

    Conventions.
    - A packet buffer is a [list byte]; the [len] argument that travels
      with every buffer pointer is the length of that list.
    - [size_t] offsets are integers of [Z]. Every offset the code forms
      is below [len + 2^14], so no [size_t] computation wraps.
    - [uint16_t] and [uint32_t] values are integers of [Z]; truncation is
      written out where the code relies on it.
    - A pointer into the packet is the offset it points at ([Some off]),
      [None] being a pointer that does not point into the packet. *)

From Stdlib Require Import ZArith List Lia Bool.
From Stdlib Require Import Strings.Byte Strings.Ascii.
From stdpp Require Import gmap strings.

#[local] Open Scope Z_scope.

(** ** common.hpp *)

Inductive Error : Type :=
  | Success
  | PacketTooShort
  | InvalidHeader
  | TruncatedMessage
  | PointerLoop
  | InvalidLabel
  | BufferTooSmall
  | NotQuery.

(** [static_cast<int>(err)] *)
Definition Error_to_int (e : Error) : Z :=
  match e with
  | Success => 0
  | PacketTooShort => -1
  | InvalidHeader => -2
  | TruncatedMessage => -3
  | PointerLoop => -4
  | InvalidLabel => -5
  | BufferTooSmall => -6
  | NotQuery => -7
  end.

Definition Error_eqb (a b : Error) : bool := Error_to_int a =? Error_to_int b.

Definition MAX_DOMAIN_LENGTH : Z := 255.
Definition MAX_LABEL_LENGTH : Z := 63.
Definition MAX_LABELS : Z := 128.
Definition DNS_HEADER_SIZE : Z := 12.
Definition MIN_DNS_QUERY_SIZE : Z := DNS_HEADER_SIZE + 5.

Module dns_type.
Definition A : Z := 1.
Definition AAAA : Z := 28.
End dns_type.

Module dns_class.
Definition IN : Z := 1.
End dns_class.

(** ** Bytes and buffers *)

Definition u8 (b : byte) : Z := Z.of_N (Byte.to_N b).

(** Conversion to [uint8_t]: the low eight bits. *)
Definition to_u8 (z : Z) : byte :=
  match Byte.of_N (Z.to_N (z mod 256)) with
  | Some b => b
  | None => x00
  end.

Definition bytes_of (zs : list Z) : list byte := map to_u8 zs.

Definition buf_len (data : list byte) : Z := Z.of_nat (length data).

(** [data[off]] *)
Definition byte_at (data : list byte) (off : Z) : Z :=
  u8 (nth (Z.to_nat off) data x00).

(** The bytes [bs] written at [buf + off]. *)
Definition store (off : Z) (bs : list byte) (buf : list byte) : list byte :=
  firstn (Z.to_nat off) buf ++ bs
    ++ skipn (Z.to_nat off + length bs) buf.

(** [std::memcpy(dst, src, n)] *)
Definition memcpy (dst src : list byte) (n : Z) : list byte :=
  store 0 (firstn (Z.to_nat n) src) dst.

(** ** Byte order (common.hpp)

    [ntohs] and [ntohl] swap bytes on a little-endian host and are the
    identity on a big-endian one; [host_le] is [__BYTE_ORDER__ ==
    __ORDER_LITTLE_ENDIAN__]. *)

Section ByteOrder.
Variable host_le : bool.

Definition bswap16 (n : Z) : Z :=
  Z.lor (Z.shiftl (Z.land n 255) 8) (Z.land (Z.shiftr n 8) 255).

Definition bswap32 (n : Z) : Z :=
  Z.lor (Z.lor (Z.shiftl (Z.land n 255) 24)
               (Z.shiftl (Z.land (Z.shiftr n 8) 255) 16))
        (Z.lor (Z.shiftl (Z.land (Z.shiftr n 16) 255) 8)
               (Z.land (Z.shiftr n 24) 255)).

Definition ntohs (n : Z) : Z := if host_le then bswap16 n else n.
Definition ntohl (n : Z) : Z := if host_le then bswap32 n else n.
Definition htons (h : Z) : Z := ntohs h.
Definition htonl (h : Z) : Z := ntohl h.

(** [*reinterpret_cast<const uint16_t*>(data + off)] *)
Definition load16 (data : list byte) (off : Z) : Z :=
  if host_le
  then Z.lor (byte_at data off) (Z.shiftl (byte_at data (off + 1)) 8)
  else Z.lor (Z.shiftl (byte_at data off) 8) (byte_at data (off + 1)).

(** The two bytes of a [uint16_t] as they lie in memory. *)
Definition bytes16 (v : Z) : list byte :=
  if host_le
  then [to_u8 v; to_u8 (Z.shiftr v 8)]
  else [to_u8 (Z.shiftr v 8); to_u8 v].

(** The four bytes of a [uint32_t] as they lie in memory. *)
Definition bytes32 (v : Z) : list byte :=
  if host_le
  then [to_u8 v; to_u8 (Z.shiftr v 8);
        to_u8 (Z.shiftr v 16); to_u8 (Z.shiftr v 24)]
  else [to_u8 (Z.shiftr v 24); to_u8 (Z.shiftr v 16);
        to_u8 (Z.shiftr v 8); to_u8 v].

(** [*reinterpret_cast<uint16_t*>(buf + off) = v] *)
Definition store16 (off v : Z) (buf : list byte) : list byte :=
  store off (bytes16 v) buf.

(** [*reinterpret_cast<uint32_t*>(buf + off) = v] *)
Definition store32 (off v : Z) (buf : list byte) : list byte :=
  store off (bytes32 v) buf.
End ByteOrder.

(** ** dns_parser.hpp: the header view and the parse result *)

(** Offsets of the fields of the packed [struct DNSHeader]. *)
Definition off_id : Z := 0.
Definition off_flags : Z := 2.
Definition off_qd_count : Z := 4.
Definition off_an_count : Z := 6.
Definition off_ns_count : Z := 8.
Definition off_ar_count : Z := 10.

Section Header.
Variable host_le : bool.
(** The buffer and the offset [hdr] of the header inside it. *)
Variable data : list byte.
Variable hdr : Z.

Definition getId : Z := ntohs host_le (load16 host_le data (hdr + off_id)).
Definition getFlags : Z :=
  ntohs host_le (load16 host_le data (hdr + off_flags)).
Definition getQDCount : Z :=
  ntohs host_le (load16 host_le data (hdr + off_qd_count)).
Definition getANCount : Z :=
  ntohs host_le (load16 host_le data (hdr + off_an_count)).
Definition isQuery : bool := Z.land getFlags 0x8000 =? 0.
Definition isResponse : bool := negb isQuery.
Definition getRCode : Z := Z.land getFlags 0x000F.
End Header.

Record DNSQuestion : Type := mkDNSQuestion {
  name_start : option Z;
  name_offset : Z;
  name_wire_len : Z;
  qtype : Z;
  qclass : Z
}.

Record DNSParseResult : Type := mkDNSParseResult {
  header : option Z;
  question : DNSQuestion;
  total_consumed : Z;
  question_end : Z;
  id : Z;
  flags : Z;
  is_query : bool
}.

(** ** dns_parser.cpp: DNSParser *)

(** What a function with out-parameters leaves behind: the values it
    stored on success, or the error it returned, its out-parameters
    untouched. *)
Inductive outcome (A : Type) : Type :=
  | Ok (a : A)
  | Err (e : Error).
Arguments Ok {A} a.
Arguments Err {A} e.

(** One turn of the [while (jump_count < MAX_LABELS)] loop of
    [parseName] per unit of [fuel]; [None] when the fuel is used up
    before the loop is left. An [Ok (end_offset, wire_len)] carries the
    two values stored through the out-parameters. *)
Fixpoint parseName_loop (fuel : nat) (data : list byte)
    (offset original_offset : Z) (jumped : bool)
    (jump_count total_len : Z) : option (outcome (Z * Z)) :=
  match fuel with
  | O => None
  | S fuel' =>
    let len := buf_len data in
    if negb (jump_count <? MAX_LABELS) then Some (Err PointerLoop)
    else if offset >=? len then Some (Err TruncatedMessage)
    else
      let label_len := byte_at data offset in
      if label_len =? 0 then
        let end_offset := if negb jumped then offset + 1
                          else original_offset + 2 in
        Some (Ok (end_offset, total_len + 1))
      else if Z.land label_len 0xC0 =? 0xC0 then
        if offset + 1 >=? len then Some (Err TruncatedMessage)
        else
          let ptr := Z.lor (Z.shiftl (Z.land label_len 0x3F) 8)
                           (byte_at data (offset + 1)) in
          if ptr >=? len then Some (Err PointerLoop)
          else
            let original_offset' :=
              if negb jumped then offset else original_offset in
            parseName_loop fuel' data ptr original_offset' true
                           (jump_count + 1) total_len
      else if label_len >? MAX_LABEL_LENGTH then Some (Err InvalidLabel)
      else if offset + 1 + label_len >? len then Some (Err TruncatedMessage)
      else
        parseName_loop fuel' data (offset + 1 + label_len) original_offset
                       jumped jump_count (total_len + (1 + label_len))
  end.

(** Loop turns that always suffice: at most [MAX_LABELS] jumps, and
    between two jumps every turn moves [offset] forward inside the
    packet (lemma [parseName_loop_total]). *)
Definition name_fuel (data : list byte) : nat :=
  Z.to_nat ((MAX_LABELS + 1) * (buf_len data + 1) + 1).

(** [DNSParser::parseName]. The [None] branch is never taken, whatever
    the packet and the start offset ([parseName_loop_total],
    [name_fuel_enough]). *)
Definition parseName (data : list byte) (offset : Z) : outcome (Z * Z) :=
  match parseName_loop (name_fuel data) data offset offset false 0 0 with
  | Some r => r
  | None => Err PointerLoop
  end.

(** Stores into single fields of [*result]. *)
Definition set_header (v : option Z) (r : DNSParseResult) : DNSParseResult :=
  mkDNSParseResult v (question r) (total_consumed r) (question_end r)
                   (id r) (flags r) (is_query r).
Definition set_id (v : Z) (r : DNSParseResult) : DNSParseResult :=
  mkDNSParseResult (header r) (question r) (total_consumed r)
                   (question_end r) v (flags r) (is_query r).
Definition set_flags (v : Z) (r : DNSParseResult) : DNSParseResult :=
  mkDNSParseResult (header r) (question r) (total_consumed r)
                   (question_end r) (id r) v (is_query r).
Definition set_is_query (v : bool) (r : DNSParseResult) : DNSParseResult :=
  mkDNSParseResult (header r) (question r) (total_consumed r)
                   (question_end r) (id r) (flags r) v.
Definition set_question (q : DNSQuestion) (r : DNSParseResult)
    : DNSParseResult :=
  mkDNSParseResult (header r) q (total_consumed r) (question_end r)
                   (id r) (flags r) (is_query r).
Definition set_total_consumed (v : Z) (r : DNSParseResult) : DNSParseResult :=
  mkDNSParseResult (header r) (question r) v (question_end r)
                   (id r) (flags r) (is_query r).
Definition set_question_end (v : Z) (r : DNSParseResult) : DNSParseResult :=
  mkDNSParseResult (header r) (question r) (total_consumed r) v
                   (id r) (flags r) (is_query r).

Definition set_name_start (v : option Z) (q : DNSQuestion) : DNSQuestion :=
  mkDNSQuestion v (name_offset q) (name_wire_len q) (qtype q) (qclass q).
Definition set_name_offset (v : Z) (q : DNSQuestion) : DNSQuestion :=
  mkDNSQuestion (name_start q) v (name_wire_len q) (qtype q) (qclass q).
Definition set_name_wire_len (v : Z) (q : DNSQuestion) : DNSQuestion :=
  mkDNSQuestion (name_start q) (name_offset q) v (qtype q) (qclass q).
Definition set_qtype (v : Z) (q : DNSQuestion) : DNSQuestion :=
  mkDNSQuestion (name_start q) (name_offset q) (name_wire_len q) v (qclass q).
Definition set_qclass (v : Z) (q : DNSQuestion) : DNSQuestion :=
  mkDNSQuestion (name_start q) (name_offset q) (name_wire_len q) (qtype q) v.

(** A store into a field of [result->question]. *)
Definition upd_question (f : DNSQuestion -> DNSQuestion) (r : DNSParseResult)
    : DNSParseResult :=
  set_question (f (question r)) r.

Section Parse.
Variable host_le : bool.

(** [DNSParser::parse] past its null-pointer guard: the returned error
    and the state of [*result] at the return, every store in the order
    of the source. *)
Definition parse_at (data : list byte) (result : DNSParseResult)
    : Error * DNSParseResult :=
  let len := buf_len data in
  if len <? MIN_DNS_QUERY_SIZE then (PacketTooShort, result)
  else
    let result := set_header (Some 0) result in
    let result := set_id (getId host_le data 0) result in
    let result := set_flags (getFlags host_le data 0) result in
    let result := set_is_query (isQuery host_le data 0) result in
    if getQDCount host_le data 0 =? 0 then (InvalidHeader, result)
    else
      let offset := DNS_HEADER_SIZE in
      let result := upd_question (set_name_start (Some offset)) result in
      let result := upd_question (set_name_offset offset) result in
      match parseName data offset with
      | Err err => (err, result)
      | Ok (name_end, wire_len) =>
        let result := upd_question (set_name_wire_len wire_len) result in
        if name_end + 4 >? len then (TruncatedMessage, result)
        else
          let result :=
            upd_question
              (set_qtype (ntohs host_le (load16 host_le data name_end)))
              result in
          let result :=
            upd_question
              (set_qclass
                 (ntohs host_le (load16 host_le data (name_end + 2))))
              result in
          let result := set_total_consumed (name_end + 4) result in
          let result := set_question_end (name_end + 4) result in
          (Success, result)
      end.

(** [DNSParser::parse]: a null [data] or [result] is [None]. *)
Definition parse (data : option (list byte))
    (result : option DNSParseResult) : Error * option DNSParseResult :=
  match data, result with
  | Some d, Some r =>
    let '(err, r') := parse_at d r in (err, Some r')
  | _, _ => (InvalidHeader, result)
  end.
End Parse.

(** [std::tolower] on a byte, in the "C" locale. *)
Definition tolower (c : Z) : Z :=
  if (65 <=? c) && (c <=? 90) then c + 32 else c.

(** The bytes [packet[offset] .. packet[offset + n - 1]], lowercased, as
    the [for] loop of [decodeName] appends them. A byte past the end of
    the packet reads as 0 here; the source reads whatever memory follows
    the packet. *)
Definition lower_label (packet : list byte) (offset n : Z) : list byte :=
  map (fun i => to_u8 (tolower (byte_at packet (offset + Z.of_nat i))))
      (seq 0 (Z.to_nat n)).

(** One turn of the loop of [decodeName] per unit of [fuel]. [out] holds
    the bytes written to [out_buf] so far, so [buf_pos] is its length.
    The result is the error code and the bytes written at the return
    ([*out_len] is their number on success). *)
Fixpoint decodeName_loop (fuel : nat) (packet : list byte) (offset : Z)
    (out : list byte) (buf_size : Z) (jump_count : Z) (first_label : bool)
    : option (Error * list byte) :=
  match fuel with
  | O => None
  | S fuel' =>
    let packet_len := buf_len packet in
    let buf_pos := buf_len out in
    if negb (jump_count <? MAX_LABELS) then Some (PointerLoop, out)
    else if offset >=? packet_len then Some (TruncatedMessage, out)
    else
      let label_len := byte_at packet offset in
      if label_len =? 0 then Some (Success, out)
      else if Z.land label_len 0xC0 =? 0xC0 then
        if offset + 1 >=? packet_len then Some (TruncatedMessage, out)
        else
          let offset' := Z.lor (Z.shiftl (Z.land label_len 0x3F) 8)
                               (byte_at packet (offset + 1)) in
          decodeName_loop fuel' packet offset' out buf_size
                          (jump_count + 1) first_label
      else
        if negb first_label && (buf_pos >=? buf_size)
        then Some (BufferTooSmall, out)
        else
          let out := if negb first_label then out ++ [to_u8 46] else out in
          let buf_pos := buf_len out in
          if buf_pos + label_len >? buf_size then Some (BufferTooSmall, out)
          else
            let offset := offset + 1 in
            let out := out ++ lower_label packet offset label_len in
            decodeName_loop fuel' packet (offset + label_len) out buf_size
                            jump_count false
  end.

(** [DNSParser::decodeName]: the error code and the bytes written to
    [out_buf] ([*out_len] is their number on success). The terminating
    NUL the source stores at [out_buf[buf_pos]] is not part of the
    returned bytes. The [None] branch is never taken
    ([decodeName_loop_total], [name_fuel_enough]). *)
Definition decodeName (packet : list byte) (name_offset : Z) (buf_size : Z)
    : Error * list byte :=
  match decodeName_loop (name_fuel packet) packet name_offset []
                        buf_size 0 true with
  | Some r => r
  | None => (PointerLoop, [])
  end.

(** ** dns_parser.cpp: DNSParser::domainEquals, domainEndsWith

    A [char] of [domain] and of [suffix] is its byte value, and so is
    the [char] that holds the result of [std::tolower]; on a byte above
    127 [std::tolower] is the identity, as in the C locale of glibc. A
    byte past the end of the packet reads as 0 here; the source reads
    whatever memory follows the packet. *)

(** The [for] loop of [domainEquals] over the [count] bytes left of a
    label, from index [i]: [None] is the [return false] inside the
    loop, [Some domain_pos] the position in [domain] after it. *)
Fixpoint compare_label (count : nat) (packet : list byte) (offset i : Z)
    (domain : list byte) (domain_pos : Z) : option Z :=
  match count with
  | O => Some domain_pos
  | S count' =>
    if domain_pos >=? buf_len domain then None
    else
      let c1 := tolower (byte_at packet (offset + i)) in
      let c2 := tolower (byte_at domain domain_pos) in
      if negb (c1 =? c2) then None
      else compare_label count' packet offset (i + 1) domain (domain_pos + 1)
  end.

(** One turn of the [while] loop of [domainEquals] per unit of
    [fuel]. *)
Fixpoint domainEquals_loop (fuel : nat) (packet : list byte) (offset : Z)
    (domain : list byte) (domain_pos jump_count : Z) : option bool :=
  match fuel with
  | O => None
  | S fuel' =>
    let packet_len := buf_len packet in
    let domain_len := buf_len domain in
    if negb (jump_count <? MAX_LABELS) then Some false
    else if offset >=? packet_len then Some false
    else
      let label_len := byte_at packet offset in
      if label_len =? 0 then Some (domain_pos =? domain_len)
      else if Z.land label_len 0xC0 =? 0xC0 then
        if offset + 1 >=? packet_len then Some false
        else
          let offset' := Z.lor (Z.shiftl (Z.land label_len 0x3F) 8)
                               (byte_at packet (offset + 1)) in
          domainEquals_loop fuel' packet offset' domain domain_pos
                            (jump_count + 1)
      else
        let offset := offset + 1 in
        match compare_label (Z.to_nat label_len) packet offset 0 domain
                            domain_pos with
        | None => Some false
        | Some domain_pos =>
          let offset := offset + label_len in
          if negb (byte_at packet offset =? 0) then
            if (domain_pos >=? domain_len)
               || negb (byte_at domain domain_pos =? 46)
            then Some false
            else domainEquals_loop fuel' packet offset domain
                                   (domain_pos + 1) jump_count
          else domainEquals_loop fuel' packet offset domain domain_pos
                                 jump_count
        end
  end.

(** [DNSParser::domainEquals]. The [None] branch is never taken
    ([domainEquals_loop_total], [name_fuel_enough]). *)
Definition domainEquals (packet : list byte) (q : DNSQuestion)
    (domain : list byte) : bool :=
  match domainEquals_loop (name_fuel packet) packet (name_offset q) domain
                          0 0 with
  | Some b => b
  | None => false
  end.

(** The [for] loop of [domainEndsWith] over the [count] bytes left of
    the suffix, from index [i]: [false] is the [return false] inside
    it. *)
Fixpoint compare_suffix (count : nat) (domain_buf : list byte) (start : Z)
    (suffix : list byte) (i : Z) : bool :=
  match count with
  | O => true
  | S count' =>
    if negb (tolower (byte_at domain_buf (start + i))
             =? tolower (byte_at suffix i))
    then false
    else compare_suffix count' domain_buf start suffix (i + 1)
  end.

(** [DNSParser::domainEndsWith]; [domain_buf] holds the bytes
    [decodeName] has written. *)
Definition domainEndsWith (packet : list byte) (q : DNSQuestion)
    (suffix : list byte) : bool :=
  let '(err, domain_buf) :=
    decodeName packet (name_offset q) (MAX_DOMAIN_LENGTH + 1) in
  if negb (Error_eqb err Success) then false
  else
    let domain_len := buf_len domain_buf in
    let suffix_len := buf_len suffix in
    if domain_len <? suffix_len then false
    else
      let start := domain_len - suffix_len in
      if negb (compare_suffix (Z.to_nat suffix_len) domain_buf start suffix 0)
      then false
      else if (start >? 0) && negb (byte_at domain_buf (start - 1) =? 46)
      then false
      else true.

(** ** dns_parser.cpp: DNSResponseBuilder

    A builder returns the written length and the state of the [response]
    buffer, whose capacity [response_buf_size] is its length. [None]
    stands for the dereference of a [parsed.header] that does not point
    into [query]. *)
Section Builder.
Variable host_le : bool.

Definition buildNXDomain (query : list byte) (parsed : DNSParseResult)
    (response : list byte) : option (Z * list byte) :=
  let response_buf_size := buf_len response in
  if response_buf_size <? total_consumed parsed then Some (0, response)
  else
    let response := memcpy response query (total_consumed parsed) in
    match header parsed with
    | None => None
    | Some hdr =>
      let flags := getFlags host_le query hdr in
      let flags := Z.lor flags 0x8000 in
      let flags := Z.lor flags 0x0080 in
      let flags := Z.land flags 0xFFF0 in
      let flags := Z.lor flags 0x0003 in
      let response := store16 host_le off_flags (htons host_le flags)
                              response in
      let response := store16 host_le off_an_count 0 response in
      let response := store16 host_le off_ns_count 0 response in
      let response := store16 host_le off_ar_count 0 response in
      Some (total_consumed parsed, response)
    end.

Definition buildAResponse (query : list byte) (parsed : DNSParseResult)
    (ip ttl : Z) (response : list byte) : option (Z * list byte) :=
  let response_buf_size := buf_len response in
  let answer_size := 16 in
  let total_size := total_consumed parsed + answer_size in
  if response_buf_size <? total_size then Some (0, response)
  else
    let response := memcpy response query (total_consumed parsed) in
    match header parsed with
    | None => None
    | Some hdr =>
      let flags := getFlags host_le query hdr in
      let flags := Z.lor flags 0x8000 in
      let flags := Z.lor flags 0x0400 in
      let flags := Z.lor flags 0x0080 in
      let flags := Z.land flags 0xFFF0 in
      let response := store16 host_le off_flags (htons host_le flags)
                              response in
      let response := store16 host_le off_an_count (htons host_le 1)
                              response in
      let offset := total_consumed parsed in
      let response := store offset [to_u8 0xC0] response in
      let offset := offset + 1 in
      let response := store offset [to_u8 DNS_HEADER_SIZE] response in
      let offset := offset + 1 in
      let response := store16 host_le offset (htons host_le dns_type.A)
                              response in
      let offset := offset + 2 in
      let response := store16 host_le offset (htons host_le dns_class.IN)
                              response in
      let offset := offset + 2 in
      let response := store32 host_le offset (htonl host_le ttl)
                              response in
      let offset := offset + 4 in
      let response := store16 host_le offset (htons host_le 4) response in
      let offset := offset + 2 in
      let response := store32 host_le offset ip response in
      let offset := offset + 4 in
      Some (offset, response)
    end.

Definition buildAAAAResponse (query : list byte) (parsed : DNSParseResult)
    (ipv6 : list byte) (ttl : Z) (response : list byte)
    : option (Z * list byte) :=
  let response_buf_size := buf_len response in
  let answer_size := 28 in
  let total_size := total_consumed parsed + answer_size in
  if response_buf_size <? total_size then Some (0, response)
  else
    let response := memcpy response query (total_consumed parsed) in
    match header parsed with
    | None => None
    | Some hdr =>
      let flags := getFlags host_le query hdr in
      let flags := Z.lor flags 0x8000 in
      let flags := Z.lor flags 0x0400 in
      let flags := Z.lor flags 0x0080 in
      let flags := Z.land flags 0xFFF0 in
      let response := store16 host_le off_flags (htons host_le flags)
                              response in
      let response := store16 host_le off_an_count (htons host_le 1)
                              response in
      let offset := total_consumed parsed in
      let response := store offset [to_u8 0xC0] response in
      let offset := offset + 1 in
      let response := store offset [to_u8 DNS_HEADER_SIZE] response in
      let offset := offset + 1 in
      let response := store16 host_le offset (htons host_le dns_type.AAAA)
                              response in
      let offset := offset + 2 in
      let response := store16 host_le offset (htons host_le dns_class.IN)
                              response in
      let offset := offset + 2 in
      let response := store32 host_le offset (htonl host_le ttl)
                              response in
      let offset := offset + 4 in
      let response := store16 host_le offset (htons host_le 16) response in
      let offset := offset + 2 in
      let response := store offset (firstn 16 ipv6) response in
      let offset := offset + 16 in
      Some (offset, response)
    end.

Definition buildRefused (query : list byte) (parsed : DNSParseResult)
    (response : list byte) : option (Z * list byte) :=
  let response_buf_size := buf_len response in
  if response_buf_size <? total_consumed parsed then Some (0, response)
  else
    let response := memcpy response query (total_consumed parsed) in
    match header parsed with
    | None => None
    | Some hdr =>
      let flags := getFlags host_le query hdr in
      let flags := Z.lor flags 0x8000 in
      let flags := Z.lor flags 0x0080 in
      let flags := Z.land flags 0xFFF0 in
      let flags := Z.lor flags 0x0005 in
      let response := store16 host_le off_flags (htons host_le flags)
                              response in
      let response := store16 host_le off_an_count 0 response in
      let response := store16 host_le off_ns_count 0 response in
      let response := store16 host_le off_ar_count 0 response in
      Some (total_consumed parsed, response)
    end.
End Builder.

(** ** cgo_bridge.h, cgo_bridge.cpp: the C facade *)

Definition XDP_DNS_OK : Z := 0.
Definition XDP_DNS_ERR_INVALID_PARAM : Z := -1.
Definition XDP_DNS_ERR_PARSE_FAILED : Z := -2.
Definition XDP_DNS_ERR_BUFFER_TOO_SMALL : Z := -3.
Definition XDP_DNS_ERR_NOT_INITIALIZED : Z := -4.
Definition XDP_DNS_ERR_NOT_DNS_QUERY : Z := -5.

Record XDPDNSParseResult : Type := mkXDPDNSParseResult {
  x_id : Z;
  x_flags : Z;
  x_qtype : Z;
  x_qclass : Z;
  x_name_offset : Z;
  x_question_end : Z;
  x_domain : list byte;
  x_domain_len : Z
}.

(** The counters of the anonymous namespace of cgo_bridge.cpp. *)
Record Counters : Type := mkCounters {
  g_packets_received : Z;
  g_packets_parsed : Z;
  g_parse_errors : Z;
  g_response_built : Z;
  g_total_latency_ns : Z
}.

(** [fetch_add(1)] on a [uint64_t]. *)
Definition fetch_add1 (c : Z) : Z := (c + 1) mod 2 ^ 64.

Definition count_received (g : Counters) : Counters :=
  mkCounters (fetch_add1 (g_packets_received g)) (g_packets_parsed g)
             (g_parse_errors g) (g_response_built g) (g_total_latency_ns g).
Definition count_parsed (g : Counters) : Counters :=
  mkCounters (g_packets_received g) (fetch_add1 (g_packets_parsed g))
             (g_parse_errors g) (g_response_built g) (g_total_latency_ns g).
Definition count_parse_error (g : Counters) : Counters :=
  mkCounters (g_packets_received g) (g_packets_parsed g)
             (fetch_add1 (g_parse_errors g)) (g_response_built g)
             (g_total_latency_ns g).

Section Facade.
Variable host_le : bool.
(** The indeterminate initial value of the local [parsed]. *)
Variable parsed0 : DNSParseResult.

(** [xdp_dns_parse]: the returned status, [*result] and the counters
    at the return. [sizeof(result->domain)] is the length of
    [x_domain], 256 in the header. *)
Definition xdp_dns_parse (packet_data : option (list byte))
    (result : option XDPDNSParseResult) (g : Counters)
    : Z * option XDPDNSParseResult * Counters :=
  match packet_data, result with
  | Some packet, Some res =>
    if buf_len packet <? 12 then (XDP_DNS_ERR_INVALID_PARAM, result, g)
    else
      let g := count_received g in
      let '(err, parsed) := parse_at host_le packet parsed0 in
      if negb (Error_eqb err Success) then
        (Error_to_int err, result, count_parse_error g)
      else if negb (is_query parsed) then
        (XDP_DNS_ERR_NOT_DNS_QUERY, result, g)
      else
        let domain_size := buf_len (x_domain res) in
        let '(err, out) :=
          decodeName packet (name_offset (question parsed)) domain_size in
        let domain := store 0 out (x_domain res) in
        let res :=
          mkXDPDNSParseResult (id parsed) (flags parsed)
            (qtype (question parsed)) (qclass (question parsed))
            (name_offset (question parsed)) (question_end parsed)
            domain (x_domain_len res) in
        if negb (Error_eqb err Success) then
          (Error_to_int err, Some res, count_parse_error g)
        else
          let buf_pos := buf_len out in
          let domain :=
            if (buf_pos >? 0) && (buf_pos <? domain_size)
            then store buf_pos [x00] domain else domain in
          let res :=
            mkXDPDNSParseResult (x_id res) (x_flags res) (x_qtype res)
              (x_qclass res) (x_name_offset res) (x_question_end res)
              domain buf_pos in
          (XDP_DNS_OK, Some res, count_parsed g)
  | _, _ => (XDP_DNS_ERR_INVALID_PARAM, result, g)
  end.
End Facade.

(** ** cgo_bridge.cpp: the entry points that build a response *)

Definition count_built (g : Counters) : Counters :=
  mkCounters (g_packets_received g) (g_packets_parsed g)
             (g_parse_errors g) (fetch_add1 (g_response_built g))
             (g_total_latency_ns g).

(** What the three entry points do with the value of the builder: the
    returned status, the response buffer, [*response_len] and the
    counters at the return. The three functions of the source repeat
    these lines. [None] is the builder's read through a null [header]. *)
Definition build_return (built : option (Z * list byte))
    (response_len : Z) (g : Counters)
    : option (Z * list byte * Z * Counters) :=
  match built with
  | None => None
  | Some (built_len, out) =>
    if built_len =? 0
    then Some (XDP_DNS_ERR_BUFFER_TOO_SMALL, out, response_len, g)
    else Some (XDP_DNS_OK, out, built_len, count_built g)
  end.

Section FacadeBuild.
Variable host_le : bool.
(** The indeterminate initial value of the local [parsed]. *)
Variable parsed0 : DNSParseResult.

(** [xdp_dns_build_nxdomain] with non-null arguments: the original
    packet, the response buffer and the value [*response_len] holds at
    the call. *)
Definition xdp_dns_build_nxdomain (original_packet response_buf : list byte)
    (response_len : Z) (g : Counters)
    : option (Z * list byte * Z * Counters) :=
  let '(err, parsed) := parse_at host_le original_packet parsed0 in
  if negb (Error_eqb err Success)
  then Some (Error_to_int err, response_buf, response_len, g)
  else
    build_return (buildNXDomain host_le original_packet parsed response_buf)
                 response_len g.

(** [xdp_dns_build_a_response] with non-null arguments. *)
Definition xdp_dns_build_a_response (original_packet : list byte)
    (ipv4_addr ttl : Z) (response_buf : list byte) (response_len : Z)
    (g : Counters) : option (Z * list byte * Z * Counters) :=
  let '(err, parsed) := parse_at host_le original_packet parsed0 in
  if negb (Error_eqb err Success)
  then Some (Error_to_int err, response_buf, response_len, g)
  else
    build_return (buildAResponse host_le original_packet parsed ipv4_addr
                                 ttl response_buf)
                 response_len g.

(** [xdp_dns_build_aaaa_response] with non-null arguments. *)
Definition xdp_dns_build_aaaa_response (original_packet ipv6_addr : list byte)
    (ttl : Z) (response_buf : list byte) (response_len : Z)
    (g : Counters) : option (Z * list byte * Z * Counters) :=
  let '(err, parsed) := parse_at host_le original_packet parsed0 in
  if negb (Error_eqb err Success)
  then Some (Error_to_int err, response_buf, response_len, g)
  else
    build_return (buildAAAAResponse host_le original_packet parsed ipv6_addr
                                    ttl response_buf)
                 response_len g.
End FacadeBuild.

(** ** cgo_bridge.h, cgo_bridge.cpp: the statistics *)

Record XDPDNSStats : Type := mkXDPDNSStats {
  packets_received : Z;
  packets_parsed : Z;
  packets_allowed : Z;
  packets_blocked : Z;
  packets_redirected : Z;
  parse_errors : Z;
  response_built : Z;
  total_latency_ns : Z
}.

(** [xdp_dns_get_stats]: [*stats] at the return; a null [stats] is
    [None]. *)
Definition xdp_dns_get_stats (stats : option XDPDNSStats) (g : Counters)
    : option XDPDNSStats :=
  match stats with
  | None => None
  | Some _ =>
    Some (mkXDPDNSStats (g_packets_received g) (g_packets_parsed g) 0 0 0
            (g_parse_errors g) (g_response_built g) (g_total_latency_ns g))
  end.

(** [xdp_dns_reset_stats] *)
Definition xdp_dns_reset_stats (g : Counters) : Counters :=
  mkCounters 0 0 0 0 0.

(** ** domain_trie.hpp, domain_trie.cpp *)

Inductive Action : Type := Allow | Block | Redirect | Log.

(** [rule_num] is the field [id] of [struct Rule]. *)
Record Rule : Type := mkRule {
  rule_num : Z;
  action : Action;
  redirect_ip : Z;
  ttl : Z;
  rule_id : string
}.

(** A node of the trie. A non-null [const Rule*] is the rule it points
    to; the trie never writes through it. *)
#[warnings="-register-all"]
Inductive TrieNode : Type := mkTrieNode {
  children : gmap string TrieNode;
  exact_rule : option Rule;
  wildcard_rule : option Rule
}.

(** [std::make_unique<TrieNode>()] *)
Definition new_node : TrieNode := mkTrieNode ∅ None None.

(** The state of a [DomainTrie] that its operations read: the root and
    the rule count. *)
Record DomainTrie : Type := mkDomainTrie {
  root_ : TrieNode;
  rule_count_ : Z
}.

(** [DomainTrie::DomainTrie()] *)
Definition empty_trie : DomainTrie := mkDomainTrie new_node 0.

(** [::tolower] on a [char], in the "C" locale. *)
Definition tolower_char (c : ascii) : ascii :=
  let n := N_of_ascii c in
  if ((65 <=? n) && (n <=? 90))%N then ascii_of_N (n + 32) else c.

(** [std::transform(dom.begin(), dom.end(), dom.begin(), ::tolower)] *)
Fixpoint lowercase (dom : string) : string :=
  match dom with
  | EmptyString => EmptyString
  | String c rest => String (tolower_char c) (lowercase rest)
  end.

(** The [for] loop of [splitAndReverse] over the rest of the domain,
    with the [labels] pushed and the [current] label so far; it ends
    with the push of a non-empty [current]. *)
Fixpoint split_loop (domain : string) (labels : list string)
    (current : string) : list string :=
  match domain with
  | EmptyString =>
    if negb (String.eqb current EmptyString) then labels ++ [current]
    else labels
  | String c rest =>
    if Ascii.eqb c "."%char then
      if negb (String.eqb current EmptyString)
      then split_loop rest (labels ++ [current]) EmptyString
      else split_loop rest labels current
    else split_loop rest labels (current +:+ String c EmptyString)
  end.

Definition splitAndReverse (domain : string) : list string :=
  rev (split_loop domain [] EmptyString).

(** The loop of [matchImpl] over the remaining labels, and the checks
    of the final node after it. *)
Fixpoint matchImpl_loop (node : TrieNode) (labels : list string)
    (matched_wildcard : option Rule) : option Rule :=
  match labels with
  | [] =>
    match exact_rule node with
    | Some r => Some r
    | None =>
      match wildcard_rule node with
      | Some r => Some r
      | None => matched_wildcard
      end
    end
  | label :: rest =>
    let matched_wildcard :=
      match wildcard_rule node with
      | Some r => Some r
      | None => matched_wildcard
      end in
    match children node !! label with
    | None => matched_wildcard
    | Some child => matchImpl_loop child rest matched_wildcard
    end
  end.

Definition matchImpl (node : TrieNode) (labels : list string) : option Rule :=
  matchImpl_loop node labels None.

(** [insertImpl]: the node after the walk that creates the missing
    children and the store of the rule in the last node. *)
Fixpoint insertImpl (node : TrieNode) (labels : list string)
    (is_wildcard : bool) (rule : Rule) : TrieNode :=
  match labels with
  | [] =>
    if is_wildcard
    then mkTrieNode (children node) (exact_rule node) (Some rule)
    else mkTrieNode (children node) (Some rule) (wildcard_rule node)
  | label :: rest =>
    let child :=
      match children node !! label with
      | Some c => c
      | None => new_node
      end in
    mkTrieNode (<[label := insertImpl child rest is_wildcard rule]>
                  (children node))
               (exact_rule node) (wildcard_rule node)
  end.

(** [dom.substr(2)] *)
Definition substr2 (dom : string) : string :=
  match dom with
  | String _ (String _ rest) => rest
  | _ => EmptyString
  end.

(** The test [domain_len > 2 && domain[0] == '*' && domain[1] == '.']. *)
Definition has_wildcard_prefix (domain : string) : bool :=
  match domain with
  | String c0 (String c1 (String _ _)) =>
    Ascii.eqb c0 "*"%char && Ascii.eqb c1 "."%char
  | _ => false
  end.

(** [rule_count_++] on a [size_t]. *)
Definition size_incr (n : Z) : Z := (n + 1) mod 2 ^ 64.

(** [DomainTrie::insert] on a [std::string] domain; a null [rule] is
    [None]. *)
Definition insert (t : DomainTrie) (domain : string) (rule : option Rule)
    : DomainTrie :=
  match rule with
  | None => t
  | Some rule =>
    if String.eqb domain EmptyString then t
    else
      let is_wildcard := has_wildcard_prefix domain in
      let dom := if is_wildcard then substr2 domain else domain in
      let dom := lowercase dom in
      let labels := splitAndReverse dom in
      mkDomainTrie (insertImpl (root_ t) labels is_wildcard rule)
                   (size_incr (rule_count_ t))
  end.

(** [DomainTrie::match] on a [std::string] domain ([match] is a
    keyword of Rocq). *)
Definition match_ (t : DomainTrie) (domain : string) : option Rule :=
  if String.eqb domain EmptyString then None
  else
    let dom := lowercase domain in
    let labels := splitAndReverse dom in
    matchImpl (root_ t) labels.

(** [DomainTrie::size] *)
Definition size (t : DomainTrie) : Z := rule_count_ t.

(** [DomainTrie::clear] *)
Definition clear (t : DomainTrie) : DomainTrie := empty_trie.

(** ** domain_trie.cpp: DomainTrie::remove *)

(** The walk of [remove] to the node of the labels, without creating
    any, and the store that clears the rule there. [None] when a child
    is missing or the rule is not set: [remove] then returns false and
    has changed nothing. *)
Fixpoint removeImpl (node : TrieNode) (labels : list string)
    (is_wildcard : bool) : option TrieNode :=
  match labels with
  | [] =>
    if is_wildcard then
      match wildcard_rule node with
      | Some _ => Some (mkTrieNode (children node) (exact_rule node) None)
      | None => None
      end
    else
      match exact_rule node with
      | Some _ => Some (mkTrieNode (children node) None (wildcard_rule node))
      | None => None
      end
  | label :: rest =>
    match children node !! label with
    | None => None
    | Some child =>
      match removeImpl child rest is_wildcard with
      | Some child' =>
        Some (mkTrieNode (<[label := child']> (children node))
                         (exact_rule node) (wildcard_rule node))
      | None => None
      end
    end
  end.

(** [rule_count_--] on a [size_t]. *)
Definition size_decr (n : Z) : Z := (n - 1) mod 2 ^ 64.

(** [DomainTrie::remove] on a [std::string] domain: the returned flag
    and the trie after the call. *)
Definition remove (t : DomainTrie) (domain : string) : bool * DomainTrie :=
  if String.eqb domain EmptyString then (false, t)
  else
    let is_wildcard := has_wildcard_prefix domain in
    let dom := if is_wildcard then substr2 domain else domain in
    let dom := lowercase dom in
    let labels := splitAndReverse dom in
    match removeImpl (root_ t) labels is_wildcard with
    | Some root' => (true, mkDomainTrie root' (size_decr (rule_count_ t)))
    | None => (false, t)
    end.

(** ** common.hpp, domain_trie.hpp, filter_engine.cpp: FilterEngine *)

(** [struct FilterResult]; [result_action] is its field [action]. *)
Record FilterResult : Type := mkFilterResult {
  result_action : Action;
  matched_rule : option Rule
}.

(** [FilterEngine::Stats] *)
Record Stats : Type := mkStats {
  total_checks : Z;
  allowed : Z;
  blocked : Z;
  redirected : Z;
  logged : Z
}.

(** The trie, the stored copies of the rules and the five [uint64_t]
    counters of a [FilterEngine]. *)
Record FilterEngine : Type := mkFilterEngine {
  trie_ : DomainTrie;
  rules_storage_ : list Rule;
  total_checks_ : Z;
  allowed_ : Z;
  blocked_ : Z;
  redirected_ : Z;
  logged_ : Z
}.

(** [FilterEngine::FilterEngine()] *)
Definition new_engine : FilterEngine :=
  mkFilterEngine empty_trie [] 0 0 0 0 0.

(** [DomainTrie::match] and [DomainTrie::insert] on a [const char*] and
    its length; a null [domain] is [None]. *)
Definition match_chars (t : DomainTrie) (domain : option string)
    : option Rule :=
  match domain with
  | Some d => match_ t d
  | None => None
  end.

Definition insert_chars (t : DomainTrie) (domain : option string)
    (rule : option Rule) : DomainTrie :=
  match domain with
  | Some d => insert t d rule
  | None => t
  end.

(** The [fetch_add(1)] on the counter of an action; the [default] of
    the [switch] is [Action::Allow]. *)
Definition count_action (e : FilterEngine) (a : Action) : FilterEngine :=
  match a with
  | Block =>
    mkFilterEngine (trie_ e) (rules_storage_ e) (total_checks_ e)
      (allowed_ e) (fetch_add1 (blocked_ e)) (redirected_ e) (logged_ e)
  | Redirect =>
    mkFilterEngine (trie_ e) (rules_storage_ e) (total_checks_ e)
      (allowed_ e) (blocked_ e) (fetch_add1 (redirected_ e)) (logged_ e)
  | Log =>
    mkFilterEngine (trie_ e) (rules_storage_ e) (total_checks_ e)
      (allowed_ e) (blocked_ e) (redirected_ e) (fetch_add1 (logged_ e))
  | Allow =>
    mkFilterEngine (trie_ e) (rules_storage_ e) (total_checks_ e)
      (fetch_add1 (allowed_ e)) (blocked_ e) (redirected_ e) (logged_ e)
  end.

(** [FilterEngine::check]: the result and the engine with the counters
    after the call. *)
Definition check (e : FilterEngine) (domain : option string) (qtype : Z)
    : FilterResult * FilterEngine :=
  let e :=
    mkFilterEngine (trie_ e) (rules_storage_ e)
      (fetch_add1 (total_checks_ e))
      (allowed_ e) (blocked_ e) (redirected_ e) (logged_ e) in
  match match_chars (trie_ e) domain with
  | None => (mkFilterResult Allow None, count_action e Allow)
  | Some rule =>
    (mkFilterResult (action rule) (Some rule), count_action e (action rule))
  end.

(** [FilterEngine::addRule]: the copy of the rule is stored, and the
    trie points to the copy. *)
Definition addRule (e : FilterEngine) (rule : Rule) (domain : option string)
    : FilterEngine :=
  mkFilterEngine (insert_chars (trie_ e) domain (Some rule))
    (rules_storage_ e ++ [rule])
    (total_checks_ e) (allowed_ e) (blocked_ e) (redirected_ e) (logged_ e).

(** [FilterEngine::getStats] *)
Definition getStats (e : FilterEngine) : Stats :=
  mkStats (total_checks_ e) (allowed_ e) (blocked_ e) (redirected_ e)
          (logged_ e).

(** [FilterEngine::resetStats] *)
Definition resetStats (e : FilterEngine) : FilterEngine :=
  mkFilterEngine (trie_ e) (rules_storage_ e) 0 0 0 0 0.

(** ** The lookup rule of the specification (section 4.3)

    These definitions follow the words of the specification, to be
    compared with [matchImpl] and [match]. *)

(** The nodes visited from [node] along [labels]: [node] itself, then
    the child for each label in turn, as long as that child exists. *)
Fixpoint walked_path (node : TrieNode) (labels : list string)
    : list TrieNode :=
  node ::
  match labels with
  | [] => []
  | label :: rest =>
    match children node !! label with
    | Some child => walked_path child rest
    | None => []
    end
  end.

(** The node reached by consuming all of [labels], when every child on
    the way exists. *)
Fixpoint reached_node (node : TrieNode) (labels : list string)
    : option TrieNode :=
  match labels with
  | [] => Some node
  | label :: rest =>
    match children node !! label with
    | Some child => reached_node child rest
    | None => None
    end
  end.

(** The most recent [wildcard_rule] seen on a list of visited nodes. *)
Definition last_wildcard (nodes : list TrieNode) : option Rule :=
  list.last (omap wildcard_rule nodes).

(** [a] if set, else [b]. *)
Definition or_else (a b : option Rule) : option Rule :=
  match a with
  | Some r => Some r
  | None => b
  end.

(** "When the label path is fully consumed, return in order of
    precedence: exact_rule, else the final node's wildcard_rule, else
    the remembered ancestor wildcard"; "if a child for the current label
    is missing, return the remembered wildcard (or none)". *)
Definition spec_match (root : TrieNode) (labels : list string)
    : option Rule :=
  match reached_node root labels with
  | Some final =>
    or_else (exact_rule final)
      (or_else (wildcard_rule final)
         (last_wildcard (removelast (walked_path root labels))))
  | None => last_wildcard (walked_path root labels)
  end.

(** The ASCII-uppercased form of a domain string. *)
Definition toupper_char (c : ascii) : ascii :=
  let n := N_of_ascii c in
  if ((97 <=? n) && (n <=? 122))%N then ascii_of_N (n - 32) else c.

Fixpoint uppercase (dom : string) : string :=
  match dom with
  | EmptyString => EmptyString
  | String c rest => String (toupper_char c) (uppercase rest)
  end.

(** ** The name on the wire (section 4.1 of the specification)

    These definitions follow the words of the specification, to be
    compared with [parseName]. *)

(** How the original, pre-jump portion of a name ends. *)
Inductive prefix_end : Type := EndZero | EndPointer.

(** The original portion of the name at [offset]: the bytes of its
    labels (length byte and contents) up to the terminating zero or the
    first compression pointer, and which of the two ended it; [None]
    when the portion runs out of the packet or holds an invalid
    length byte. One label per unit of [fuel]. *)
Fixpoint prefix_scan (fuel : nat) (data : list byte) (offset : Z)
    : option (Z * prefix_end) :=
  match fuel with
  | O => None
  | S fuel' =>
    if offset >=? buf_len data then None
    else
      let b := byte_at data offset in
      if b =? 0 then Some (0, EndZero)
      else if Z.land b 0xC0 =? 0xC0 then Some (0, EndPointer)
      else if (b >? 63) || (offset + 1 + b >? buf_len data) then None
      else
        match prefix_scan fuel' data (offset + 1 + b) with
        | Some (n, k) => Some (1 + b + n, k)
        | None => None
        end
  end.

Definition name_prefix (data : list byte) (offset : Z)
    : option (Z * prefix_end) :=
  prefix_scan (length data) data offset.

(** "[wire_len] counts only the original (pre-jump) bytes plus the
    terminating zero (1 byte) or the 2-byte pointer that ended the
    walk." *)
Definition spec_wire_len (data : list byte) (offset : Z) : option Z :=
  match name_prefix data offset with
  | Some (n, EndZero) => Some (n + 1)
  | Some (n, EndPointer) => Some (n + 2)
  | None => None
  end.

(** The lengths of the labels met on the walk of the name at [offset],
    compression pointers followed (at most [MAX_LABELS] of them, each to
    a target inside the packet); [None] when the walk does not reach a
    terminating zero. *)
Fixpoint walk_labels (fuel : nat) (data : list byte) (offset jumps : Z)
    : option (list Z) :=
  match fuel with
  | O => None
  | S fuel' =>
    if (jumps >=? MAX_LABELS) || (offset >=? buf_len data) then None
    else
      let b := byte_at data offset in
      if b =? 0 then Some []
      else if Z.land b 0xC0 =? 0xC0 then
        let target := Z.lor (Z.shiftl (Z.land b 0x3F) 8)
                            (byte_at data (offset + 1)) in
        if (offset + 1 >=? buf_len data) || (target >=? buf_len data)
        then None
        else walk_labels fuel' data target (jumps + 1)
      else if (b >? 63) || (offset + 1 + b >? buf_len data) then None
      else option_map (cons b) (walk_labels fuel' data (offset + 1 + b) jumps)
  end.

(** The bytes the labels take on the wire: a length byte and the
    contents, for each. *)
Definition label_bytes (labels : list Z) : Z :=
  fold_right Z.add 0 (map (fun l => 1 + l) labels).

(** ** Measures and predicates of the proofs *)

(** A bound on the turns left in a state of the scan: the jumps left,
    each followed by a pass over the packet, and the bytes left in the
    current pass. *)
Definition turns_left (data : list byte) (offset jump_count : Z) : Z :=
  (MAX_LABELS - jump_count) * (buf_len data + 1)
  + Z.max 0 (buf_len data - offset) + 1.

(** The errors of the name scan. *)
Definition scan_error (e : Error) : Prop :=
  e = TruncatedMessage \/ e = PointerLoop \/ e = InvalidLabel.

(** The big-endian 16-bit count at header bytes [off] and [off + 1]. *)
Definition header_count (buf : list byte) (off : Z) : Z :=
  256 * byte_at buf off + byte_at buf (off + 1).

(** The datagram a builder produced: the first [n] bytes of the
    buffer. *)
Definition datagram (n : Z) (out : list byte) : list byte :=
  firstn (Z.to_nat n) out.

(** [buf] has room for [cap] bytes and carries the bytes of [query] in
    the header fields [qd_count], [ns_count], [ar_count] and in the
    question up to [tc]. *)
Definition carries_question (query : list byte) (tc cap : Z)
    (buf : list byte) : Prop :=
  buf_len buf = cap /\
  forall i, 4 <= i < 6 \/ 8 <= i < tc -> byte_at buf i = byte_at query i.

(** The status an entry point of the facade returns. *)
Definition status_of {A B : Type} (x : Z * A * B) : Z := fst (fst x).

(** ** Further measures and predicates of the proofs *)

(** The 16-bit value whose high byte is [data[off]] and whose low byte
    is [data[off + 1]]. *)
Definition be16 (data : list byte) (off : Z) : Z :=
  256 * byte_at data off + byte_at data (off + 1).

(** The bytes of a 16-bit and of a 32-bit value, high byte first. *)
Definition be_bytes16 (v : Z) : list byte :=
  [to_u8 (Z.shiftr v 8); to_u8 v].

Definition be_bytes32 (v : Z) : list byte :=
  [to_u8 (Z.shiftr v 24); to_u8 (Z.shiftr v 16); to_u8 (Z.shiftr v 8);
   to_u8 v].

(** A byte that is not an ASCII capital letter. *)
Definition not_upper (b : byte) : Prop := ~ (65 <= u8 b <= 90).

(** The flags of the responses, from the flags [f] of the query: QR and
    RA set, the response code replaced, and AA set in an answer. *)
Definition nxdomain_flags (f : Z) : Z :=
  Z.lor (Z.land (Z.lor (Z.lor f 0x8000) 0x0080) 0xFFF0) 0x0003.

Definition refused_flags (f : Z) : Z :=
  Z.lor (Z.land (Z.lor (Z.lor f 0x8000) 0x0080) 0xFFF0) 0x0005.

Definition answer_flags (f : Z) : Z :=
  Z.land (Z.lor (Z.lor (Z.lor f 0x8000) 0x0400) 0x0080) 0xFFF0.

(** The resource record of an A answer and of an AAAA answer: the
    pointer C0 0C to the name of the question, type, class IN, TTL,
    RDLENGTH and the address bytes. *)
Definition a_record (ttl : Z) (address : list byte) : list byte :=
  [to_u8 0xC0; to_u8 0x0C] ++ be_bytes16 1 ++ be_bytes16 1
    ++ be_bytes32 ttl ++ be_bytes16 4 ++ address.

Definition aaaa_record (ttl : Z) (address : list byte) : list byte :=
  [to_u8 0xC0; to_u8 0x0C] ++ be_bytes16 28 ++ be_bytes16 1
    ++ be_bytes32 ttl ++ be_bytes16 16 ++ address.


(** The rule of one kind stored for a label path, if its node exists. *)
Definition rule_at (node : TrieNode) (labels : list string)
    (is_wildcard : bool) : option Rule :=
  match reached_node node labels with
  | Some n => if is_wildcard then wildcard_rule n else exact_rule n
  | None => None
  end.

(** The label path [insert] and [remove] compute for a domain. *)
Definition rule_labels (domain : string) : list string :=
  splitAndReverse
    (lowercase (if has_wildcard_prefix domain then substr2 domain
                else domain)).

(** A label as the trie keys it: not empty, and without a dot. *)
Fixpoint has_dot (s : string) : bool :=
  match s with
  | EmptyString => false
  | String c rest => Ascii.eqb c "."%char || has_dot rest
  end.

Definition good_label (l : string) : Prop :=
  l <> EmptyString /\ has_dot l = false.

(** A call of one of the member functions of an engine, and a sequence
    of calls made one after the other. *)
Inductive EngineCall : Type :=
  | CallCheck (domain : option string) (qtype : Z)
  | CallAddRule (rule : Rule) (domain : option string)
  | CallResetStats.

Definition engine_call (e : FilterEngine) (c : EngineCall) : FilterEngine :=
  match c with
  | CallCheck domain qtype => snd (check e domain qtype)
  | CallAddRule rule domain => addRule e rule domain
  | CallResetStats => resetStats e
  end.

Definition engine_calls (e : FilterEngine) (cs : list EngineCall)
    : FilterEngine :=
  fold_left engine_call cs e.

(** Statistics that add up: every counter is a [uint64_t] value, and
    the checks are the sum of the four outcomes, modulo 2^64. *)
Definition stats_add_up (s : Stats) : Prop :=
  0 <= total_checks s < 2 ^ 64 /\
  0 <= allowed s < 2 ^ 64 /\ 0 <= blocked s < 2 ^ 64 /\
  0 <= redirected s < 2 ^ 64 /\ 0 <= logged s < 2 ^ 64 /\
  total_checks s
  = (allowed s + blocked s + redirected s + logged s) mod 2 ^ 64.

(** The bytes of a text, ASCII capital letters lowered. *)
Definition lower_bytes (bs : list byte) : list byte :=
  map (fun b => to_u8 (tolower (u8 b))) bs.

(** The text of the uncompressed name at [offset]: its labels, lowered
    and joined by dots, with a dot in front unless [first_label]. One
    label per unit of [fuel]. *)
Fixpoint dotted_name (fuel : nat) (data : list byte) (offset : Z)
    (first_label : bool) : list byte :=
  match fuel with
  | O => []
  | S fuel' =>
    let b := byte_at data offset in
    if b =? 0 then []
    else
      (if first_label then [] else [to_u8 46])
        ++ lower_label data (offset + 1) b
        ++ dotted_name fuel' data (offset + 1 + b) false
  end.

(** A call of an entry point of the facade, with its arguments, and the
    counters after a sequence of calls made one after the other on a
    host [host_le]; [parsed0] is the initial value of the locals
    [parsed]. *)
Inductive FacadeCall : Type :=
  | ApiParse (packet_data : option (list byte))
             (result : option XDPDNSParseResult)
  | ApiBuildNXDomain (original_packet response_buf : list byte)
                     (response_len : Z)
  | ApiBuildA (original_packet : list byte) (ipv4_addr ttl : Z)
              (response_buf : list byte) (response_len : Z)
  | ApiBuildAAAA (original_packet ipv6_addr : list byte) (ttl : Z)
                 (response_buf : list byte) (response_len : Z)
  | ApiResetStats.

Definition counters_of (r : option (Z * list byte * Z * Counters))
    (g : Counters) : Counters :=
  match r with
  | Some (_, _, _, g') => g'
  | None => g
  end.

Definition facade_call (host_le : bool) (parsed0 : DNSParseResult)
    (g : Counters) (c : FacadeCall) : Counters :=
  match c with
  | ApiParse packet_data result =>
    snd (xdp_dns_parse host_le parsed0 packet_data result g)
  | ApiBuildNXDomain packet buf len =>
    counters_of (xdp_dns_build_nxdomain host_le parsed0 packet buf len g) g
  | ApiBuildA packet ip ttl buf len =>
    counters_of
      (xdp_dns_build_a_response host_le parsed0 packet ip ttl buf len g) g
  | ApiBuildAAAA packet ipv6 ttl buf len =>
    counters_of
      (xdp_dns_build_aaaa_response host_le parsed0 packet ipv6 ttl buf len g)
      g
  | ApiResetStats => xdp_dns_reset_stats g
  end.

Definition facade_calls (host_le : bool) (parsed0 : DNSParseResult)
    (g : Counters) (cs : list FacadeCall) : Counters :=
  fold_left (facade_call host_le parsed0) cs g.

(** Counters that fit [k] calls: the packets parsed and the parse
    errors are among the packets received, and the packets received and
    the responses built are among the calls. *)
Definition counters_fit (k : Z) (g : Counters) : Prop :=
  0 <= g_packets_parsed g /\ 0 <= g_parse_errors g /\
  0 <= g_response_built g /\
  g_packets_parsed g + g_parse_errors g <= g_packets_received g /\
  g_packets_received g + g_response_built g <= k /\
  g_total_latency_ns g = 0.

(** ** Test data *)

(** The query of scenario S1: www.example.com, type A, class IN. *)
Definition S1_packet : list byte := bytes_of
  [0x12; 0x34; 0x01; 0x00; 0x00; 0x01; 0x00; 0x00; 0x00; 0x00; 0x00; 0x00;
   0x03; 0x77; 0x77; 0x77; 0x07; 0x65; 0x78; 0x61; 0x6d; 0x70; 0x6c; 0x65;
   0x03; 0x63; 0x6f; 0x6d; 0x00; 0x00; 0x01; 0x00; 0x01].

Definition blank_result : DNSParseResult :=
  {| header := None;
     question := {| name_start := None; name_offset := 0;
                    name_wire_len := 0; qtype := 0; qclass := 0 |};
     total_consumed := 0; question_end := 0;
     id := 0; flags := 0; is_query := false |}.

Definition rule_block : Rule := mkRule 1 Block 0 300 "rule1".
Definition rule_log : Rule := mkRule 2 Log 0 300 "rule2".

(** The packet of scenario S6: the header of S1, the name C0 0C, type
    and class. *)
Definition S6_packet : list byte := bytes_of
  [0x12; 0x34; 0x01; 0x00; 0x00; 0x01; 0x00; 0x00; 0x00; 0x00; 0x00; 0x00;
   0xC0; 0x0C; 0x00; 0x01; 0x00; 0x01].

(** A name that is a pointer to offset 255, past the end of the packet. *)
Definition far_pointer_packet : list byte := bytes_of
  [0x12; 0x34; 0x01; 0x00; 0x00; 0x01; 0x00; 0x00; 0x00; 0x00; 0x00; 0x00;
   0xC0; 0xFF; 0x00; 0x01; 0x00; 0x01].

(** The query of S1 with [qd_count] = 0. *)
Definition no_question_packet : list byte := bytes_of
  [0x12; 0x34; 0x01; 0x00; 0x00; 0x00; 0x00; 0x00; 0x00; 0x00; 0x00; 0x00;
   0x03; 0x77; 0x77; 0x77; 0x07; 0x65; 0x78; 0x61; 0x6d; 0x70; 0x6c; 0x65;
   0x03; 0x63; 0x6f; 0x6d; 0x00; 0x00; 0x01; 0x00; 0x01].

(** The query of S1 as a resolver with EDNS(0) sends it: [ar_count] = 1
    and an OPT record after the question. *)
Definition edns_query_packet : list byte := bytes_of
  [0x12; 0x34; 0x01; 0x00; 0x00; 0x01; 0x00; 0x00; 0x00; 0x00; 0x00; 0x01;
   0x03; 0x77; 0x77; 0x77; 0x07; 0x65; 0x78; 0x61; 0x6d; 0x70; 0x6c; 0x65;
   0x03; 0x63; 0x6f; 0x6d; 0x00; 0x00; 0x01; 0x00; 0x01;
   0x00; 0x00; 0x29; 0x10; 0x00; 0x00; 0x00; 0x00; 0x00; 0x00; 0x00].

(** A query whose first label has the length byte 0x40. *)
Definition invalid_label_packet : list byte := bytes_of
  [0x12; 0x34; 0x01; 0x00; 0x00; 0x01; 0x00; 0x00; 0x00; 0x00; 0x00; 0x00;
   0x40; 0x77; 0x77; 0x77; 0x00; 0x00; 0x01; 0x00; 0x01].

(** The response of scenario S3: QR = 1, one A record. *)
Definition response_packet : list byte := bytes_of
  [0x12; 0x34; 0x85; 0x80; 0x00; 0x01; 0x00; 0x01; 0x00; 0x00; 0x00; 0x00;
   0x03; 0x77; 0x77; 0x77; 0x07; 0x65; 0x78; 0x61; 0x6d; 0x70; 0x6c; 0x65;
   0x03; 0x63; 0x6f; 0x6d; 0x00; 0x00; 0x01; 0x00; 0x01;
   0xC0; 0x0C; 0x00; 0x01; 0x00; 0x01; 0x00; 0x00; 0x01; 0x2C; 0x00; 0x04;
   0xC0; 0xA8; 0x01; 0x64].

(** A header and two more bytes: 14 bytes. *)
Definition short_packet : list byte := bytes_of
  [0x12; 0x34; 0x01; 0x00; 0x00; 0x01; 0x00; 0x00; 0x00; 0x00; 0x00; 0x00;
   0x00; 0x00].

(** A query whose name is the label "www" and then a pointer to offset
    22, where the label "com" and the terminating zero follow the type
    and class of the question. *)
Definition compressed_query_packet : list byte := bytes_of
  [0x12; 0x34; 0x01; 0x00; 0x00; 0x01; 0x00; 0x00; 0x00; 0x00; 0x00; 0x00;
   0x03; 0x77; 0x77; 0x77; 0xC0; 0x16; 0x00; 0x01; 0x00; 0x01;
   0x03; 0x63; 0x6f; 0x6d; 0x00].

Definition blank_xresult : XDPDNSParseResult :=
  mkXDPDNSParseResult 0 0 0 0 0 0 (repeat x00 256) 0.

Definition zero_counters : Counters := mkCounters 0 0 0 0 0.

(** The trie of scenario S4. *)
Definition S4_trie : DomainTrie :=
  insert (insert empty_trie "*.example.com" (Some rule_log))
         "blocked.example.com" (Some rule_block).

(** A query whose name has five labels of 63 bytes: 321 bytes on the
    wire, 319 decoded. *)
Definition long_name_packet : list byte := bytes_of
  ([0x12; 0x34; 0x01; 0x00; 0x00; 0x01; 0x00; 0x00; 0x00; 0x00; 0x00; 0x00]
   ++ concat (repeat (63 :: repeat 0x61 63) 5)
   ++ [0x00; 0x00; 0x01; 0x00; 0x01]).

(** ** Tactics *)

(** Comparisons of the source, turned the way [lia] reads them. *)
Ltac flip_cmp := rewrite ?Z.geb_leb, ?Z.gtb_ltb in *.

Ltac case_ltb x y :=
  let H := fresh "Hcmp" in destruct (Z.ltb_spec x y) as [H|H].
Ltac case_leb x y :=
  let H := fresh "Hcmp" in destruct (Z.leb_spec x y) as [H|H].
Ltac case_eqb x y :=
  let H := fresh "Hcmp" in destruct (Z.eqb_spec x y) as [H|H].

(** Linear arithmetic with division and remainder by constants. *)
Ltac lia_div := Z.to_euclidean_division_equations; lia.

(** * Properties *)

(** ** Bytes *)

Lemma u8_range (b : byte) : 0 <= u8 b < 256.
Proof.
  unfold u8. pose proof (Byte.to_N_bounded b). lia.
Qed.

Lemma byte_at_range (data : list byte) (off : Z) : 0 <= byte_at data off < 256.
Proof. apply u8_range. Qed.

Lemma u8_to_u8 (z : Z) : u8 (to_u8 z) = z mod 256.
Proof.
  unfold u8, to_u8.
  assert (Hr : 0 <= z mod 256 < 256) by (apply Z.mod_pos_bound; lia).
  destruct (Byte.of_N (Z.to_N (z mod 256))) as [b|] eqn:E.
  - apply Byte.to_of_N in E. rewrite E. lia.
  - apply Byte.of_N_None_iff in E. lia.
Qed.

(** ** The name scan leaves its loop *)

Lemma pointer_target_nonneg (data : list byte) (offset : Z) :
  0 <= Z.lor (Z.shiftl (Z.land (byte_at data offset) 63) 8)
             (byte_at data (offset + 1)).
Proof.
  pose proof (byte_at_range data offset).
  pose proof (byte_at_range data (offset + 1)).
  apply Z.lor_nonneg. split; [|lia].
  apply Z.shiftl_nonneg. apply Z.land_nonneg. lia.
Qed.

Lemma turns_left_jump (data : list byte) (offset ptr jc : Z) :
  jc < MAX_LABELS -> offset < buf_len data -> 0 <= ptr ->
  turns_left data ptr (jc + 1) < turns_left data offset jc.
Proof.
  intros Hjc Hoff Hptr. unfold turns_left.
  assert (0 <= buf_len data) by (unfold buf_len; lia).
  replace (MAX_LABELS - (jc + 1)) with ((MAX_LABELS - jc) - 1) by lia.
  rewrite Z.mul_sub_distr_r. lia.
Qed.

Lemma turns_left_label (data : list byte) (offset n jc : Z) :
  0 < n -> offset < buf_len data ->
  turns_left data (offset + n) jc < turns_left data offset jc.
Proof. intros Hn Hoff. unfold turns_left. lia. Qed.

Lemma turns_left_pos (data : list byte) (offset jc : Z) :
  jc <= MAX_LABELS -> 0 < turns_left data offset jc.
Proof.
  intros Hjc. unfold turns_left, buf_len.
  assert (0 <= (MAX_LABELS - jc) * (Z.of_nat (length data) + 1)) by nia.
  lia.
Qed.

(** The body of the loop of [parseName], one turn unfolded. *)
Lemma parseName_loop_S (fuel : nat) (data : list byte) (offset oo : Z)
    (jumped : bool) (jc tl : Z) :
  parseName_loop (S fuel) data offset oo jumped jc tl =
    if negb (jc <? MAX_LABELS) then Some (Err PointerLoop)
    else if offset >=? buf_len data then Some (Err TruncatedMessage)
    else if byte_at data offset =? 0 then
      Some (Ok (if negb jumped then offset + 1 else oo + 2, tl + 1))
    else if Z.land (byte_at data offset) 0xC0 =? 0xC0 then
      if offset + 1 >=? buf_len data then Some (Err TruncatedMessage)
      else if Z.lor (Z.shiftl (Z.land (byte_at data offset) 0x3F) 8)
                    (byte_at data (offset + 1)) >=? buf_len data
      then Some (Err PointerLoop)
      else parseName_loop fuel data
             (Z.lor (Z.shiftl (Z.land (byte_at data offset) 0x3F) 8)
                    (byte_at data (offset + 1)))
             (if negb jumped then offset else oo) true (jc + 1) tl
    else if byte_at data offset >? MAX_LABEL_LENGTH then Some (Err InvalidLabel)
    else if offset + 1 + byte_at data offset >? buf_len data
    then Some (Err TruncatedMessage)
    else parseName_loop fuel data (offset + 1 + byte_at data offset) oo
           jumped jc (tl + (1 + byte_at data offset)).
Proof. reflexivity. Qed.

Lemma parseName_loop_total (data : list byte) :
  forall (fuel : nat) (offset oo : Z) (jumped : bool) (jc tl : Z),
    jc <= MAX_LABELS ->
    turns_left data offset jc <= Z.of_nat fuel ->
    parseName_loop fuel data offset oo jumped jc tl <> None.
Proof.
  induction fuel as [|fuel IH]; intros offset oo jumped jc tl Hle Hfuel.
  - pose proof (turns_left_pos data offset jc Hle). lia.
  - rewrite parseName_loop_S. flip_cmp.
    pose proof (byte_at_range data offset) as Hb.
    case_ltb jc MAX_LABELS; simpl negb; cbv iota; [|discriminate].
    case_leb (buf_len data) offset; [discriminate|].
    case_eqb (byte_at data offset) 0; [discriminate|].
    destruct (Z.land (byte_at data offset) 192 =? 192).
    + case_leb (buf_len data) (offset + 1); [discriminate|].
      destruct (buf_len data <=? _); [discriminate|].
      apply IH; [lia|].
      pose proof (turns_left_jump data offset _ jc Hcmp Hcmp0
                    (pointer_target_nonneg data offset)). lia.
    + destruct (MAX_LABEL_LENGTH <? byte_at data offset); [discriminate|].
      destruct (buf_len data <? offset + 1 + byte_at data offset);
        [discriminate|].
      apply IH; [lia|].
      pose proof (turns_left_label data offset (1 + byte_at data offset) jc).
      replace (offset + 1 + byte_at data offset)
        with (offset + (1 + byte_at data offset)) by lia.
      lia.
Qed.

Lemma name_fuel_enough (data : list byte) (offset : Z) :
  0 <= offset -> turns_left data offset 0 <= Z.of_nat (name_fuel data).
Proof.
  intros Hoff. unfold turns_left, name_fuel, MAX_LABELS, buf_len. lia.
Qed.

(** More fuel does not change a result of the scan. *)
Lemma parseName_loop_mono (data : list byte) (r : outcome (Z * Z)) :
  forall (fuel fuel' : nat) (offset oo : Z) (jumped : bool) (jc tl : Z),
    parseName_loop fuel data offset oo jumped jc tl = Some r ->
    (fuel <= fuel')%nat ->
    parseName_loop fuel' data offset oo jumped jc tl = Some r.
Proof.
  induction fuel as [|fuel IH]; intros fuel' offset oo jumped jc tl Hr Hle;
    [discriminate|].
  destruct fuel' as [|fuel']; [lia|].
  rewrite parseName_loop_S in Hr |- *.
  repeat match goal with
         | H : context [if ?c then _ else _] |- _ => destruct c
         end; try assumption; apply IH; try assumption; lia.
Qed.

(** [parseName] is the scan run with any amount of fuel that leaves the
    loop. *)
Lemma parseName_fuel (data : list byte) (offset : Z) (fuel : nat)
    (r : outcome (Z * Z)) :
  parseName_loop fuel data offset offset false 0 0 = Some r ->
  0 <= offset ->
  parseName data offset = r.
Proof.
  intros Hr Hoff. unfold parseName.
  destruct (parseName_loop (name_fuel data) data offset offset false 0 0)
    as [r'|] eqn:E.
  - destruct (Nat.le_ge_cases fuel (name_fuel data)) as [Hle|Hle].
    + rewrite (parseName_loop_mono _ _ _ _ _ _ _ _ _ Hr Hle) in E.
      congruence.
    + rewrite (parseName_loop_mono _ _ _ _ _ _ _ _ _ E Hle) in Hr.
      congruence.
  - exfalso. revert E. apply parseName_loop_total.
    + unfold MAX_LABELS. lia.
    + apply name_fuel_enough. assumption.
Qed.

(** A name that is the pointer C0 0C at offset 12 sends the scan back to
    offset 12 until the jump counter reaches [MAX_LABELS]. *)
Lemma self_pointer_scan (data : list byte) :
  byte_at data 12 = 0xC0 -> byte_at data 13 = 0x0C -> 14 <= buf_len data ->
  forall (n fuel : nat) (oo : Z) (jumped : bool) (jc tl : Z),
    jc + Z.of_nat n = MAX_LABELS -> (n < fuel)%nat ->
    parseName_loop fuel data 12 oo jumped jc tl = Some (Err PointerLoop).
Proof.
  intros H12 H13 Hlen.
  induction n as [|n IH]; intros fuel oo jumped jc tl Hjc Hfuel;
    (destruct fuel as [|fuel]; [lia|]); rewrite parseName_loop_S.
  - case_ltb jc MAX_LABELS; [lia|reflexivity].
  - case_ltb jc MAX_LABELS; [|lia]. simpl negb. cbv iota.
    replace (12 + 1) with 13 by reflexivity.
    rewrite H12, H13. flip_cmp.
    case_leb (buf_len data) 12; [lia|].
    change (192 =? 0) with false. change (Z.land 192 192 =? 192) with true.
    cbv iota.
    case_leb (buf_len data) 13; [lia|].
    change (Z.lor (Z.shiftl (Z.land 192 63) 8) 12) with 12.
    case_leb (buf_len data) 12; [lia|].
    apply IH; lia.
Qed.

(** ** Claim C6 *)

(** C6. [DNSParser::parse] terminates on every input: the name scan
    leaves its loop within [name_fuel] turns whatever the packet and the
    start offset, and more turns do not change its result. A scan whose
    jump counter has reached [MAX_LABELS] = 128 returns [PointerLoop]; a
    pointer whose 14-bit target is at or past [len] returns
    [PointerLoop]; and for a packet that carries a question and whose
    QNAME at offset 12 is C0 0C, [parse] returns [PointerLoop]. *)
Theorem parse_terminates_pointer_loop :
  (forall (data : list byte) (offset : Z), 0 <= offset ->
     exists r : outcome (Z * Z),
       parseName data offset = r /\
       forall fuel : nat, (name_fuel data <= fuel)%nat ->
         parseName_loop fuel data offset offset false 0 0 = Some r) /\
  MAX_LABELS = 128 /\
  (forall (fuel : nat) (data : list byte) (offset oo : Z) (jumped : bool)
          (tl : Z),
     parseName_loop (S fuel) data offset oo jumped MAX_LABELS tl
       = Some (Err PointerLoop)) /\
  (forall (fuel : nat) (data : list byte) (offset oo : Z) (jumped : bool)
          (jc tl : Z),
     jc < MAX_LABELS ->
     offset + 1 < buf_len data ->
     Z.land (byte_at data offset) 0xC0 = 0xC0 ->
     Z.lor (Z.shiftl (Z.land (byte_at data offset) 0x3F) 8)
           (byte_at data (offset + 1)) >= buf_len data ->
     parseName_loop (S fuel) data offset oo jumped jc tl
       = Some (Err PointerLoop)) /\
  (forall (host_le : bool) (data : list byte) (result : DNSParseResult),
     MIN_DNS_QUERY_SIZE <= buf_len data ->
     getQDCount host_le data 0 <> 0 ->
     byte_at data 12 = 0xC0 -> byte_at data 13 = 0x0C ->
     fst (parse_at host_le data result) = PointerLoop).
Proof.
  split; [|split; [reflexivity|split; [|split]]].
  - intros data offset Hoff.
    destruct (parseName_loop (name_fuel data) data offset offset false 0 0)
      as [r|] eqn:E.
    + exists r. split.
      * eapply parseName_fuel; eassumption.
      * intros fuel Hfuel. eapply parseName_loop_mono; eassumption.
    + exfalso. revert E. apply parseName_loop_total.
      * unfold MAX_LABELS. lia.
      * apply name_fuel_enough. assumption.
  - intros. rewrite parseName_loop_S. reflexivity.
  - intros fuel data offset oo jumped jc tl Hjc Hoff Hptr Htarget.
    rewrite parseName_loop_S. flip_cmp.
    case_ltb jc MAX_LABELS; [|lia]. simpl negb. cbv iota.
    case_leb (buf_len data) offset; [lia|].
    case_eqb (byte_at data offset) 0.
    { rewrite Hcmp1 in Hptr. discriminate Hptr. }
    rewrite Hptr. change (192 =? 192) with true. cbv iota.
    case_leb (buf_len data) (offset + 1); [lia|].
    match goal with |- context [?a <=? ?b] => case_leb a b end;
      [reflexivity|lia].
  - intros host_le data result Hlen Hqd H12 H13.
    unfold parse_at.
    case_ltb (buf_len data) MIN_DNS_QUERY_SIZE; [lia|].
    case_eqb (getQDCount host_le data 0) 0; [contradiction|].
    assert (Hscan : parseName data DNS_HEADER_SIZE = Err PointerLoop).
    { apply (parseName_fuel data 12 129); [|lia].
      apply (self_pointer_scan data H12 H13) with (n := 128%nat).
      - unfold MIN_DNS_QUERY_SIZE, DNS_HEADER_SIZE in Hlen. lia.
      - reflexivity.
      - lia. }
    rewrite Hscan. reflexivity.
Qed.

Lemma parse_terminates_pointer_loop_witness :
  (exists r : outcome (Z * Z),
     parseName S1_packet 12 = r /\
     forall fuel : nat, (name_fuel S1_packet <= fuel)%nat ->
       parseName_loop fuel S1_packet 12 12 false 0 0 = Some r) /\
  parseName_loop 1 far_pointer_packet 12 12 false 0 0
    = Some (Err PointerLoop) /\
  fst (parse_at true S6_packet blank_result) = PointerLoop.
Proof.
  destruct parse_terminates_pointer_loop as (Hterm & _ & _ & Hfar & Hself).
  split; [|split].
  - apply Hterm. lia.
  - apply Hfar; vm_compute; congruence.
  - apply Hself; vm_compute; congruence.
Defined.

Lemma parseName_loop_errors (data : list byte) (e : Error) :
  forall (fuel : nat) (offset oo : Z) (jumped : bool) (jc tl : Z),
    parseName_loop fuel data offset oo jumped jc tl = Some (Err e) ->
    scan_error e.
Proof.
  unfold scan_error.
  induction fuel as [|fuel IH]; intros offset oo jumped jc tl Hr;
    [discriminate|].
  rewrite parseName_loop_S in Hr.
  repeat match goal with
         | H : context [if ?c then _ else _] |- _ => destruct c
         end;
    try (injection Hr as <-; tauto); try discriminate Hr; eauto.
Qed.

Lemma parseName_errors (data : list byte) (offset : Z) (e : Error) :
  parseName data offset = Err e -> scan_error e.
Proof.
  unfold parseName.
  destruct (parseName_loop (name_fuel data) data offset offset false 0 0)
    as [r|] eqn:E.
  - intros ->. eapply parseName_loop_errors. eassumption.
  - intros [= <-]. unfold scan_error. tauto.
Qed.

(** ** Claim C1 *)

(** C1, as stated, fails: on the packet with [qd_count] = 0 [parse]
    returns [InvalidHeader] after it has stored [header], [id], [flags]
    and [is_query]. *)
Lemma parse_failure_writes_result :
  fst (parse true (Some no_question_packet) (Some blank_result))
    = InvalidHeader /\
  snd (parse true (Some no_question_packet) (Some blank_result))
    <> Some blank_result /\
  id blank_result = 0 /\
  (id <$> snd (parse true (Some no_question_packet) (Some blank_result)))
    = Some 0x1234.
Proof.
  split; [|split; [|split]]; try (vm_compute; congruence).
Qed.

(** C1, amended. On every failing path of [parse] the fields [qtype],
    [qclass], [total_consumed] and [question_end] of [*result] keep
    their pre-call values, and when the error is [PacketTooShort] or an
    argument is null no field at all is written. (The other failing
    paths return after [header], [id], [flags] and [is_query] have been
    stored, and past the [qd_count] test after [name_start] and
    [name_offset] as well, and [name_wire_len] once the name is
    scanned.) *)
Theorem parse_failure_fields_kept (host_le : bool)
    (data : option (list byte)) (result : option DNSParseResult) :
  fst (parse host_le data result) <> Success ->
  (fst (parse host_le data result) = PacketTooShort
   \/ data = None \/ result = None ->
   snd (parse host_le data result) = result) /\
  (qtype ∘ question <$> snd (parse host_le data result))
    = (qtype ∘ question <$> result) /\
  (qclass ∘ question <$> snd (parse host_le data result))
    = (qclass ∘ question <$> result) /\
  (total_consumed <$> snd (parse host_le data result))
    = (total_consumed <$> result) /\
  (question_end <$> snd (parse host_le data result))
    = (question_end <$> result).
Proof.
  destruct data as [d|], result as [r|]; simpl;
    try (intros _; repeat split; reflexivity).
  unfold parse_at.
  case_ltb (buf_len d) MIN_DNS_QUERY_SIZE.
  { intros _. repeat split; reflexivity. }
  case_eqb (getQDCount host_le d 0) 0.
  { simpl. intros _. repeat split; try reflexivity.
    intros [H|[H|H]]; discriminate H. }
  destruct (parseName d DNS_HEADER_SIZE) as [[name_end wire_len]|err] eqn:E.
  - destruct (name_end + 4 >? buf_len d); simpl.
    + intros _. repeat split; try reflexivity.
      intros [H|[H|H]]; discriminate H.
    + intros H. contradiction H. reflexivity.
  - simpl. intros Herr. repeat split; try reflexivity.
    intros [H|[H|H]]; try discriminate H.
    (* the name scan does not return PacketTooShort *)
    subst err. apply parseName_errors in E.
    destruct E as [E|[E|E]]; discriminate E.
Qed.

Lemma parse_failure_fields_kept_witness :
  (qtype ∘ question
     <$> snd (parse true (Some no_question_packet) (Some blank_result)))
    = Some 0 /\
  (question_end
     <$> snd (parse true (Some no_question_packet) (Some blank_result)))
    = Some 0 /\
  snd (parse true (Some (bytes_of [0x12; 0x34; 0x01])) (Some blank_result))
    = Some blank_result.
Proof.
  split; [|split].
  - apply (parse_failure_fields_kept true (Some no_question_packet)
             (Some blank_result)).
    vm_compute. congruence.
  - apply (parse_failure_fields_kept true (Some no_question_packet)
             (Some blank_result)).
    vm_compute. congruence.
  - apply (parse_failure_fields_kept true (Some (bytes_of [0x12; 0x34; 0x01]))
             (Some blank_result)).
    + vm_compute. congruence.
    + left. vm_compute. reflexivity.
Defined.

(** ** The trie lookup *)

Lemma or_else_assoc (a b c : option Rule) :
  or_else (or_else a b) c = or_else a (or_else b c).
Proof. destruct a; reflexivity. Qed.

Lemma last_wildcard_cons (node : TrieNode) (nodes : list TrieNode) :
  last_wildcard (node :: nodes)
    = or_else (last_wildcard nodes) (wildcard_rule node).
Proof.
  unfold last_wildcard. simpl.
  destruct (wildcard_rule node) as [w|]; simpl.
  - rewrite last_cons. destruct (list.last _); reflexivity.
  - destruct (list.last _); reflexivity.
Qed.

Lemma walked_path_unfold (node : TrieNode) (labels : list string) :
  exists rest, walked_path node labels = node :: rest.
Proof. destruct labels; simpl; eauto. Qed.

(** One step of the specified lookup, through an existing child. *)
Lemma spec_match_child (node child : TrieNode) (label : string)
    (rest : list string) :
  children node !! label = Some child ->
  spec_match node (label :: rest)
    = or_else (spec_match child rest) (wildcard_rule node).
Proof.
  intros Hc. unfold spec_match. simpl. rewrite Hc.
  destruct (walked_path_unfold child rest) as [tail Htail].
  destruct (reached_node child rest) as [final|].
  - rewrite Htail. rewrite <- Htail.
    replace (match walked_path child rest with
             | [] => []
             | _ :: _ => node :: removelast (walked_path child rest)
             end) with (node :: removelast (walked_path child rest))
      by (rewrite Htail; reflexivity).
    rewrite last_wildcard_cons, !or_else_assoc. reflexivity.
  - rewrite last_wildcard_cons. reflexivity.
Qed.

(** [matchImpl] refines the specified lookup: the loop started with a
    remembered wildcard [mw] returns the specified result, or [mw] when
    that is none. *)
Lemma matchImpl_loop_spec :
  forall (labels : list string) (node : TrieNode) (mw : option Rule),
    matchImpl_loop node labels mw = or_else (spec_match node labels) mw.
Proof.
  induction labels as [|label rest IH]; intros node mw.
  - unfold spec_match. simpl.
    destruct (exact_rule node), (wildcard_rule node); reflexivity.
  - simpl. destruct (children node !! label) as [child|] eqn:Hc.
    + rewrite IH, (spec_match_child _ _ _ _ Hc), or_else_assoc.
      destruct (wildcard_rule node); reflexivity.
    + unfold spec_match. simpl. rewrite Hc.
      rewrite last_wildcard_cons. reflexivity.
Qed.

Lemma matchImpl_spec (node : TrieNode) (labels : list string) :
  matchImpl node labels = spec_match node labels.
Proof.
  unfold matchImpl. rewrite matchImpl_loop_spec.
  destruct (spec_match node labels); reflexivity.
Qed.

(** ** Claim C2 *)

(** C2, as stated, fails for the empty domain string: after
    [insert(".")] the root holds an exact rule, the node reached by
    consuming the (no) labels of the empty string is the root, and
    [match] of the empty string returns none. *)
Lemma match_empty_domain_skips_root_rule :
  reached_node (root_ (insert empty_trie "." (Some rule_block)))
               (splitAndReverse (lowercase EmptyString))
    = Some (root_ (insert empty_trie "." (Some rule_block))) /\
  exact_rule (root_ (insert empty_trie "." (Some rule_block)))
    = Some rule_block /\
  spec_match (root_ (insert empty_trie "." (Some rule_block)))
             (splitAndReverse (lowercase EmptyString)) = Some rule_block /\
  match_ (insert empty_trie "." (Some rule_block)) EmptyString = None.
Proof. repeat split. Qed.

(** C2, amended. For every trie state and every non-empty domain string
    [d], [match(d)] returns the exact rule of the node reached by
    consuming all reversed labels of [d], if set; else that node's
    wildcard rule, if set; else the most recent wildcard rule of an
    ancestor on the walked path, which is also the result when a child
    is missing mid-walk; else none. So an exact rule at the reached node
    wins over any wildcard rule, and after inserting only "*.a.com",
    [match("b.com")] is none. For the empty string [match] returns none
    without a walk. *)
Theorem match_precedence (t : DomainTrie) (d : string) (r : Rule) :
  d <> EmptyString ->
  match_ t d = spec_match (root_ t) (splitAndReverse (lowercase d)) /\
  (forall (final : TrieNode) (e : Rule),
     reached_node (root_ t) (splitAndReverse (lowercase d)) = Some final ->
     exact_rule final = Some e ->
     match_ t d = Some e) /\
  match_ (insert empty_trie "*.a.com" (Some r)) "b.com" = None /\
  match_ t EmptyString = None.
Proof.
  intros Hd.
  assert (Hm : match_ t d
               = spec_match (root_ t) (splitAndReverse (lowercase d))).
  { unfold match_.
    destruct (String.eqb_spec d EmptyString); [contradiction|].
    apply matchImpl_spec. }
  split; [exact Hm|split; [|split]].
  - intros final e Hreach He. rewrite Hm. unfold spec_match.
    rewrite Hreach, He. reflexivity.
  - reflexivity.
  - reflexivity.
Qed.

Lemma match_precedence_witness :
  match_ (insert (insert empty_trie "*.example.com" (Some rule_log))
                 "blocked.example.com" (Some rule_block))
         "blocked.example.com" = Some rule_block.
Proof.
  eapply (proj1 (proj2 (match_precedence _ "blocked.example.com" rule_block
                          ltac:(discriminate)))).
  - vm_compute. reflexivity.
  - reflexivity.
Defined.

(** ** Claim C9 *)

Lemma tolower_toupper_char (c : ascii) :
  tolower_char (toupper_char c) = tolower_char c.
Proof.
  destruct c as [[] [] [] [] [] [] [] []]; reflexivity.
Qed.

Lemma lowercase_uppercase (d : string) :
  lowercase (uppercase d) = lowercase d.
Proof.
  induction d as [|c d IH]; simpl; [reflexivity|].
  rewrite tolower_toupper_char, IH. reflexivity.
Qed.

Lemma uppercase_empty (d : string) :
  String.eqb (uppercase d) EmptyString = String.eqb d EmptyString.
Proof. destruct d; reflexivity. Qed.

(** The walk along the labels of an exact rule just inserted ends at
    that rule. *)
Lemma matchImpl_insertImpl_exact (r : Rule) :
  forall (labels : list string) (node : TrieNode) (mw : option Rule),
    matchImpl_loop (insertImpl node labels false r) labels mw = Some r.
Proof.
  induction labels as [|label rest IH]; intros node mw; simpl.
  - reflexivity.
  - rewrite lookup_insert_eq. apply IH.
Qed.

Lemma match_insert_exact (t : DomainTrie) (dom d : string) (r : Rule) :
  dom <> EmptyString -> d <> EmptyString ->
  has_wildcard_prefix dom = false ->
  splitAndReverse (lowercase d) = splitAndReverse (lowercase dom) ->
  match_ (insert t dom (Some r)) d = Some r.
Proof.
  intros Hdom Hd Hw Hlabels. unfold match_, insert.
  destruct (String.eqb_spec dom EmptyString); [contradiction|].
  destruct (String.eqb_spec d EmptyString); [contradiction|].
  rewrite Hw, Hlabels. simpl root_.
  apply matchImpl_insertImpl_exact.
Qed.

(** C9. For every trie state and every domain string [d], [match(d)]
    returns the same rule as [match] of the ASCII-uppercased [d]; and
    after inserting "Example.COM" with a rule, [match] of "example.com",
    "EXAMPLE.COM" and "ExAmPlE.cOm" each return that rule. *)
Theorem match_case_insensitive (t : DomainTrie) (d : string) (r : Rule) :
  match_ t d = match_ t (uppercase d) /\
  match_ (insert t "Example.COM" (Some r)) "example.com" = Some r /\
  match_ (insert t "Example.COM" (Some r)) "EXAMPLE.COM" = Some r /\
  match_ (insert t "Example.COM" (Some r)) "ExAmPlE.cOm" = Some r.
Proof.
  split.
  - unfold match_. rewrite uppercase_empty, lowercase_uppercase.
    reflexivity.
  - repeat split; apply match_insert_exact;
      solve [discriminate | reflexivity].
Qed.

(** ** Claim C5 *)

(** C5 fails on the code: the domain "." passes the guard of [insert]
    (its length is 1), its label list is empty, and [insertImpl] stores
    the rule in the root and the count goes up. *)
Lemma insert_dot_stores_root_rule :
  splitAndReverse (lowercase ".") = [] /\
  size empty_trie = 0 /\
  size (insert empty_trie "." (Some rule_block)) = 1 /\
  match_ empty_trie "." = None /\
  match_ (insert empty_trie "." (Some rule_block)) "." = Some rule_block /\
  match_ (insert empty_trie "*.." (Some rule_block)) "example.com"
    = Some rule_block.
Proof. repeat split. Qed.

(** ** Stores into a buffer *)

Lemma store_length (off : Z) (bs buf : list byte) :
  0 <= off -> off + buf_len bs <= buf_len buf ->
  buf_len (store off bs buf) = buf_len buf.
Proof.
  unfold buf_len, store. intros Hoff Hfit.
  rewrite !length_app, length_firstn, length_skipn. lia.
Qed.

(** A store leaves the bytes outside of its range as they were. *)
Lemma byte_at_store_outside (off i : Z) (bs buf : list byte) :
  0 <= off -> 0 <= i -> off + buf_len bs <= buf_len buf ->
  i < off \/ off + buf_len bs <= i ->
  byte_at (store off bs buf) i = byte_at buf i.
Proof.
  unfold buf_len, store, byte_at. intros Hoff Hi Hfit Hout. f_equal.
  destruct Hout as [Hlt|Hge].
  - rewrite app_nth1 by (rewrite length_firstn; lia).
    rewrite nth_firstn.
    destruct (Nat.ltb_spec (Z.to_nat i) (Z.to_nat off)); [reflexivity|lia].
  - rewrite app_nth2 by (rewrite length_firstn; lia).
    rewrite app_nth2 by (rewrite length_firstn; lia).
    rewrite nth_skipn. f_equal. rewrite length_firstn. lia.
Qed.

Lemma memcpy_length (dst src : list byte) (n : Z) :
  0 <= n -> n <= buf_len src -> n <= buf_len dst ->
  buf_len (memcpy dst src n) = buf_len dst.
Proof.
  intros Hn Hsrc Hdst. unfold memcpy. apply store_length; [lia|].
  unfold buf_len in *. rewrite length_firstn. lia.
Qed.

(** [memcpy] puts the first [n] bytes of the source in place. *)
Lemma byte_at_memcpy (dst src : list byte) (n i : Z) :
  0 <= i < n -> n <= buf_len src ->
  byte_at (memcpy dst src n) i = byte_at src i.
Proof.
  unfold memcpy, store, byte_at, buf_len. intros Hi Hsrc. f_equal.
  change (Z.to_nat 0) with 0%nat. simpl firstn. simpl app.
  rewrite app_nth1 by (rewrite length_firstn; lia).
  rewrite nth_firstn.
  destruct (Nat.ltb_spec (Z.to_nat i) (Z.to_nat n)); [reflexivity|lia].
Qed.

Lemma bytes16_length (host_le : bool) (v : Z) :
  buf_len (bytes16 host_le v) = 2.
Proof. destruct host_le; reflexivity. Qed.

Lemma bytes32_length (host_le : bool) (v : Z) :
  buf_len (bytes32 host_le v) = 4.
Proof. destruct host_le; reflexivity. Qed.

Lemma store16_length (host_le : bool) (off v : Z) (buf : list byte) :
  0 <= off -> off + 2 <= buf_len buf ->
  buf_len (store16 host_le off v buf) = buf_len buf.
Proof.
  intros. apply store_length; rewrite ?bytes16_length; lia.
Qed.

Lemma store32_length (host_le : bool) (off v : Z) (buf : list byte) :
  0 <= off -> off + 4 <= buf_len buf ->
  buf_len (store32 host_le off v buf) = buf_len buf.
Proof.
  intros. apply store_length; rewrite ?bytes32_length; lia.
Qed.

Lemma byte_at_store16_outside (host_le : bool) (off v i : Z)
    (buf : list byte) :
  0 <= off -> 0 <= i -> off + 2 <= buf_len buf ->
  i < off \/ off + 2 <= i ->
  byte_at (store16 host_le off v buf) i = byte_at buf i.
Proof.
  intros. apply byte_at_store_outside; rewrite ?bytes16_length; lia.
Qed.

Lemma byte_at_store32_outside (host_le : bool) (off v i : Z)
    (buf : list byte) :
  0 <= off -> 0 <= i -> off + 4 <= buf_len buf ->
  i < off \/ off + 4 <= i ->
  byte_at (store32 host_le off v buf) i = byte_at buf i.
Proof.
  intros. apply byte_at_store_outside; rewrite ?bytes32_length; lia.
Qed.

(** ** What a successful parse stores *)

Lemma parse_at_success (host_le : bool) (data : list byte)
    (result parsed : DNSParseResult) :
  parse_at host_le data result = (Success, parsed) ->
  exists name_end wire_len : Z,
    parseName data DNS_HEADER_SIZE = Ok (name_end, wire_len) /\
    MIN_DNS_QUERY_SIZE <= buf_len data /\
    getQDCount host_le data 0 <> 0 /\
    name_end + 4 <= buf_len data /\
    parsed =
      {| header := Some 0;
         question :=
           {| name_start := Some DNS_HEADER_SIZE;
              name_offset := DNS_HEADER_SIZE;
              name_wire_len := wire_len;
              qtype := ntohs host_le (load16 host_le data name_end);
              qclass := ntohs host_le (load16 host_le data (name_end + 2)) |};
         total_consumed := name_end + 4;
         question_end := name_end + 4;
         id := getId host_le data 0;
         flags := getFlags host_le data 0;
         is_query := isQuery host_le data 0 |}.
Proof.
  unfold parse_at.
  case_ltb (buf_len data) MIN_DNS_QUERY_SIZE; [discriminate|].
  case_eqb (getQDCount host_le data 0) 0; [discriminate|].
  destruct (parseName data DNS_HEADER_SIZE) as [[name_end wire_len]|err] eqn:E.
  - flip_cmp. case_ltb (buf_len data) (name_end + 4); [discriminate|].
    intros [= <-]. exists name_end, wire_len. repeat split; assumption.
  - intros [= Herr _]. apply parseName_errors in E. subst err.
    destruct E as [E|[E|E]]; discriminate E.
Qed.

(** The end offset of a scanned name lies past its start and inside the
    packet. *)
Lemma parseName_loop_end (data : list byte) (start e w : Z) :
  forall (fuel : nat) (offset oo : Z) (jumped : bool) (jc tl : Z),
    parseName_loop fuel data offset oo jumped jc tl = Some (Ok (e, w)) ->
    (if jumped then start <= oo /\ oo + 2 <= buf_len data
     else start <= offset) ->
    start < e <= buf_len data.
Proof.
  induction fuel as [|fuel IH]; intros offset oo jumped jc tl Hr Hinv;
    [discriminate|].
  rewrite parseName_loop_S in Hr. flip_cmp.
  pose proof (byte_at_range data offset) as Hb.
  destruct (negb (jc <? MAX_LABELS)); [discriminate|].
  revert Hr. case_leb (buf_len data) offset; [discriminate|].
  case_eqb (byte_at data offset) 0.
  { intros [= <- _]. destruct jumped; simpl; lia. }
  destruct (Z.land (byte_at data offset) 192 =? 192).
  - case_leb (buf_len data) (offset + 1); [discriminate|].
    destruct (buf_len data <=? _); [discriminate|].
    intros Hr. apply IH in Hr; [assumption|].
    destruct jumped; simpl; lia.
  - destruct (MAX_LABEL_LENGTH <? byte_at data offset); [discriminate|].
    destruct (buf_len data <? offset + 1 + byte_at data offset);
      [discriminate|].
    intros Hr. apply IH in Hr; [assumption|].
    destruct jumped; simpl; lia.
Qed.

Lemma parseName_end (data : list byte) (offset e w : Z) :
  parseName data offset = Ok (e, w) -> offset < e <= buf_len data.
Proof.
  unfold parseName.
  destruct (parseName_loop (name_fuel data) data offset offset false 0 0)
    as [r|] eqn:E; [|discriminate].
  intros ->. eapply parseName_loop_end; [eassumption|]. simpl. lia.
Qed.

(** ** Claim C7 *)

(** C7. For every parsed query and each builder, with [answer_size] 0
    for NXDOMAIN and REFUSED, 16 for A and 28 for AAAA: when the
    capacity of the output buffer is less than [total_consumed +
    answer_size] the builder returns 0 and the buffer is as it was;
    otherwise it returns exactly [total_consumed + answer_size]. *)
Theorem builder_length (host_le : bool) (query : list byte)
    (result parsed : DNSParseResult) (ip ttl : Z) (ipv6 response : list byte) :
  parse_at host_le query result = (Success, parsed) ->
  (if buf_len response <? total_consumed parsed
   then buildNXDomain host_le query parsed response = Some (0, response) /\
        buildRefused host_le query parsed response = Some (0, response)
   else (exists out, buildNXDomain host_le query parsed response
                     = Some (total_consumed parsed, out)) /\
        (exists out, buildRefused host_le query parsed response
                     = Some (total_consumed parsed, out))) /\
  (if buf_len response <? total_consumed parsed + 16
   then buildAResponse host_le query parsed ip ttl response
        = Some (0, response)
   else exists out, buildAResponse host_le query parsed ip ttl response
                    = Some (total_consumed parsed + 16, out)) /\
  (if buf_len response <? total_consumed parsed + 28
   then buildAAAAResponse host_le query parsed ipv6 ttl response
        = Some (0, response)
   else exists out, buildAAAAResponse host_le query parsed ipv6 ttl response
                    = Some (total_consumed parsed + 28, out)).
Proof.
  intros Hparse.
  destruct (parse_at_success _ _ _ _ Hparse)
    as (name_end & wire_len & _ & _ & _ & _ & ->).
  unfold buildNXDomain, buildRefused, buildAResponse, buildAAAAResponse.
  cbn [total_consumed header].
  split; [|split].
  - destruct (buf_len response <? name_end + 4); split; eauto.
  - destruct (buf_len response <? name_end + 4 + 16); [reflexivity|].
    eexists. do 2 f_equal. lia.
  - destruct (buf_len response <? name_end + 4 + 28); [reflexivity|].
    eexists. do 2 f_equal. lia.
Qed.

Lemma builder_length_witness :
  (exists out, buildNXDomain true S1_packet
                 (snd (parse_at true S1_packet blank_result))
                 (repeat x00 512) = Some (33, out)) /\
  buildAResponse true S1_packet (snd (parse_at true S1_packet blank_result))
    (bswap32 0xC0A80164) 300 (repeat x00 48) = Some (0, repeat x00 48) /\
  (exists out, buildAResponse true S1_packet
                 (snd (parse_at true S1_packet blank_result))
                 (bswap32 0xC0A80164) 300 (repeat x00 49) = Some (49, out)).
Proof.
  split; [|split].
  - exact (proj1 (proj1 (builder_length true S1_packet blank_result
             (snd (parse_at true S1_packet blank_result)) 0 0 []
             (repeat x00 512) eq_refl))).
  - exact (proj1 (proj2 (builder_length true S1_packet blank_result
             (snd (parse_at true S1_packet blank_result))
             (bswap32 0xC0A80164) 300 [] (repeat x00 48) eq_refl))).
  - exact (proj1 (proj2 (builder_length true S1_packet blank_result
             (snd (parse_at true S1_packet blank_result))
             (bswap32 0xC0A80164) 300 [] (repeat x00 49) eq_refl))).
Defined.

(** ** Claim C4 *)

(** C4 fails on the code for the A and AAAA builders: they store [flags]
    and [an_count] only, so [ns_count] and [ar_count] are the bytes
    copied from the query. On the EDNS query, whose [ar_count] is 1, the
    A and AAAA responses carry [ar_count] = 1, while [buildNXDomain] and
    [buildRefused] store 0 in both counts. *)
Lemma a_response_keeps_ar_count :
  fst (parse_at true edns_query_packet blank_result) = Success /\
  header_count edns_query_packet off_ar_count = 1 /\
  (exists out,
     buildAResponse true edns_query_packet
       (snd (parse_at true edns_query_packet blank_result))
       (bswap32 0xC0A80164) 300 (repeat x00 512) = Some (49, out) /\
     header_count out off_ns_count = 0 /\
     header_count out off_ar_count = 1) /\
  (exists out,
     buildAAAAResponse true edns_query_packet
       (snd (parse_at true edns_query_packet blank_result))
       (repeat x01 16) 300 (repeat x00 512) = Some (61, out) /\
     header_count out off_ar_count = 1) /\
  (exists out,
     buildNXDomain true edns_query_packet
       (snd (parse_at true edns_query_packet blank_result))
       (repeat x00 512) = Some (33, out) /\
     header_count out off_ns_count = 0 /\
     header_count out off_ar_count = 0) /\
  (exists out,
     buildRefused true edns_query_packet
       (snd (parse_at true edns_query_packet blank_result))
       (repeat x00 512) = Some (33, out) /\
     header_count out off_ns_count = 0 /\
     header_count out off_ar_count = 0).
Proof.
  split; [reflexivity|]. split; [reflexivity|].
  repeat split; eexists; (split; [vm_compute; reflexivity|]);
    repeat split; vm_compute; reflexivity.
Qed.

(** ** Claim C10 *)

Lemma Error_eqb_eq (a b : Error) : Error_eqb a b = true <-> a = b.
Proof. destruct a, b; split; intros H; try reflexivity; discriminate H. Qed.

Lemma Error_eqb_Success (e : Error) :
  e <> Success -> negb (Error_eqb e Success) = true.
Proof.
  intros He. destruct (Error_eqb e Success) eqn:E; [|reflexivity].
  apply Error_eqb_eq in E. contradiction.
Qed.

(** C10. [xdp_dns_parse] returns the code of a parser error as it is, and
    the codes of the parser overlap the statuses of the facade: the
    packet with the label length 0x40 ([InvalidLabel], -5) and the
    well-formed response of S3 both return -5
    = [XDP_DNS_ERR_NOT_DNS_QUERY]; every packet of 12 to 16 bytes
    returns -1 ([PacketTooShort]), which is the value of
    [XDP_DNS_ERR_INVALID_PARAM] returned for a packet under 12 bytes or
    a null argument. *)
Theorem facade_status_overlap (host_le : bool) (parsed0 : DNSParseResult) :
  (forall (packet : list byte) (res : XDPDNSParseResult) (g : Counters),
     12 <= buf_len packet ->
     fst (parse_at host_le packet parsed0) <> Success ->
     status_of (xdp_dns_parse host_le parsed0 (Some packet) (Some res) g)
       = Error_to_int (fst (parse_at host_le packet parsed0))) /\
  (forall (res : XDPDNSParseResult) (g : Counters),
     fst (parse_at host_le invalid_label_packet parsed0) = InvalidLabel /\
     fst (parse_at host_le response_packet parsed0) = Success /\
     isResponse host_le response_packet 0 = true /\
     status_of (xdp_dns_parse host_le parsed0 (Some invalid_label_packet)
                              (Some res) g)
       = XDP_DNS_ERR_NOT_DNS_QUERY /\
     status_of (xdp_dns_parse host_le parsed0 (Some response_packet)
                              (Some res) g)
       = XDP_DNS_ERR_NOT_DNS_QUERY) /\
  (forall (packet : list byte) (res : XDPDNSParseResult) (g : Counters),
     12 <= buf_len packet <= 16 ->
     fst (parse_at host_le packet parsed0) = PacketTooShort /\
     status_of (xdp_dns_parse host_le parsed0 (Some packet) (Some res) g)
       = XDP_DNS_ERR_INVALID_PARAM) /\
  (forall (packet : list byte) (res : XDPDNSParseResult) (g : Counters),
     buf_len packet < 12 ->
     status_of (xdp_dns_parse host_le parsed0 (Some packet) (Some res) g)
       = XDP_DNS_ERR_INVALID_PARAM) /\
  Error_to_int InvalidLabel = XDP_DNS_ERR_NOT_DNS_QUERY /\
  Error_to_int PacketTooShort = XDP_DNS_ERR_INVALID_PARAM.
Proof.
  assert (Hprop : forall packet res g,
    12 <= buf_len packet ->
    fst (parse_at host_le packet parsed0) <> Success ->
    status_of (xdp_dns_parse host_le parsed0 (Some packet) (Some res) g)
      = Error_to_int (fst (parse_at host_le packet parsed0))).
  { intros packet res g Hlen Herr. unfold xdp_dns_parse.
    case_ltb (buf_len packet) 12; [lia|].
    destruct (parse_at host_le packet parsed0) as [err parsed].
    simpl in Herr |- *. rewrite (Error_eqb_Success _ Herr). reflexivity. }
  assert (Hshort : forall packet, 12 <= buf_len packet <= 16 ->
    fst (parse_at host_le packet parsed0) = PacketTooShort).
  { intros packet Hlen. unfold parse_at.
    case_ltb (buf_len packet) MIN_DNS_QUERY_SIZE; [reflexivity|].
    unfold MIN_DNS_QUERY_SIZE, DNS_HEADER_SIZE in *. lia. }
  split; [exact Hprop|]. split; [|split; [|split; [|split]]].
  - intros res g.
    assert (Hbad : fst (parse_at host_le invalid_label_packet parsed0)
                   = InvalidLabel)
      by (destruct host_le; vm_compute; reflexivity).
    split; [exact Hbad|].
    split; [destruct host_le; vm_compute; reflexivity|].
    split; [destruct host_le; vm_compute; reflexivity|].
    split.
    + rewrite Hprop; [rewrite Hbad; reflexivity|vm_compute; congruence|].
      rewrite Hbad. discriminate.
    + destruct host_le; vm_compute; reflexivity.
  - intros packet res g Hlen. split; [apply Hshort; assumption|].
    rewrite Hprop; [|lia|]; rewrite (Hshort _ Hlen);
      [reflexivity|discriminate].
  - intros packet res g Hlen. unfold xdp_dns_parse.
    case_ltb (buf_len packet) 12; [reflexivity|lia].
  - reflexivity.
  - reflexivity.
Qed.

Lemma facade_status_overlap_witness :
  status_of (xdp_dns_parse true blank_result (Some invalid_label_packet)
                           (Some blank_xresult) zero_counters) = -5 /\
  status_of (xdp_dns_parse true blank_result (Some short_packet)
                           (Some blank_xresult) zero_counters) = -1 /\
  status_of (xdp_dns_parse true blank_result (Some (bytes_of [0x12; 0x34]))
                           (Some blank_xresult) zero_counters) = -1.
Proof.
  destruct (facade_status_overlap true blank_result)
    as (Hprop & _ & Hshort & Hparam & _).
  split; [|split].
  - apply (Hprop invalid_label_packet blank_xresult zero_counters);
      vm_compute; congruence.
  - apply (Hshort short_packet blank_xresult zero_counters).
    vm_compute. split; congruence.
  - apply (Hparam (bytes_of [0x12; 0x34]) blank_xresult zero_counters).
    vm_compute. reflexivity.
Defined.

(** ** The scan and the name on the wire *)

Lemma prefix_scan_S (fuel : nat) (data : list byte) (offset : Z) :
  prefix_scan (S fuel) data offset =
    if offset >=? buf_len data then None
    else if byte_at data offset =? 0 then Some (0, EndZero)
    else if Z.land (byte_at data offset) 0xC0 =? 0xC0
    then Some (0, EndPointer)
    else if (byte_at data offset >? 63)
            || (offset + 1 + byte_at data offset >? buf_len data)
    then None
    else match prefix_scan fuel data (offset + 1 + byte_at data offset) with
         | Some (n, k) => Some (1 + byte_at data offset + n, k)
         | None => None
         end.
Proof. reflexivity. Qed.

(** The scan of a name without compression pointer: it ends one byte
    past the labels and has counted them and the terminating zero. *)
Lemma parseName_loop_plain (data : list byte) :
  forall (fuel : nat) (offset oo jc tl n : Z),
    prefix_scan fuel data offset = Some (n, EndZero) ->
    jc < MAX_LABELS ->
    parseName_loop fuel data offset oo false jc tl
      = Some (Ok (offset + n + 1, tl + n + 1)).
Proof.
  induction fuel as [|fuel IH]; intros offset oo jc tl n Hp Hjc;
    [discriminate|].
  rewrite prefix_scan_S in Hp. rewrite parseName_loop_S.
  unfold MAX_LABEL_LENGTH. revert Hp.
  case_ltb jc MAX_LABELS; [|lia]. simpl negb. cbv iota.
  destruct (offset >=? buf_len data); [discriminate|].
  destruct (byte_at data offset =? 0).
  { intros [= <-]. do 3 f_equal; lia. }
  destruct (Z.land (byte_at data offset) 192 =? 192); [discriminate|].
  destruct (byte_at data offset >? 63); [discriminate|].
  destruct (offset + 1 + byte_at data offset >? buf_len data);
    [discriminate|].
  simpl orb. cbv iota.
  destruct (prefix_scan fuel data (offset + 1 + byte_at data offset))
    as [[m k]|] eqn:E; [|discriminate].
  intros [= <- ->].
  rewrite (IH _ oo jc (tl + (1 + byte_at data offset)) m E Hjc).
  do 3 f_equal; lia.
Qed.

(** The count of the scan is the bytes of all labels of the walk, and
    one more. *)
Lemma parseName_loop_walk (data : list byte) (e w : Z) :
  forall (fuel : nat) (offset oo : Z) (jumped : bool) (jc tl : Z),
    parseName_loop fuel data offset oo jumped jc tl = Some (Ok (e, w)) ->
    exists labels : list Z,
      walk_labels fuel data offset jc = Some labels /\
      w = tl + label_bytes labels + 1.
Proof.
  induction fuel as [|fuel IH]; intros offset oo jumped jc tl Hr;
    [discriminate|].
  rewrite parseName_loop_S in Hr. simpl walk_labels.
  unfold MAX_LABEL_LENGTH in Hr. revert Hr. rewrite (Z.geb_leb jc).
  case_ltb jc MAX_LABELS; [|discriminate]. simpl negb. cbv iota.
  case_leb MAX_LABELS jc; [lia|]. simpl orb.
  destruct (offset >=? buf_len data); [discriminate|].
  destruct (byte_at data offset =? 0).
  { intros [= _ <-]. exists []. split; [reflexivity|].
    unfold label_bytes. simpl. lia. }
  destruct (Z.land (byte_at data offset) 192 =? 192).
  - destruct (offset + 1 >=? buf_len data); [discriminate|].
    destruct (_ >=? buf_len data); [discriminate|].
    simpl orb. cbv iota. intros Hr. apply IH in Hr. exact Hr.
  - destruct (byte_at data offset >? 63); [discriminate|].
    destruct (offset + 1 + byte_at data offset >? buf_len data);
      [discriminate|].
    simpl orb. cbv iota. intros Hr. apply IH in Hr.
    destruct Hr as (labels & Hw & ->). rewrite Hw.
    exists (byte_at data offset :: labels). split; [reflexivity|].
    unfold label_bytes. simpl. lia.
Qed.

(** ** Claim C3 *)

(** C3, as stated, fails for a name with a compression pointer: in the
    packet whose name is "www" and a pointer to "com", the original
    portion has 4 bytes and a pointer ends it, so the stated length is
    4 + 2 = 6; [parse] stores 9, the labels "www" and "com" and one
    byte. *)
Lemma wire_len_counts_labels_after_jump :
  fst (parse_at true compressed_query_packet blank_result) = Success /\
  name_prefix compressed_query_packet DNS_HEADER_SIZE
    = Some (4, EndPointer) /\
  spec_wire_len compressed_query_packet DNS_HEADER_SIZE = Some 6 /\
  name_wire_len
    (question (snd (parse_at true compressed_query_packet blank_result)))
    = 9.
Proof. repeat split. Qed.

(** C3, amended. For every packet on which [parse] succeeds,
    [name_wire_len] is the number of bytes of all labels met on the walk
    of the QNAME (length byte and contents), the labels reached after a
    jump included, plus 1; the two bytes of a pointer are never counted.
    When the QNAME holds no compression pointer this is the number of
    bytes of its original portion plus 1 for the terminating zero, and
    the question ends 4 bytes after them. *)
Theorem name_wire_len_counts_walked_labels (host_le : bool)
    (data : list byte) (result parsed : DNSParseResult) :
  parse_at host_le data result = (Success, parsed) ->
  (exists labels : list Z,
     walk_labels (name_fuel data) data DNS_HEADER_SIZE 0 = Some labels /\
     name_wire_len (question parsed) = label_bytes labels + 1) /\
  (forall n : Z,
     name_prefix data DNS_HEADER_SIZE = Some (n, EndZero) ->
     spec_wire_len data DNS_HEADER_SIZE
       = Some (name_wire_len (question parsed)) /\
     name_wire_len (question parsed) = n + 1 /\
     question_end parsed = DNS_HEADER_SIZE + (n + 1) + 4).
Proof.
  intros Hparse.
  destruct (parse_at_success _ _ _ _ Hparse)
    as (name_end & wire_len & Hscan & _ & _ & _ & ->).
  cbn [question name_wire_len question_end].
  split.
  - unfold parseName in Hscan.
    destruct (parseName_loop (name_fuel data) data DNS_HEADER_SIZE
                DNS_HEADER_SIZE false 0 0) as [r|] eqn:E; [|discriminate].
    subst r. apply parseName_loop_walk in E.
    destruct E as (labels & Hw & ->). exists labels. split; [exact Hw|lia].
  - intros n Hprefix.
    assert (Hplain : parseName data DNS_HEADER_SIZE
                     = Ok (DNS_HEADER_SIZE + n + 1, 0 + n + 1)).
    { eapply parseName_fuel; [|unfold DNS_HEADER_SIZE; lia].
      apply parseName_loop_plain; [exact Hprefix|reflexivity]. }
    rewrite Hscan in Hplain. injection Hplain as -> ->.
    unfold spec_wire_len. rewrite Hprefix.
    repeat split; try f_equal; lia.
Qed.

Lemma name_wire_len_counts_walked_labels_witness :
  (exists labels : list Z,
     walk_labels (name_fuel compressed_query_packet) compressed_query_packet
                 DNS_HEADER_SIZE 0 = Some labels /\
     name_wire_len
       (question (snd (parse_at true compressed_query_packet blank_result)))
       = label_bytes labels + 1) /\
  name_wire_len (question (snd (parse_at true S1_packet blank_result)))
    = 16 + 1.
Proof.
  split.
  - exact (proj1 (name_wire_len_counts_walked_labels true
             compressed_query_packet blank_result _ eq_refl)).
  - exact (proj1 (proj2 (proj2 (name_wire_len_counts_walked_labels true
             S1_packet blank_result _ eq_refl) 16 eq_refl))).
Defined.

(** ** The decoding loop *)

Lemma decodeName_loop_S (fuel : nat) (packet : list byte) (offset : Z)
    (out : list byte) (buf_size jc : Z) (first_label : bool) :
  decodeName_loop (S fuel) packet offset out buf_size jc first_label =
    if negb (jc <? MAX_LABELS) then Some (PointerLoop, out)
    else if offset >=? buf_len packet then Some (TruncatedMessage, out)
    else if byte_at packet offset =? 0 then Some (Success, out)
    else if Z.land (byte_at packet offset) 0xC0 =? 0xC0 then
      if offset + 1 >=? buf_len packet then Some (TruncatedMessage, out)
      else decodeName_loop fuel packet
             (Z.lor (Z.shiftl (Z.land (byte_at packet offset) 0x3F) 8)
                    (byte_at packet (offset + 1)))
             out buf_size (jc + 1) first_label
    else if negb first_label && (buf_len out >=? buf_size)
    then Some (BufferTooSmall, out)
    else if buf_len (if negb first_label then out ++ [to_u8 46] else out)
            + byte_at packet offset >? buf_size
    then Some (BufferTooSmall,
               if negb first_label then out ++ [to_u8 46] else out)
    else decodeName_loop fuel packet (offset + 1 + byte_at packet offset)
           ((if negb first_label then out ++ [to_u8 46] else out)
              ++ lower_label packet (offset + 1) (byte_at packet offset))
           buf_size jc false.
Proof. reflexivity. Qed.

Lemma decodeName_loop_total (packet : list byte) (buf_size : Z) :
  forall (fuel : nat) (offset : Z) (out : list byte) (jc : Z)
         (first_label : bool),
    jc <= MAX_LABELS ->
    turns_left packet offset jc <= Z.of_nat fuel ->
    decodeName_loop fuel packet offset out buf_size jc first_label <> None.
Proof.
  induction fuel as [|fuel IH]; intros offset out jc first_label Hle Hfuel.
  - pose proof (turns_left_pos packet offset jc Hle). lia.
  - rewrite decodeName_loop_S. flip_cmp.
    pose proof (byte_at_range packet offset) as Hb.
    case_ltb jc MAX_LABELS; simpl negb; cbv iota; [|discriminate].
    case_leb (buf_len packet) offset; [discriminate|].
    case_eqb (byte_at packet offset) 0; [discriminate|].
    destruct (Z.land (byte_at packet offset) 192 =? 192).
    + case_leb (buf_len packet) (offset + 1); [discriminate|].
      apply IH; [lia|].
      pose proof (turns_left_jump packet offset _ jc Hcmp Hcmp0
                    (pointer_target_nonneg packet offset)). lia.
    + destruct (negb first_label && _); [discriminate|].
      destruct (buf_size <? _); [discriminate|].
      apply IH; [lia|].
      pose proof (turns_left_label packet offset
                    (1 + byte_at packet offset) jc).
      replace (offset + 1 + byte_at packet offset)
        with (offset + (1 + byte_at packet offset)) by lia.
      lia.
Qed.

Lemma decodeName_loop_mono (packet : list byte) (buf_size : Z)
    (r : Error * list byte) :
  forall (fuel fuel' : nat) (offset : Z) (out : list byte) (jc : Z)
         (first_label : bool),
    decodeName_loop fuel packet offset out buf_size jc first_label = Some r ->
    (fuel <= fuel')%nat ->
    decodeName_loop fuel' packet offset out buf_size jc first_label = Some r.
Proof.
  induction fuel as [|fuel IH]; intros fuel' offset out jc first_label Hr Hle;
    [discriminate|].
  destruct fuel' as [|fuel']; [lia|].
  rewrite decodeName_loop_S in Hr |- *.
  destruct (negb (jc <? MAX_LABELS)); [assumption|].
  destruct (offset >=? buf_len packet); [assumption|].
  destruct (byte_at packet offset =? 0); [assumption|].
  destruct (Z.land (byte_at packet offset) 192 =? 192).
  - destruct (offset + 1 >=? buf_len packet); [assumption|].
    apply IH; [assumption|lia].
  - destruct (negb first_label && _); [assumption|].
    destruct (_ >? buf_size); [assumption|].
    apply IH; [assumption|lia].
Qed.

(** [decodeName] is the loop run with any amount of fuel that leaves
    it. *)
Lemma decodeName_fuel (packet : list byte) (offset buf_size : Z)
    (fuel : nat) (r : Error * list byte) :
  decodeName_loop fuel packet offset [] buf_size 0 true = Some r ->
  0 <= offset ->
  decodeName packet offset buf_size = r.
Proof.
  intros Hr Hoff. unfold decodeName.
  destruct (decodeName_loop (name_fuel packet) packet offset [] buf_size
              0 true) as [r'|] eqn:E.
  - destruct (Nat.le_ge_cases fuel (name_fuel packet)) as [Hle|Hle].
    + rewrite (decodeName_loop_mono _ _ _ _ _ _ _ _ _ Hr Hle) in E.
      congruence.
    + rewrite (decodeName_loop_mono _ _ _ _ _ _ _ _ _ E Hle) in Hr.
      congruence.
  - exfalso. revert E. apply decodeName_loop_total.
    + unfold MAX_LABELS. lia.
    + apply name_fuel_enough. assumption.
Qed.

(** ** Names without compression pointer depend on their own bytes *)

Lemma prefix_scan_nonneg (data : list byte) :
  forall (fuel : nat) (offset n : Z) (k : prefix_end),
    prefix_scan fuel data offset = Some (n, k) -> 0 <= n.
Proof.
  induction fuel as [|fuel IH]; intros offset n k Hp; [discriminate|].
  rewrite prefix_scan_S in Hp.
  pose proof (byte_at_range data offset) as Hb.
  repeat match goal with
         | H : context [if ?c then _ else _] |- _ => destruct c
         end; try discriminate Hp; try (injection Hp as <- _; lia).
  destruct (prefix_scan fuel data _) as [[m k']|] eqn:E; [|discriminate].
  injection Hp as <- _. apply IH in E. lia.
Qed.

(** A buffer that agrees with [data] on the bytes of a pointer-free name
    and holds all of them carries the same name. *)
Lemma prefix_scan_local (data data' : list byte) :
  forall (fuel : nat) (offset n : Z),
    prefix_scan fuel data offset = Some (n, EndZero) ->
    (forall i, offset <= i < offset + n + 1 ->
               byte_at data' i = byte_at data i) ->
    offset + n + 1 <= buf_len data' ->
    prefix_scan fuel data' offset = Some (n, EndZero).
Proof.
  induction fuel as [|fuel IH]; intros offset n Hp Hagree Hfit;
    [discriminate|].
  pose proof (prefix_scan_nonneg _ _ _ _ _ Hp) as Hn.
  rewrite prefix_scan_S in Hp |- *.
  rewrite (Hagree offset) by lia. flip_cmp. revert Hp.
  pose proof (byte_at_range data offset) as Hb.
  case_leb (buf_len data) offset; [discriminate|].
  case_leb (buf_len data') offset; [lia|].
  case_eqb (byte_at data offset) 0; [trivial|].
  destruct (Z.land (byte_at data offset) 192 =? 192); [trivial|].
  case_ltb 63 (byte_at data offset); [discriminate|].
  case_ltb (buf_len data) (offset + 1 + byte_at data offset);
    [discriminate|].
  simpl orb. cbv iota.
  destruct (prefix_scan fuel data (offset + 1 + byte_at data offset))
    as [[m k]|] eqn:E; [|discriminate].
  intros [= <- ->].
  pose proof (prefix_scan_nonneg _ _ _ _ _ E) as Hm.
  case_ltb (buf_len data') (offset + 1 + byte_at data offset); [lia|].
  rewrite (IH _ m E); [reflexivity| |lia].
  intros i Hi. apply Hagree. lia.
Qed.

Lemma lower_label_agree (data data' : list byte) (offset n : Z) :
  0 <= offset ->
  (forall i, offset <= i < offset + n -> byte_at data' i = byte_at data i) ->
  lower_label data' offset n = lower_label data offset n.
Proof.
  intros Hoff Hagree. unfold lower_label. apply map_ext_in.
  intros i Hi. apply in_seq in Hi. rewrite Hagree by lia. reflexivity.
Qed.

(** Decoding a pointer-free name reads its bytes only, and comes to an
    end. *)
Lemma decodeName_loop_local (data data' : list byte) (buf_size : Z) :
  forall (fuel : nat) (offset n : Z) (out : list byte) (jc : Z)
         (first_label : bool),
    prefix_scan fuel data offset = Some (n, EndZero) ->
    0 <= offset ->
    (forall i, offset <= i < offset + n + 1 ->
               byte_at data' i = byte_at data i) ->
    offset + n + 1 <= buf_len data' ->
    jc < MAX_LABELS ->
    exists r : Error * list byte,
      decodeName_loop fuel data offset out buf_size jc first_label = Some r /\
      decodeName_loop fuel data' offset out buf_size jc first_label = Some r.
Proof.
  induction fuel as [|fuel IH];
    intros offset n out jc first_label Hp Hoff Hagree Hfit Hjc;
    [discriminate|].
  pose proof (prefix_scan_nonneg _ _ _ _ _ Hp) as Hn.
  rewrite prefix_scan_S in Hp. rewrite !decodeName_loop_S.
  rewrite (Hagree offset) by lia. flip_cmp. revert Hp.
  pose proof (byte_at_range data offset) as Hb.
  case_ltb jc MAX_LABELS; [|lia]. simpl negb. cbv iota.
  case_leb (buf_len data) offset; [discriminate|].
  case_leb (buf_len data') offset; [lia|].
  case_eqb (byte_at data offset) 0; [eauto|].
  destruct (Z.land (byte_at data offset) 192 =? 192); [discriminate|].
  case_ltb 63 (byte_at data offset); [discriminate|].
  case_ltb (buf_len data) (offset + 1 + byte_at data offset);
    [discriminate|].
  simpl orb. cbv iota.
  destruct (prefix_scan fuel data (offset + 1 + byte_at data offset))
    as [[m k]|] eqn:E; [|discriminate].
  intros [= <- ->].
  pose proof (prefix_scan_nonneg _ _ _ _ _ E) as Hm.
  destruct (negb first_label && _); [eauto|].
  destruct (buf_size <? _); [eauto|].
  rewrite (lower_label_agree data data')
    by (try lia; intros; apply Hagree; lia).
  apply (IH _ m); try assumption; try lia.
  intros i Hi. apply Hagree. lia.
Qed.

(** ** The output of [buildAResponse] *)

Lemma carries_question_memcpy (query response : list byte) (tc : Z) :
  12 <= tc <= buf_len query -> tc <= buf_len response ->
  carries_question query tc (buf_len response) (memcpy response query tc).
Proof.
  intros Htc Hcap. split.
  - apply memcpy_length; lia.
  - intros i Hi. apply byte_at_memcpy; lia.
Qed.

(** A store into [flags], into [an_count] or past the question keeps
    the question. *)
Lemma carries_question_store (query : list byte) (tc cap off : Z)
    (bs buf : list byte) :
  carries_question query tc cap buf ->
  12 <= tc -> 0 <= off -> off + buf_len bs <= cap ->
  off + buf_len bs <= 4 \/ (6 <= off /\ off + buf_len bs <= 8) \/ tc <= off ->
  carries_question query tc cap (store off bs buf).
Proof.
  intros [Hlen Hbytes] Htc Hoff Hfit Hout. split.
  - rewrite store_length; lia.
  - intros i Hi. rewrite byte_at_store_outside by lia.
    apply Hbytes. exact Hi.
Qed.

Lemma buf_len_single (b : byte) : buf_len [b] = 1.
Proof. reflexivity. Qed.

Lemma buildAResponse_output (host_le : bool) (query : list byte)
    (parsed : DNSParseResult) (ip ttl : Z) (response : list byte) :
  header parsed = Some 0 ->
  12 <= total_consumed parsed <= buf_len query ->
  total_consumed parsed + 16 <= buf_len response ->
  exists out : list byte,
    buildAResponse host_le query parsed ip ttl response
      = Some (total_consumed parsed + 16, out) /\
    carries_question query (total_consumed parsed) (buf_len response) out.
Proof.
  intros Hhdr Htc Hcap. unfold buildAResponse. rewrite Hhdr.
  case_ltb (buf_len response) (total_consumed parsed + 16); [lia|].
  eexists. split; [do 2 f_equal; lia|].
  unfold store16, store32, off_flags, off_an_count.
  repeat (apply carries_question_store;
          [ | lia | lia
            | rewrite ?bytes16_length, ?bytes32_length, ?buf_len_single; lia
            | rewrite ?bytes16_length, ?bytes32_length, ?buf_len_single; lia
          ]).
  apply carries_question_memcpy; lia.
Qed.

Lemma datagram_length (n : Z) (out : list byte) :
  0 <= n <= buf_len out -> buf_len (datagram n out) = n.
Proof.
  unfold datagram, buf_len. intros Hn. rewrite length_firstn. lia.
Qed.

Lemma byte_at_datagram (n i : Z) (out : list byte) :
  0 <= i < n -> byte_at (datagram n out) i = byte_at out i.
Proof.
  unfold datagram, byte_at. intros Hi. rewrite nth_firstn.
  destruct (Nat.ltb_spec (Z.to_nat i) (Z.to_nat n)); [reflexivity|lia].
Qed.

Lemma load16_agree (host_le : bool) (data data' : list byte) (off : Z) :
  byte_at data' off = byte_at data off ->
  byte_at data' (off + 1) = byte_at data (off + 1) ->
  load16 host_le data' off = load16 host_le data off.
Proof. unfold load16. intros -> ->. reflexivity. Qed.

(** ** Claim C8 *)

(** C8, as stated, fails for a QNAME with a compression pointer. The
    query whose name is "www" and a pointer to offset 22 parses (name
    www.com); [buildAResponse] copies its first 22 bytes and writes the
    answer at offset 22, so that in the response the pointer leads to
    the answer's own pointer C0 0C and back to offset 12: [parse]
    returns [PointerLoop]. *)
Lemma a_response_of_compressed_query_loops :
  fst (parse_at true compressed_query_packet blank_result) = Success /\
  decodeName compressed_query_packet 12 256
    = (Success, bytes_of [0x77; 0x77; 0x77; 0x2E; 0x63; 0x6f; 0x6d]) /\
  exists out : list byte,
    buildAResponse true compressed_query_packet
      (snd (parse_at true compressed_query_packet blank_result))
      (bswap32 0xC0A80164) 300 (repeat x00 512) = Some (38, out) /\
    fst (parse_at true (datagram 38 out) blank_result) = PointerLoop.
Proof.
  split; [reflexivity|]. split; [vm_compute; reflexivity|].
  eexists. split; vm_compute; reflexivity.
Qed.

(** C8, amended. For every query Q that parses successfully and whose
    QNAME holds no compression pointer, every ip and ttl and every
    buffer with room for [total_consumed + 16] bytes: [buildAResponse]
    produces a datagram of [total_consumed + 16] bytes, parsing it
    succeeds, and it yields the same qtype, the same qclass and, for
    every size of the name buffer, the same decoded qname as Q. *)
Theorem a_response_round_trip (host_le : bool) (query : list byte)
    (result result' parsed : DNSParseResult) (ip ttl : Z)
    (response : list byte) (n : Z) :
  parse_at host_le query result = (Success, parsed) ->
  name_prefix query DNS_HEADER_SIZE = Some (n, EndZero) ->
  total_consumed parsed + 16 <= buf_len response ->
  exists (out : list byte) (parsed' : DNSParseResult),
    buildAResponse host_le query parsed ip ttl response
      = Some (total_consumed parsed + 16, out) /\
    parse_at host_le (datagram (total_consumed parsed + 16) out) result'
      = (Success, parsed') /\
    qtype (question parsed') = qtype (question parsed) /\
    qclass (question parsed') = qclass (question parsed) /\
    forall buf_size : Z,
      decodeName (datagram (total_consumed parsed + 16) out)
                 (name_offset (question parsed')) buf_size
      = decodeName query (name_offset (question parsed)) buf_size.
Proof.
  intros Hparse Hprefix Hcap.
  destruct (parse_at_success _ _ _ _ Hparse)
    as (name_end & wire_len & Hscan & Hmin & Hqd & Hfit & Hparsed).
  pose proof (prefix_scan_nonneg _ _ _ _ _ Hprefix) as Hn.
  (* the name ends one byte past its labels *)
  assert (Hplain : parseName query DNS_HEADER_SIZE
                   = Ok (DNS_HEADER_SIZE + n + 1, 0 + n + 1)).
  { eapply parseName_fuel; [|unfold DNS_HEADER_SIZE; lia].
    apply parseName_loop_plain; [exact Hprefix|reflexivity]. }
  rewrite Hscan in Hplain. injection Hplain as Hend Hwire.
  assert (Htc : total_consumed parsed = name_end + 4)
    by (rewrite Hparsed; reflexivity).
  assert (Hhdr : header parsed = Some 0) by (rewrite Hparsed; reflexivity).
  unfold DNS_HEADER_SIZE, MIN_DNS_QUERY_SIZE in *.
  destruct (buildAResponse_output host_le query parsed ip ttl response
              Hhdr ltac:(lia) Hcap) as (out & Hbuild & Hlen & Hbytes).
  set (tc := total_consumed parsed) in *.
  set (R := datagram (tc + 16) out).
  assert (HlenR : buf_len R = tc + 16)
    by (apply datagram_length; lia).
  assert (HR : forall i, 4 <= i < 6 \/ 8 <= i < tc ->
                         byte_at R i = byte_at query i).
  { intros i Hi. unfold R. rewrite byte_at_datagram by lia.
    apply Hbytes. exact Hi. }
  (* the response carries the same pointer-free name *)
  assert (HprefixR : prefix_scan (length query) R 12 = Some (n, EndZero)).
  { apply (prefix_scan_local query); [exact Hprefix| |lia].
    intros i Hi. apply HR. lia. }
  assert (HscanR : parseName R 12 = Ok (name_end, wire_len)).
  { eapply parseName_fuel; [|lia].
    rewrite (parseName_loop_plain R _ 12 12 0 0 n HprefixR);
      [|reflexivity].
    do 3 f_equal; lia. }
  assert (Hqtype : load16 host_le R name_end = load16 host_le query name_end)
    by (apply load16_agree; apply HR; lia).
  assert (Hqclass : load16 host_le R (name_end + 2)
                    = load16 host_le query (name_end + 2))
    by (apply load16_agree; apply HR; lia).
  assert (HqdR : getQDCount host_le R 0 = getQDCount host_le query 0).
  { unfold getQDCount, off_qd_count. f_equal.
    apply load16_agree; apply HR; lia. }
  exists out. eexists. fold R. split; [exact Hbuild|].
  split; [|split; [|split]].
  - unfold parse_at.
    case_ltb (buf_len R) MIN_DNS_QUERY_SIZE;
      [unfold MIN_DNS_QUERY_SIZE, DNS_HEADER_SIZE in *; lia|].
    rewrite HqdR.
    case_eqb (getQDCount host_le query 0) 0; [contradiction|].
    change DNS_HEADER_SIZE with 12. rewrite HscanR. flip_cmp.
    case_ltb (buf_len R) (name_end + 4); [lia|].
    reflexivity.
  - rewrite Hparsed. cbn [question qtype upd_question set_question
      set_total_consumed set_question_end set_qtype set_qclass].
    rewrite Hqtype. reflexivity.
  - rewrite Hparsed. cbn [question qclass upd_question set_question
      set_total_consumed set_question_end set_qtype set_qclass].
    rewrite Hqclass. reflexivity.
  - intros buf_size. rewrite Hparsed.
    cbn [question name_offset upd_question set_question
      set_total_consumed set_question_end set_qtype set_qclass
      set_name_wire_len set_name_offset set_name_start set_header set_id
      set_flags set_is_query].
    change DNS_HEADER_SIZE with 12.
    destruct (decodeName_loop_local query R buf_size (length query) 12 n
                [] 0 true Hprefix ltac:(lia)) as (r & Hq & Hr).
    + intros i Hi. apply HR. lia.
    + lia.
    + reflexivity.
    + rewrite (decodeName_fuel _ _ _ _ _ Hq) by lia.
      rewrite (decodeName_fuel _ _ _ _ _ Hr) by lia.
      reflexivity.
Qed.

Lemma a_response_round_trip_witness :
  exists (out : list byte) (parsed' : DNSParseResult),
    buildAResponse true S1_packet (snd (parse_at true S1_packet blank_result))
      (bswap32 0xC0A80164) 300 (repeat x00 64) = Some (33 + 16, out) /\
    parse_at true (datagram (33 + 16) out) blank_result
      = (Success, parsed') /\
    qtype (question parsed') = 1 /\
    qclass (question parsed') = 1 /\
    forall buf_size : Z,
      decodeName (datagram (33 + 16) out) (name_offset (question parsed'))
                 buf_size
      = decodeName S1_packet 12 buf_size.
Proof.
  exact (a_response_round_trip true S1_packet blank_result blank_result
           (snd (parse_at true S1_packet blank_result))
           (bswap32 0xC0A80164) 300 (repeat x00 64) 16
           eq_refl eq_refl ltac:(vm_compute; congruence)).
Defined.

(** For every parsed query the A response carries the [ns_count] and
    the [ar_count] of the query: the general form of the evaluation
    above. *)
Lemma buildAResponse_copies_counts (host_le : bool) (query : list byte)
    (result parsed : DNSParseResult) (ip ttl : Z) (response : list byte) :
  parse_at host_le query result = (Success, parsed) ->
  total_consumed parsed + 16 <= buf_len response ->
  exists out : list byte,
    buildAResponse host_le query parsed ip ttl response
      = Some (total_consumed parsed + 16, out) /\
    header_count out off_ns_count = header_count query off_ns_count /\
    header_count out off_ar_count = header_count query off_ar_count.
Proof.
  intros Hparse Hcap.
  destruct (parse_at_success _ _ _ _ Hparse)
    as (name_end & wire_len & Hscan & _ & _ & Hfit & Hparsed).
  apply parseName_end in Hscan. unfold DNS_HEADER_SIZE in Hscan.
  assert (Htc : total_consumed parsed = name_end + 4)
    by (rewrite Hparsed; reflexivity).
  assert (Hhdr : header parsed = Some 0) by (rewrite Hparsed; reflexivity).
  destruct (buildAResponse_output host_le query parsed ip ttl response
              Hhdr ltac:(lia) Hcap) as (out & Hbuild & _ & Hbytes).
  exists out. split; [exact Hbuild|].
  unfold header_count, off_ns_count, off_ar_count.
  rewrite !Hbytes by lia. split; reflexivity.
Qed.

(** ** The scenarios of the specification and the tests of the
    repository, run on the embedding *)

Example scenario_S1_parse :
  parse_at true S1_packet blank_result =
    (Success,
     {| header := Some 0;
        question := {| name_start := Some 12; name_offset := 12;
                       name_wire_len := 17; qtype := 1; qclass := 1 |};
        total_consumed := 33; question_end := 33;
        id := 0x1234; flags := 0x0100; is_query := true |}) /\
  decodeName S1_packet 12 256
    = (Success, bytes_of [0x77; 0x77; 0x77; 0x2E; 0x65; 0x78; 0x61; 0x6d;
                          0x70; 0x6c; 0x65; 0x2E; 0x63; 0x6f; 0x6d]).
Proof. split; vm_compute; reflexivity. Qed.

Example scenario_S2_nxdomain :
  exists out : list byte,
    buildNXDomain true S1_packet (snd (parse_at true S1_packet blank_result))
                  (repeat x00 512) = Some (33, out) /\
    Z.testbit (byte_at out 2) 7 = true /\
    Z.land (byte_at out 3) 0x0F = 3 /\
    header_count out off_an_count = 0.
Proof.
  eexists. split; [vm_compute; reflexivity|].
  split; [|split]; vm_compute; reflexivity.
Qed.

Example scenario_S3_a_response :
  exists out : list byte,
    buildAResponse true S1_packet (snd (parse_at true S1_packet blank_result))
                   (bswap32 0xC0A80164) 300 (repeat x00 512)
      = Some (49, out) /\
    skipn 33 (datagram 49 out)
      = bytes_of [0xC0; 0x0C; 0x00; 0x01; 0x00; 0x01; 0x00; 0x00; 0x01; 0x2C;
                  0x00; 0x04; 0xC0; 0xA8; 0x01; 0x64] /\
    buildAResponse false S1_packet
                   (snd (parse_at false S1_packet blank_result))
                   0xC0A80164 300 (repeat x00 512)
      = Some (49, out).
Proof.
  eexists. split; [vm_compute; reflexivity|].
  split; vm_compute; reflexivity.
Qed.

Example scenario_S4_wildcard_precedence :
  match_ S4_trie "blocked.example.com" = Some rule_block /\
  match_ S4_trie "other.example.com" = Some rule_log /\
  match_ S4_trie "example.com" = Some rule_log /\
  match_ S4_trie "other.com" = None.
Proof. repeat split. Qed.

Example test_ExactMatch :
  match_ (insert empty_trie "example.com" (Some rule_block)) "example.com"
    = Some rule_block /\
  match_ (insert empty_trie "example.com" (Some rule_block))
         "sub.example.com" = None /\
  match_ (insert empty_trie "example.com" (Some rule_block)) "other.com"
    = None.
Proof. repeat split. Qed.

Example test_EmptyDomain :
  size (insert empty_trie EmptyString (Some rule_block)) = 0 /\
  match_ (insert empty_trie EmptyString (Some rule_block)) EmptyString
    = None.
Proof. repeat split. Qed.

(** * Further properties of the code *)

(** ** Byte order *)

Lemma lor_shiftl_low (hi lo k : Z) :
  0 <= k -> 0 <= lo < 2 ^ k ->
  Z.lor (Z.shiftl hi k) lo = hi * 2 ^ k + lo.
Proof.
  intros Hk Hlo.
  assert (Hdisj : Z.land (Z.shiftl hi k) lo = 0).
  { apply Z.bits_inj'. intros n Hn.
    rewrite Z.land_spec, Z.bits_0.
    destruct (Z.lt_ge_cases n k) as [Hlt|Hge].
    - rewrite Z.shiftl_spec_low by assumption. reflexivity.
    - destruct (Z.eq_dec lo 0) as [->|Hnz].
      { rewrite Z.bits_0. apply andb_false_r. }
      rewrite (Z.bits_above_log2 lo n); [apply andb_false_r|lia|].
      apply Z.log2_lt_pow2; [lia|].
      apply Z.lt_le_trans with (2 ^ k); [lia|].
      apply Z.pow_le_mono_r; lia. }
  rewrite <- Z.lxor_lor by assumption.
  rewrite <- Z.add_nocarry_lxor by assumption.
  rewrite Z.shiftl_mul_pow2 by assumption. reflexivity.
Qed.

Lemma land_255 (x : Z) : Z.land x 255 = x mod 256.
Proof. change 255 with (Z.ones 8). rewrite Z.land_ones by lia. reflexivity. Qed.

Lemma shiftr_div (x k : Z) : 0 <= k -> Z.shiftr x k = x / 2 ^ k.
Proof. intros. apply Z.shiftr_div_pow2. assumption. Qed.

Lemma bswap16_value (n : Z) :
  bswap16 n = 256 * (n mod 256) + (n / 256) mod 256.
Proof.
  unfold bswap16. rewrite !land_255, (shiftr_div n 8) by lia.
  rewrite lor_shiftl_low; [|lia|].
  - change (2 ^ 8) with 256. lia.
  - change (2 ^ 8) with 256. apply Z.mod_pos_bound. lia.
Qed.

Lemma lor_mul_low (hi lo k : Z) :
  0 <= k -> 0 <= lo < 2 ^ k -> Z.lor (hi * 2 ^ k) lo = hi * 2 ^ k + lo.
Proof.
  intros Hk Hlo. rewrite <- Z.shiftl_mul_pow2 by assumption.
  rewrite lor_shiftl_low by assumption.
  rewrite Z.shiftl_mul_pow2 by assumption. reflexivity.
Qed.

Lemma bswap32_value (n : Z) :
  bswap32 n = 16777216 * (n mod 256) + 65536 * ((n / 256) mod 256)
              + 256 * ((n / 65536) mod 256) + (n / 16777216) mod 256.
Proof.
  unfold bswap32.
  rewrite !land_255, (shiftr_div n 8), (shiftr_div n 16), (shiftr_div n 24)
    by lia.
  rewrite !Z.shiftl_mul_pow2 by lia.
  change (2 ^ 8) with 256. change (2 ^ 16) with 65536.
  change (2 ^ 24) with 16777216.
  set (a := n mod 256). set (b := (n / 256) mod 256).
  set (c := (n / 65536) mod 256). set (d := (n / 16777216) mod 256).
  assert (0 <= a < 256) by (apply Z.mod_pos_bound; lia).
  assert (0 <= b < 256) by (apply Z.mod_pos_bound; lia).
  assert (0 <= c < 256) by (apply Z.mod_pos_bound; lia).
  assert (0 <= d < 256) by (apply Z.mod_pos_bound; lia).
  change (Z.lor (c * 256) d) with (Z.lor (c * 2 ^ 8) d).
  rewrite (lor_mul_low c d 8) by (change (2 ^ 8) with 256; lia).
  change (Z.lor (a * 16777216) (b * 65536))
    with (Z.lor (a * 2 ^ 24) (b * 65536)).
  rewrite (lor_mul_low a (b * 65536) 24)
    by (change (2 ^ 24) with 16777216; lia).
  change (2 ^ 24) with 16777216. change (2 ^ 8) with 256.
  replace (a * 16777216 + b * 65536) with ((a * 256 + b) * 2 ^ 16)
    by (change (2 ^ 16) with 65536; lia).
  rewrite lor_mul_low by (change (2 ^ 16) with 65536; lia).
  change (2 ^ 16) with 65536. lia.
Qed.

Lemma to_u8_mod (x y : Z) : x mod 256 = y mod 256 -> to_u8 x = to_u8 y.
Proof. unfold to_u8. intros ->. reflexivity. Qed.

(** Reading a 16-bit field and converting it to host order gives the
    big-endian value, whatever the host. *)
Lemma ntohs_load16 (host_le : bool) (data : list byte) (off : Z) :
  ntohs host_le (load16 host_le data off) = be16 data off.
Proof.
  pose proof (byte_at_range data off) as H0.
  pose proof (byte_at_range data (off + 1)) as H1.
  unfold ntohs, load16, be16. destruct host_le.
  - rewrite Z.lor_comm, (lor_shiftl_low _ _ 8)
      by (change (2 ^ 8) with 256; lia).
    change (2 ^ 8) with 256. rewrite bswap16_value.
    replace ((byte_at data (off + 1) * 256 + byte_at data off) mod 256)
      with (byte_at data off)
      by lia_div.
    replace ((byte_at data (off + 1) * 256 + byte_at data off) / 256)
      with (byte_at data (off + 1))
      by lia_div.
    rewrite Z.mod_small by lia. reflexivity.
  - rewrite (lor_shiftl_low _ _ 8) by (change (2 ^ 8) with 256; lia).
    change (2 ^ 8) with 256. lia.
Qed.

(** Converting to network order and storing gives the big-endian bytes,
    whatever the host. *)
Lemma bytes16_htons (host_le : bool) (v : Z) :
  bytes16 host_le (htons host_le v) = be_bytes16 v.
Proof.
  unfold bytes16, htons, ntohs, be_bytes16. destruct host_le; [|reflexivity].
  rewrite bswap16_value, !(shiftr_div _ 8) by lia. change (2 ^ 8) with 256.
  pose proof (Z.mod_pos_bound v 256 ltac:(lia)).
  pose proof (Z.mod_pos_bound (v / 256) 256 ltac:(lia)).
  f_equal; [|f_equal]; apply to_u8_mod.
  - lia_div.
  - lia_div.
Qed.

Lemma bytes32_htonl (host_le : bool) (v : Z) :
  bytes32 host_le (htonl host_le v) = be_bytes32 v.
Proof.
  unfold bytes32, htonl, ntohl, be_bytes32. destruct host_le; [|reflexivity].
  rewrite bswap32_value.
  rewrite !(shiftr_div _ 8), !(shiftr_div _ 16), !(shiftr_div _ 24) by lia.
  change (2 ^ 8) with 256. change (2 ^ 16) with 65536.
  change (2 ^ 24) with 16777216.
  set (a := v mod 256). set (b := (v / 256) mod 256).
  set (c := (v / 65536) mod 256). set (d := (v / 16777216) mod 256).
  assert (0 <= a < 256) by (apply Z.mod_pos_bound; lia).
  assert (0 <= b < 256) by (apply Z.mod_pos_bound; lia).
  assert (0 <= c < 256) by (apply Z.mod_pos_bound; lia).
  assert (0 <= d < 256) by (apply Z.mod_pos_bound; lia).
  repeat (f_equal; try (apply to_u8_mod; subst a b c d; lia_div)).
Qed.

(** ** The parser: what a successful parse holds *)

Lemma getFlags_be (host_le : bool) (data : list byte) :
  getFlags host_le data 0 = be16 data 2.
Proof. unfold getFlags. apply ntohs_load16. Qed.

Lemma getId_be (host_le : bool) (data : list byte) :
  getId host_le data 0 = be16 data 0.
Proof. unfold getId. apply ntohs_load16. Qed.

Lemma getQDCount_be (host_le : bool) (data : list byte) :
  getQDCount host_le data 0 = be16 data 4.
Proof. unfold getQDCount. apply ntohs_load16. Qed.

(** X1. [DNSParser::parse] gives the same error and the same [*result]
    on a little-endian and on a big-endian host. *)
Theorem parse_host_independent (host_le : bool) (data : list byte)
    (result : DNSParseResult) :
  parse_at host_le data result = parse_at false data result.
Proof.
  unfold parse_at, isQuery.
  rewrite !getFlags_be, !getId_be, !getQDCount_be.
  destruct (buf_len data <? MIN_DNS_QUERY_SIZE); [reflexivity|].
  destruct (be16 data 4 =? 0); [reflexivity|].
  destruct (parseName data DNS_HEADER_SIZE) as [[name_end wire_len]|err];
    [|reflexivity].
  rewrite !ntohs_load16. reflexivity.
Qed.

(** The fields of the result of a successful [parse_at]. *)
Lemma parse_at_success_fields (host_le : bool) (data : list byte)
    (result parsed : DNSParseResult) :
  parse_at host_le data result = (Success, parsed) ->
  17 <= question_end parsed <= buf_len data /\
  total_consumed parsed = question_end parsed /\
  header parsed = Some 0 /\
  name_start (question parsed) = Some 12 /\
  name_offset (question parsed) = 12 /\
  id parsed = be16 data 0 /\
  flags parsed = be16 data 2 /\
  is_query parsed = negb (Z.testbit (flags parsed) 15) /\
  be16 data 4 <> 0 /\
  qtype (question parsed) = be16 data (question_end parsed - 4) /\
  qclass (question parsed) = be16 data (question_end parsed - 2).
Proof.
  intros Hparse.
  destruct (parse_at_success _ _ _ _ Hparse)
    as (name_end & wire_len & Hscan & _ & Hqd & Hfit & ->).
  apply parseName_end in Hscan. unfold DNS_HEADER_SIZE in *.
  cbn [question_end total_consumed header question name_start name_offset
       id flags is_query qtype qclass].
  rewrite getQDCount_be in Hqd.
  rewrite getId_be, getFlags_be, !ntohs_load16.
  replace (name_end + 4 - 4) with name_end by lia.
  replace (name_end + 4 - 2) with (name_end + 2) by lia.
  repeat split; try lia; try assumption.
  unfold isQuery. rewrite getFlags_be.
  assert (Hbit : Z.land (be16 data 2) 32768
                 = if Z.testbit (be16 data 2) 15 then 32768 else 0).
  { apply Z.bits_inj'. intros n Hn. rewrite Z.land_spec.
    change 32768 with (2 ^ 15).
    destruct (Z.eq_dec n 15) as [->|Hne].
    - rewrite Z.pow2_bits_true by lia. rewrite andb_true_r.
      destruct (Z.testbit (be16 data 2) 15).
      + rewrite Z.pow2_bits_true by lia. reflexivity.
      + rewrite Z.bits_0. reflexivity.
    - rewrite Z.pow2_bits_false by lia. rewrite andb_false_r.
      destruct (Z.testbit (be16 data 2) 15).
      + rewrite Z.pow2_bits_false by lia. reflexivity.
      + rewrite Z.bits_0. reflexivity. }
  rewrite Hbit. destruct (Z.testbit (be16 data 2) 15); reflexivity.
Qed.

(** X2. After a successful parse the question lies inside the packet:
    [17 <= question_end = total_consumed <= len], the name starts at
    offset 12, and the header and question fields are the big-endian
    values of the wire: [id], [flags], [qtype] and [qclass] in the four
    bytes before [question_end], and [is_query] is true exactly when
    bit 15 of [flags] is 0. *)
Theorem parse_success_fields (host_le : bool) (data : list byte)
    (result parsed : DNSParseResult) :
  parse host_le (Some data) (Some result) = (Success, Some parsed) ->
  17 <= question_end parsed <= buf_len data /\
  total_consumed parsed = question_end parsed /\
  header parsed = Some 0 /\
  name_start (question parsed) = Some 12 /\
  name_offset (question parsed) = 12 /\
  id parsed = be16 data 0 /\
  flags parsed = be16 data 2 /\
  is_query parsed = negb (Z.testbit (flags parsed) 15) /\
  be16 data 4 <> 0 /\
  qtype (question parsed) = be16 data (question_end parsed - 4) /\
  qclass (question parsed) = be16 data (question_end parsed - 2).
Proof.
  unfold parse. intros Hparse.
  destruct (parse_at host_le data result) as [err r'] eqn:E.
  injection Hparse as -> ->.
  exact (parse_at_success_fields _ _ _ _ E).
Qed.

Lemma parse_success_fields_witness :
  17 <= question_end (snd (parse_at true S1_packet blank_result))
     <= buf_len S1_packet /\
  id (snd (parse_at true S1_packet blank_result)) = be16 S1_packet 0.
Proof.
  pose proof (parse_success_fields true S1_packet blank_result
                (snd (parse_at true S1_packet blank_result)) eq_refl) as H.
  split; [apply H|apply H].
Defined.

(** [parse_at] on a query with an uncompressed name. *)
Lemma parse_at_plain_query (host_le : bool) (data : list byte)
    (result : DNSParseResult) (n : Z) :
  be16 data 4 <> 0 ->
  name_prefix data 12 = Some (n, EndZero) ->
  12 + n + 1 + 4 <= buf_len data ->
  fst (parse_at host_le data result) = Success /\
  question_end (snd (parse_at host_le data result)) = 12 + n + 1 + 4 /\
  name_wire_len (question (snd (parse_at host_le data result))) = n + 1.
Proof.
  intros Hqd Hprefix Hfit.
  pose proof (prefix_scan_nonneg _ _ _ _ _ Hprefix) as Hn.
  assert (Hplain : parseName data DNS_HEADER_SIZE = Ok (12 + n + 1, 0 + n + 1)).
  { eapply parseName_fuel; [|unfold DNS_HEADER_SIZE; lia].
    apply parseName_loop_plain; [exact Hprefix|reflexivity]. }
  unfold parse_at. rewrite getQDCount_be, Hplain.
  case_ltb (buf_len data) MIN_DNS_QUERY_SIZE;
    [unfold MIN_DNS_QUERY_SIZE, DNS_HEADER_SIZE in *; lia|].
  case_eqb (be16 data 4) 0; [contradiction|].
  flip_cmp. case_ltb (buf_len data) (12 + n + 1 + 4); [lia|].
  cbn. repeat split; lia.
Qed.

(** X3. Every well-formed query with an uncompressed name parses: when
    [qd_count] is not 0, the name at offset 12 is a sequence of labels
    of [n] bytes ended by a zero byte, and the four bytes of type and
    class follow inside the packet, [parse] returns [Success] with
    [question_end = 12 + n + 1 + 4] and [name_wire_len = n + 1]. *)
Theorem parse_accepts_plain_query (host_le : bool) (data : list byte)
    (result : DNSParseResult) (n : Z) :
  be16 data 4 <> 0 ->
  name_prefix data 12 = Some (n, EndZero) ->
  12 + n + 1 + 4 <= buf_len data ->
  exists parsed : DNSParseResult,
    parse host_le (Some data) (Some result) = (Success, Some parsed) /\
    question_end parsed = 12 + n + 1 + 4 /\
    name_wire_len (question parsed) = n + 1.
Proof.
  intros Hqd Hprefix Hfit.
  destruct (parse_at_plain_query host_le data result n Hqd Hprefix Hfit)
    as (Herr & Hend & Hwire).
  unfold parse. destruct (parse_at host_le data result) as [err r'].
  simpl in *. subst err. exists r'. auto.
Qed.

Lemma parse_accepts_plain_query_witness :
  exists parsed : DNSParseResult,
    parse true (Some S1_packet) (Some blank_result)
      = (Success, Some parsed) /\
    question_end parsed = 12 + 16 + 1 + 4 /\
    name_wire_len (question parsed) = 16 + 1.
Proof.
  apply (parse_accepts_plain_query true S1_packet blank_result 16).
  - vm_compute. congruence.
  - reflexivity.
  - vm_compute. congruence.
Defined.

(** X4. [parse] reads an uncompressed query up to [question_end] only:
    a buffer that holds the same first [question_end] bytes parses to
    the same result, whatever follows them. *)
Theorem parse_reads_question_only (host_le : bool) (data data' : list byte)
    (result parsed : DNSParseResult) (n : Z) :
  parse_at host_le data result = (Success, parsed) ->
  name_prefix data 12 = Some (n, EndZero) ->
  question_end parsed <= buf_len data' ->
  (forall i, 0 <= i < question_end parsed ->
             byte_at data' i = byte_at data i) ->
  parse_at host_le data' result = (Success, parsed).
Proof.
  intros Hparse Hprefix Hfit Hagree.
  destruct (parse_at_success _ _ _ _ Hparse)
    as (name_end & wire_len & Hscan & Hmin & Hqd & Hfit' & ->).
  pose proof (prefix_scan_nonneg _ _ _ _ _ Hprefix) as Hn.
  assert (Hplain : parseName data DNS_HEADER_SIZE
                   = Ok (DNS_HEADER_SIZE + n + 1, 0 + n + 1)).
  { eapply parseName_fuel; [|unfold DNS_HEADER_SIZE; lia].
    apply parseName_loop_plain; [exact Hprefix|reflexivity]. }
  rewrite Hscan in Hplain. injection Hplain as Hend Hwire.
  cbn [question_end] in Hfit, Hagree.
  unfold DNS_HEADER_SIZE, MIN_DNS_QUERY_SIZE in *.
  assert (Hprefix' : prefix_scan (length data) data' 12 = Some (n, EndZero)).
  { apply (prefix_scan_local data); [exact Hprefix| |lia].
    intros i Hi. apply Hagree. lia. }
  assert (Hscan' : parseName data' 12 = Ok (name_end, wire_len)).
  { eapply parseName_fuel; [|lia].
    rewrite (parseName_loop_plain data' _ 12 12 0 0 n Hprefix');
      [|reflexivity].
    do 3 f_equal; lia. }
  assert (Hbe : forall off, 0 <= off -> off + 2 <= name_end + 4 ->
                            be16 data' off = be16 data off).
  { intros off H0 H2. unfold be16. rewrite !Hagree by lia. reflexivity. }
  unfold parse_at, isQuery.
  rewrite !getFlags_be, !getId_be, !getQDCount_be, !ntohs_load16.
  change DNS_HEADER_SIZE with 12. rewrite Hscan'.
  rewrite !Hbe by lia.
  case_ltb (buf_len data') MIN_DNS_QUERY_SIZE;
    [unfold MIN_DNS_QUERY_SIZE, DNS_HEADER_SIZE in *; lia|].
  rewrite getQDCount_be in Hqd.
  case_eqb (be16 data 4) 0; [contradiction|].
  flip_cmp. case_ltb (buf_len data') (name_end + 4); [lia|].
  rewrite !ntohs_load16, !Hbe by lia. reflexivity.
Qed.

Lemma parse_reads_question_only_witness :
  parse_at true (S1_packet ++ bytes_of [0xFF; 0xEE]) blank_result
    = (Success, snd (parse_at true S1_packet blank_result)).
Proof.
  apply (parse_reads_question_only true S1_packet
           (S1_packet ++ bytes_of [0xFF; 0xEE]) blank_result _ 16).
  - reflexivity.
  - reflexivity.
  - vm_compute. congruence.
  - intros i Hi. change (question_end _) with 33 in Hi.
    unfold byte_at. rewrite app_nth1; [reflexivity|].
    change (length S1_packet) with 33%nat. lia.
Defined.

(** ** Decoding the name that was scanned *)

Lemma buf_len_app (a b : list byte) :
  buf_len (a ++ b) = buf_len a + buf_len b.
Proof. unfold buf_len. rewrite length_app. lia. Qed.

Lemma lower_label_length (packet : list byte) (offset n : Z) :
  0 <= n -> buf_len (lower_label packet offset n) = n.
Proof.
  intros Hn. unfold buf_len, lower_label.
  rewrite length_map, length_seq. lia.
Qed.

(** The decoding loop follows the walk of the scan: where the scan has
    succeeded, decoding succeeds when the labels and the dots between
    them fit the buffer, and returns [BufferTooSmall] when they do
    not. *)
Lemma decodeName_loop_after_scan (data : list byte) (buf_size e w : Z) :
  forall (fuel : nat) (offset oo : Z) (jumped : bool) (jc tl : Z)
         (out : list byte) (first_label : bool),
    parseName_loop fuel data offset oo jumped jc tl = Some (Ok (e, w)) ->
    buf_len out <= buf_size ->
    tl + 1 <= w /\
    (buf_len out
       + (if first_label then Z.max 0 (w - tl - 2) else w - tl - 1)
       <= buf_size ->
     exists out' : list byte,
       decodeName_loop fuel data offset out buf_size jc first_label
         = Some (Success, out') /\
       buf_len out'
         = buf_len out
           + (if first_label then Z.max 0 (w - tl - 2) else w - tl - 1)) /\
    (buf_size
       < buf_len out
         + (if first_label then Z.max 0 (w - tl - 2) else w - tl - 1) ->
     exists out' : list byte,
       decodeName_loop fuel data offset out buf_size jc first_label
         = Some (BufferTooSmall, out')).
Proof.
  induction fuel as [|fuel IH];
    intros offset oo jumped jc tl out first_label Hscan Hout;
    [discriminate|].
  rewrite parseName_loop_S in Hscan. rewrite decodeName_loop_S.
  unfold MAX_LABEL_LENGTH in Hscan. flip_cmp. revert Hscan.
  pose proof (byte_at_range data offset) as Hb.
  destruct (negb (jc <? MAX_LABELS)); [discriminate|].
  destruct (buf_len data <=? offset); [discriminate|].
  case_eqb (byte_at data offset) 0.
  { intros [= _ <-]. split; [lia|]. split.
    - intros _. exists out. split; [reflexivity|].
      destruct first_label; lia.
    - intros Hbig. destruct first_label; lia. }
  destruct (Z.land (byte_at data offset) 192 =? 192).
  - destruct (buf_len data <=? offset + 1); [discriminate|].
    destruct (buf_len data <=? _); [discriminate|].
    intros Hscan. exact (IH _ _ _ _ _ out first_label Hscan Hout).
  - destruct (63 <? byte_at data offset); [discriminate|].
    destruct (buf_len data <? offset + 1 + byte_at data offset);
      [discriminate|].
    intros Hscan.
    set (l := byte_at data offset) in *.
    destruct first_label; simpl negb; cbv iota; simpl andb; cbv iota.
    + (* the first label: no dot *)
      case_ltb buf_size (buf_len out + l).
      * destruct (IH _ _ _ _ _ out true Hscan Hout) as (Hw & _).
        split; [lia|]. split; [lia|]. intros _. eauto.
      * assert (Hout1 : buf_len (out ++ lower_label data (offset + 1) l)
                       <= buf_size)
          by (rewrite buf_len_app, lower_label_length; lia).
        destruct (IH _ _ _ _ _ _ false Hscan Hout1) as (Hw & Hok & Hsmall).
        rewrite buf_len_app, lower_label_length in Hok, Hsmall by lia.
        split; [lia|]. split.
        -- intros Hfit. destruct Hok as (out' & Hdec & Hlen); [lia|].
           exists out'. split; [exact Hdec|lia].
        -- intros Hbig. apply Hsmall. lia.
    + (* a later label: a dot first *)
      case_leb buf_size (buf_len out).
      * destruct (IH _ _ _ _ _ out true Hscan Hout) as (Hw & _).
        split; [lia|]. split; [lia|]. intros _. eauto.
      * rewrite buf_len_app, buf_len_single.
        case_ltb buf_size (buf_len out + 1 + l).
        -- destruct (IH _ _ _ _ _ out true Hscan Hout) as (Hw & _).
           split; [lia|]. split; [lia|]. intros _. eauto.
        -- assert (Hout1 : buf_len ((out ++ [to_u8 46])
                               ++ lower_label data (offset + 1) l)
                           <= buf_size)
             by (rewrite !buf_len_app, buf_len_single, lower_label_length;
                 lia).
           destruct (IH _ _ _ _ _ _ false Hscan Hout1)
             as (Hw & Hok & Hsmall).
           rewrite !buf_len_app, buf_len_single, lower_label_length
             in Hok, Hsmall by lia.
           split; [lia|]. split.
           ++ intros Hfit. destruct Hok as (out' & Hdec & Hlen); [lia|].
              exists out'. split; [exact Hdec|lia].
           ++ intros Hbig. apply Hsmall. lia.
Qed.

(** Decoding a name that [parseName] has scanned from the start of
    the question. *)
Lemma decodeName_after_scan (data : list byte) (e w buf_size : Z) :
  parseName data DNS_HEADER_SIZE = Ok (e, w) ->
  0 <= buf_size ->
  (Z.max 0 (w - 2) <= buf_size ->
   fst (decodeName data DNS_HEADER_SIZE buf_size) = Success /\
   buf_len (snd (decodeName data DNS_HEADER_SIZE buf_size))
     = Z.max 0 (w - 2)) /\
  (buf_size < Z.max 0 (w - 2) ->
   fst (decodeName data DNS_HEADER_SIZE buf_size) = BufferTooSmall).
Proof.
  intros Hscan Hsize.
  unfold parseName in Hscan.
  destruct (parseName_loop (name_fuel data) data DNS_HEADER_SIZE
              DNS_HEADER_SIZE false 0 0) as [r|] eqn:E; [|discriminate].
  subst r.
  destruct (decodeName_loop_after_scan data buf_size _ _ _ _ _ _ _ _
              [] true E Hsize) as (Hw & Hok & Hsmall).
  change (buf_len []) with 0 in Hok, Hsmall.
  replace (w - 0 - 2) with (w - 2) in Hok, Hsmall by lia.
  unfold decodeName. split.
  - intros Hfit. destruct Hok as (out' & Hdec & Hlen); [lia|].
    rewrite Hdec. split; [reflexivity|]. simpl. lia.
  - intros Hbig. destruct Hsmall as (out' & Hdec); [lia|].
    rewrite Hdec. reflexivity.
Qed.



(** ** What [decodeName] writes *)

Lemma not_upper_lower (x : Z) : 0 <= x < 256 -> not_upper (to_u8 (tolower x)).
Proof.
  intros Hx. unfold not_upper, tolower. rewrite u8_to_u8.
  destruct ((65 <=? x) && (x <=? 90)) eqn:E.
  - apply andb_true_iff in E. destruct E as [E1 E2].
    apply Z.leb_le in E1, E2. rewrite Z.mod_small by lia. lia.
  - rewrite Z.mod_small by lia. intros [H1 H2].
    apply Z.leb_le in H1, H2. rewrite H1, H2 in E. discriminate E.
Qed.

Lemma lower_label_not_upper (packet : list byte) (offset n : Z) :
  Forall not_upper (lower_label packet offset n).
Proof.
  unfold lower_label. apply Forall_map. apply Forall_forall.
  intros i _. apply not_upper_lower. apply byte_at_range.
Qed.

Lemma decodeName_loop_writes (packet : list byte) (buf_size : Z) :
  forall (fuel : nat) (offset : Z) (out : list byte) (jc : Z)
         (first_label : bool) (err : Error) (out' : list byte),
    decodeName_loop fuel packet offset out buf_size jc first_label
      = Some (err, out') ->
    buf_len out <= buf_size -> Forall not_upper out ->
    buf_len out' <= buf_size /\ Forall not_upper out' /\
    (err = Success \/ err = TruncatedMessage \/ err = PointerLoop
     \/ err = BufferTooSmall).
Proof.
  induction fuel as [|fuel IH];
    intros offset out jc first_label err out' Hdec Hlen Hlow;
    [discriminate|].
  rewrite decodeName_loop_S in Hdec. flip_cmp. revert Hdec.
  pose proof (byte_at_range packet offset) as Hb.
  destruct (negb (jc <? MAX_LABELS)); [intros [= <- <-]; tauto|].
  destruct (buf_len packet <=? offset); [intros [= <- <-]; tauto|].
  destruct (byte_at packet offset =? 0); [intros [= <- <-]; tauto|].
  destruct (Z.land (byte_at packet offset) 192 =? 192).
  - destruct (buf_len packet <=? offset + 1); [intros [= <- <-]; tauto|].
    intros Hdec. exact (IH _ _ _ _ _ _ Hdec Hlen Hlow).
  - assert (Hdot : Forall not_upper (out ++ [to_u8 46])).
    { apply Forall_app. split; [assumption|].
      constructor; [|constructor]. unfold not_upper. rewrite u8_to_u8.
      change (46 mod 256) with 46. lia. }
    destruct first_label; simpl negb; cbv iota; simpl andb; cbv iota.
    + case_ltb buf_size (buf_len out + byte_at packet offset);
        [intros [= <- <-]; tauto|].
      intros Hdec. apply (IH _ _ _ _ _ _ Hdec).
      * rewrite buf_len_app, lower_label_length; lia.
      * apply Forall_app. split; [assumption|apply lower_label_not_upper].
    + case_leb buf_size (buf_len out); [intros [= <- <-]; tauto|].
      rewrite buf_len_app, buf_len_single.
      case_ltb buf_size (buf_len out + 1 + byte_at packet offset).
      { intros [= <- <-]. rewrite buf_len_app, buf_len_single.
        split; [lia|]. split; [assumption|tauto]. }
      intros Hdec. apply (IH _ _ _ _ _ _ Hdec).
      * rewrite !buf_len_app, buf_len_single, lower_label_length; lia.
      * apply Forall_app. split; [assumption|apply lower_label_not_upper].
Qed.



(** ** Stores, continued *)

Lemma buf_len_nil : buf_len [] = 0.
Proof. reflexivity. Qed.

Lemma buf_len_cons (b : byte) (l : list byte) :
  buf_len (b :: l) = 1 + buf_len l.
Proof. unfold buf_len. simpl length. lia. Qed.

Lemma buf_len_nonneg (l : list byte) : 0 <= buf_len l.
Proof. unfold buf_len. lia. Qed.

(** Inside its range a store holds the stored bytes. *)
Lemma byte_at_store_inside (off i : Z) (bs buf : list byte) :
  0 <= off <= buf_len buf -> off <= i < off + buf_len bs ->
  byte_at (store off bs buf) i = u8 (nth (Z.to_nat (i - off)) bs x00).
Proof.
  unfold buf_len, store, byte_at. intros Hoff Hi. f_equal.
  rewrite app_nth2 by (rewrite length_firstn; lia).
  rewrite app_nth1 by (rewrite length_firstn; lia).
  f_equal. rewrite length_firstn. lia.
Qed.

(** Two stores side by side are one store. *)
Lemma store_merge (off off' : Z) (a b buf : list byte) :
  0 <= off -> off' = off + buf_len a ->
  off + buf_len a + buf_len b <= buf_len buf ->
  store off' b (store off a buf) = store off (a ++ b) buf.
Proof.
  unfold buf_len, store. intros Hoff -> Hfit.
  remember (Z.to_nat off) as o eqn:Eo.
  replace (Z.to_nat (off + Z.of_nat (length a))) with (o + length a)%nat
    by lia.
  assert (Ho : length (firstn o buf) = o) by (rewrite length_firstn; lia).
  assert (Hl : length (firstn o buf ++ a) = (o + length a)%nat)
    by (rewrite length_app, Ho; reflexivity).
  rewrite (app_assoc (firstn o buf) a).
  rewrite take_app_length' by (symmetry; exact Hl).
  rewrite skipn_app, Hl, skipn_all2 by (rewrite Hl; lia).
  rewrite length_app, skipn_skipn. simpl app.
  rewrite <- !app_assoc. do 4 f_equal. lia.
Qed.

(** The end of the datagram that ends with a store. *)
Lemma datagram_store_tail (off : Z) (bs buf : list byte) :
  0 <= off <= buf_len buf ->
  skipn (Z.to_nat off) (datagram (off + buf_len bs) (store off bs buf)) = bs.
Proof.
  unfold buf_len, store, datagram. intros Hoff.
  remember (Z.to_nat off) as o eqn:Eo.
  replace (Z.to_nat (off + Z.of_nat (length bs))) with (o + length bs)%nat
    by lia.
  assert (Ho : length (firstn o buf) = o) by (rewrite length_firstn; lia).
  assert (Hl : length (firstn o buf ++ bs) = (o + length bs)%nat)
    by (rewrite length_app, Ho; reflexivity).
  rewrite app_assoc.
  rewrite take_app_length' by (symmetry; exact Hl).
  rewrite drop_app_length' by (symmetry; exact Ho). reflexivity.
Qed.

Lemma memcpy_tail (dst src : list byte) (n i : Z) :
  0 <= n -> n <= buf_len src -> n <= buf_len dst -> n <= i ->
  byte_at (memcpy dst src n) i = byte_at dst i.
Proof.
  intros Hn Hsrc Hdst Hi. unfold memcpy.
  apply byte_at_store_outside; try lia.
  - unfold buf_len in *. rewrite length_firstn. lia.
  - right. unfold buf_len in *. rewrite length_firstn. lia.
Qed.

(** ** The buffers the builders leave *)

Lemma be_bytes16_length (v : Z) : buf_len (be_bytes16 v) = 2.
Proof. reflexivity. Qed.

Lemma be_bytes32_length (v : Z) : buf_len (be_bytes32 v) = 4.
Proof. reflexivity. Qed.

Lemma a_record_length (ttl : Z) (address : list byte) :
  buf_len (a_record ttl address) = 12 + buf_len address.
Proof.
  unfold a_record.
  rewrite !buf_len_app, !be_bytes16_length, be_bytes32_length,
    !buf_len_cons, buf_len_nil.
  lia.
Qed.

Lemma aaaa_record_length (ttl : Z) (address : list byte) :
  buf_len (aaaa_record ttl address) = 12 + buf_len address.
Proof.
  unfold aaaa_record.
  rewrite !buf_len_app, !be_bytes16_length, be_bytes32_length,
    !buf_len_cons, buf_len_nil.
  lia.
Qed.

(** Lengths of buffers built from stores. *)
Ltac buf_lens :=
  repeat first
    [ rewrite be_bytes16_length
    | rewrite be_bytes32_length
    | rewrite a_record_length
    | rewrite aaaa_record_length
    | rewrite buf_len_app
    | rewrite buf_len_cons
    | rewrite buf_len_nil
    | rewrite bytes16_length
    | rewrite bytes32_length
    | rewrite store_length by (buf_lens; lia)
    | rewrite memcpy_length by (buf_lens; lia) ].

Lemma bytes16_zero (host_le : bool) : bytes16 host_le 0 = be_bytes16 0.
Proof. destruct host_le; reflexivity. Qed.

(** [buildNXDomain] and [buildRefused]: the copy of the query, the new
    flags at offset 2 and six zero bytes at offset 6. *)
Lemma error_response_form (host_le : bool) (query : list byte)
    (parsed : DNSParseResult) (response : list byte) :
  header parsed = Some 0 ->
  12 <= total_consumed parsed <= buf_len query ->
  total_consumed parsed <= buf_len response ->
  buildNXDomain host_le query parsed response
    = Some (total_consumed parsed,
            store 6 (be_bytes16 0 ++ be_bytes16 0 ++ be_bytes16 0)
              (store 2 (be_bytes16 (nxdomain_flags (be16 query 2)))
                 (memcpy response query (total_consumed parsed)))) /\
  buildRefused host_le query parsed response
    = Some (total_consumed parsed,
            store 6 (be_bytes16 0 ++ be_bytes16 0 ++ be_bytes16 0)
              (store 2 (be_bytes16 (refused_flags (be16 query 2)))
                 (memcpy response query (total_consumed parsed)))).
Proof.
  intros Hhdr Htc Hcap.
  unfold buildNXDomain, buildRefused. rewrite Hhdr.
  case_ltb (buf_len response) (total_consumed parsed); [lia|].
  rewrite getFlags_be.
  unfold store16, off_flags, off_an_count, off_ns_count, off_ar_count.
  rewrite !bytes16_htons, !bytes16_zero.
  fold (nxdomain_flags (be16 query 2)). fold (refused_flags (be16 query 2)).
  split; do 2 f_equal;
    rewrite (store_merge 8 10) by (buf_lens; lia);
    rewrite (store_merge 6 8) by (buf_lens; lia);
    reflexivity.
Qed.

(** [buildAResponse] and [buildAAAAResponse]: the copy of the query,
    the new flags at offset 2, [an_count] = 1 at offset 6 and the
    answer record after the question. *)
Lemma answer_response_form (host_le : bool) (query : list byte)
    (parsed : DNSParseResult) (ip ttl : Z) (ipv6 response : list byte) :
  header parsed = Some 0 ->
  12 <= total_consumed parsed <= buf_len query ->
  (total_consumed parsed + 16 <= buf_len response ->
   buildAResponse host_le query parsed ip ttl response
     = Some (total_consumed parsed + 16,
             store (total_consumed parsed) (a_record ttl (bytes32 host_le ip))
               (store 6 (be_bytes16 1)
                  (store 2 (be_bytes16 (answer_flags (be16 query 2)))
                     (memcpy response query (total_consumed parsed)))))) /\
  (total_consumed parsed + 28 <= buf_len response ->
   buf_len ipv6 = 16 ->
   buildAAAAResponse host_le query parsed ipv6 ttl response
     = Some (total_consumed parsed + 28,
             store (total_consumed parsed) (aaaa_record ttl ipv6)
               (store 6 (be_bytes16 1)
                  (store 2 (be_bytes16 (answer_flags (be16 query 2)))
                     (memcpy response query (total_consumed parsed)))))).
Proof.
  intros Hhdr Htc.
  unfold buildAResponse, buildAAAAResponse. rewrite Hhdr.
  rewrite getFlags_be.
  unfold store16, store32, off_flags, off_an_count.
  rewrite !bytes16_htons, !bytes32_htonl.
  fold (answer_flags (be16 query 2)).
  set (tc := total_consumed parsed) in *.
  set (hdr := store 6 (be_bytes16 1)
                (store 2 (be_bytes16 (answer_flags (be16 query 2)))
                   (memcpy response query tc))).
  split.
  - intros Hcap. case_ltb (buf_len response) (tc + 16); [lia|].
    f_equal. f_equal; [lia|].
    assert (Hlen : buf_len hdr = buf_len response)
      by (unfold hdr; buf_lens; lia).
    repeat (erewrite store_merge;
            [ | lia | buf_lens; lia | rewrite ?Hlen; buf_lens; lia ]).
    reflexivity.
  - intros Hcap H16. case_ltb (buf_len response) (tc + 28); [lia|].
    f_equal. f_equal; [lia|].
    assert (Hlen : buf_len hdr = buf_len response)
      by (unfold hdr; buf_lens; lia).
    assert (Hip : firstn 16 ipv6 = ipv6).
    { apply firstn_all2. unfold buf_len in H16. lia. }
    rewrite Hip.
    repeat (erewrite store_merge;
            [ | lia | buf_lens; lia | rewrite ?Hlen; buf_lens; lia ]).
    reflexivity.
Qed.

(** ** The flags of the responses *)

Lemma lor_range (k a b : Z) :
  0 <= k -> 0 <= a < 2 ^ k -> 0 <= b < 2 ^ k -> 0 <= Z.lor a b < 2 ^ k.
Proof.
  intros Hk Ha Hb.
  assert (Hnn : 0 <= Z.lor a b) by (apply Z.lor_nonneg; lia).
  split; [exact Hnn|].
  destruct (Z.eq_dec (Z.lor a b) 0) as [->|Hnz]; [lia|].
  apply Z.log2_lt_pow2; [lia|].
  rewrite Z.log2_lor by lia.
  assert (Hkpos : 0 < k).
  { destruct (Z.eq_dec k 0) as [->|]; [|lia].
    change (2 ^ 0) with 1 in *.
    assert (a = 0) by lia. assert (b = 0) by lia. subst a b.
    contradiction Hnz. reflexivity. }
  apply Z.max_lub_lt.
  - destruct (Z.eq_dec a 0) as [->|]; [exact Hkpos|].
    apply Z.log2_lt_pow2; lia.
  - destruct (Z.eq_dec b 0) as [->|]; [exact Hkpos|].
    apply Z.log2_lt_pow2; lia.
Qed.

Lemma land_range (k a b : Z) :
  0 <= a -> 0 <= b < 2 ^ k -> 0 <= Z.land a b < 2 ^ k.
Proof.
  intros Ha Hb.
  assert (Hnn : 0 <= Z.land a b) by (apply Z.land_nonneg; lia).
  split; [exact Hnn|].
  destruct (Z.eq_dec (Z.land a b) 0) as [->|Hnz]; [lia|].
  destruct (Z.eq_dec b 0) as [->|Hb0].
  { rewrite Z.land_0_r in Hnz. contradiction Hnz. reflexivity. }
  assert (Hk : 0 <= k).
  { destruct (Z.lt_ge_cases k 0) as [Hneg|]; [|assumption].
    rewrite Z.pow_neg_r in Hb by assumption. lia. }
  apply Z.log2_lt_pow2; [lia|].
  pose proof (Z.log2_land a b Ha ltac:(lia)) as Hmin.
  assert (Z.log2 b < k) by (apply Z.log2_lt_pow2; lia).
  lia.
Qed.

(** Bit 15 of a word, as the test of [isQuery] reads it. *)
Lemma land_bit15 (x : Z) :
  Z.land x 0x8000 = if Z.testbit x 15 then 0x8000 else 0.
Proof.
  apply Z.bits_inj'. intros n Hn. rewrite Z.land_spec.
  change 32768 with (2 ^ 15).
  destruct (Z.eq_dec n 15) as [->|Hne].
  - rewrite Z.pow2_bits_true by lia. rewrite andb_true_r.
    destruct (Z.testbit x 15).
    + rewrite Z.pow2_bits_true by lia. reflexivity.
    + rewrite Z.bits_0. reflexivity.
  - rewrite Z.pow2_bits_false by lia. rewrite andb_false_r.
    destruct (Z.testbit x 15).
    + rewrite Z.pow2_bits_false by lia. reflexivity.
    + rewrite Z.bits_0. reflexivity.
Qed.

(** The bits 4 to 14 other than 7 and 10. *)
Lemma kept_bit_cases (n : Z) :
  4 <= n < 15 -> n <> 7 -> n <> 10 ->
  n = 4 \/ n = 5 \/ n = 6 \/ n = 8 \/ n = 9 \/ n = 11 \/ n = 12
  \/ n = 13 \/ n = 14.
Proof. lia. Qed.

(** A bit of a word made of [Z.lor] and [Z.land] with constants. *)
Ltac flag_bits :=
  repeat (rewrite Z.lor_spec || rewrite Z.land_spec);
  repeat match goal with
         | |- context [Z.testbit (Zpos ?p) ?n] =>
           let v := eval vm_compute in (Z.testbit (Zpos p) n) in
           change (Z.testbit (Zpos p) n) with v
         end;
  rewrite ?orb_false_r, ?andb_true_r, ?orb_true_r, ?andb_false_r;
  try reflexivity.

Lemma nxdomain_flags_bits (f : Z) :
  0 <= f < 65536 ->
  0 <= nxdomain_flags f < 65536 /\
  Z.testbit (nxdomain_flags f) 15 = true /\
  Z.testbit (nxdomain_flags f) 7 = true /\
  Z.land (nxdomain_flags f) 0x000F = 3 /\
  forall n, 4 <= n < 15 -> n <> 7 ->
            Z.testbit (nxdomain_flags f) n = Z.testbit f n.
Proof.
  intros Hf. unfold nxdomain_flags. split; [|split; [|split; [|split]]].
  - change 65536 with (2 ^ 16) in *.
    apply lor_range; [lia| |lia].
    apply land_range; [|lia].
    apply Z.lor_nonneg. split; [|lia]. apply Z.lor_nonneg. lia.
  - flag_bits.
  - flag_bits.
  - rewrite Z.land_lor_distr_l, <- Z.land_assoc.
    change (Z.land 65520 15) with 0. rewrite Z.land_0_r. reflexivity.
  - intros n Hn H7.
    destruct (Z.eq_dec n 10) as [->|H10]; [flag_bits|].
    destruct (kept_bit_cases n Hn H7 H10)
      as [->|[->|[->|[->|[->|[->|[->|[->| ->]]]]]]]]; flag_bits.
Qed.

Lemma refused_flags_bits (f : Z) :
  0 <= f < 65536 ->
  0 <= refused_flags f < 65536 /\
  Z.testbit (refused_flags f) 15 = true /\
  Z.testbit (refused_flags f) 7 = true /\
  Z.land (refused_flags f) 0x000F = 5 /\
  forall n, 4 <= n < 15 -> n <> 7 ->
            Z.testbit (refused_flags f) n = Z.testbit f n.
Proof.
  intros Hf. unfold refused_flags. split; [|split; [|split; [|split]]].
  - change 65536 with (2 ^ 16) in *.
    apply lor_range; [lia| |lia].
    apply land_range; [|lia].
    apply Z.lor_nonneg. split; [|lia]. apply Z.lor_nonneg. lia.
  - flag_bits.
  - flag_bits.
  - rewrite Z.land_lor_distr_l, <- Z.land_assoc.
    change (Z.land 65520 15) with 0. rewrite Z.land_0_r. reflexivity.
  - intros n Hn H7.
    destruct (Z.eq_dec n 10) as [->|H10]; [flag_bits|].
    destruct (kept_bit_cases n Hn H7 H10)
      as [->|[->|[->|[->|[->|[->|[->|[->| ->]]]]]]]]; flag_bits.
Qed.

Lemma answer_flags_bits (f : Z) :
  0 <= f < 65536 ->
  0 <= answer_flags f < 65536 /\
  Z.testbit (answer_flags f) 15 = true /\
  Z.testbit (answer_flags f) 10 = true /\
  Z.testbit (answer_flags f) 7 = true /\
  Z.land (answer_flags f) 0x000F = 0 /\
  forall n, 4 <= n < 15 -> n <> 7 -> n <> 10 ->
            Z.testbit (answer_flags f) n = Z.testbit f n.
Proof.
  intros Hf. unfold answer_flags.
  split; [|split; [|split; [|split; [|split]]]].
  - change 65536 with (2 ^ 16) in *.
    apply land_range; [|lia].
    apply Z.lor_nonneg. split; [|lia].
    apply Z.lor_nonneg. split; [|lia]. apply Z.lor_nonneg. lia.
  - flag_bits.
  - flag_bits.
  - flag_bits.
  - rewrite <- Z.land_assoc. change (Z.land 65520 15) with 0.
    apply Z.land_0_r.
  - intros n Hn H7 H10.
    destruct (kept_bit_cases n Hn H7 H10)
      as [->|[->|[->|[->|[->|[->|[->|[->| ->]]]]]]]]; flag_bits.
Qed.

Lemma be16_range (data : list byte) (off : Z) : 0 <= be16 data off < 65536.
Proof.
  unfold be16. pose proof (byte_at_range data off).
  pose proof (byte_at_range data (off + 1)). lia.
Qed.

(** A word stored high byte first reads back. *)
Lemma be16_bytes (v : Z) :
  0 <= v < 65536 ->
  256 * u8 (nth 0 (be_bytes16 v) x00) + u8 (nth 1 (be_bytes16 v) x00) = v.
Proof.
  intros Hv. unfold be_bytes16. simpl nth.
  rewrite !u8_to_u8, (shiftr_div v 8) by lia. change (2 ^ 8) with 256.
  lia_div.
Qed.

(** ** The header and the question of a response *)

(** Bytes of buffers built from stores. *)
Ltac store_bytes :=
  repeat first
    [ rewrite byte_at_store_outside by (buf_lens; lia)
    | rewrite byte_at_store_inside by (buf_lens; lia)
    | rewrite byte_at_memcpy by lia
    | rewrite memcpy_tail by lia ].

Lemma getANCount_be (host_le : bool) (data : list byte) :
  getANCount host_le data 0 = be16 data 6.
Proof. unfold getANCount. apply ntohs_load16. Qed.

Lemma getFlags_at (host_le : bool) (data : list byte) (hdr : Z) :
  getFlags host_le data hdr = be16 data (hdr + 2).
Proof. unfold getFlags. apply ntohs_load16. Qed.

(** The copy of the query with new flags [f]. *)
Lemma flags_store_bytes (query response : list byte) (tc f : Z) :
  12 <= tc <= buf_len query -> tc <= buf_len response ->
  0 <= f < 65536 ->
  buf_len (store 2 (be_bytes16 f) (memcpy response query tc))
    = buf_len response /\
  be16 (store 2 (be_bytes16 f) (memcpy response query tc)) 2 = f /\
  (forall i, 0 <= i < 2 \/ 4 <= i < tc ->
     byte_at (store 2 (be_bytes16 f) (memcpy response query tc)) i
       = byte_at query i) /\
  (forall i, tc <= i ->
     byte_at (store 2 (be_bytes16 f) (memcpy response query tc)) i
       = byte_at response i).
Proof.
  intros Htc Hcap Hf. split; [buf_lens; lia|]. split; [|split].
  - unfold be16. store_bytes.
    change (Z.to_nat (2 - 2)) with 0%nat.
    change (Z.to_nat (2 + 1 - 2)) with 1%nat.
    apply be16_bytes. exact Hf.
  - intros i Hi. store_bytes. reflexivity.
  - intros i Hi. store_bytes. reflexivity.
Qed.

(** X7. Each builder leaves the same buffer on a little-endian and on a
    big-endian host, the IPv4 address being passed as [htonl] of its
    value. *)
Theorem builders_host_independent (host_le : bool) (query : list byte)
    (parsed : DNSParseResult) (ip ttl : Z) (ipv6 response : list byte) :
  buildNXDomain host_le query parsed response
    = buildNXDomain false query parsed response /\
  buildRefused host_le query parsed response
    = buildRefused false query parsed response /\
  buildAResponse host_le query parsed (htonl host_le ip) ttl response
    = buildAResponse false query parsed ip ttl response /\
  buildAAAAResponse host_le query parsed ipv6 ttl response
    = buildAAAAResponse false query parsed ipv6 ttl response.
Proof.
  unfold buildNXDomain, buildRefused, buildAResponse, buildAAAAResponse.
  unfold store16, store32.
  change (bytes32 false ip) with (bytes32 false (htonl false ip)).
  rewrite !bytes16_zero.
  repeat split;
    destruct (_ <? _); try reflexivity;
    destruct (header parsed) as [hdr|]; try reflexivity;
    rewrite !getFlags_at, !bytes16_htons, ?bytes32_htonl; reflexivity.
Qed.

(** X8. For every parsed query and a buffer that holds
    [total_consumed] bytes, the NXDOMAIN and the REFUSED response keep
    the ID and [qd_count] of the query, are responses (QR = 1) with
    RA = 1 and the response code 3 and 5, keep every other flag bit of
    the query (opcode, AA, TC, RD, Z), and have [an_count], [ns_count]
    and [ar_count] 0. *)
Theorem error_response_header (host_le : bool) (query : list byte)
    (result parsed : DNSParseResult) (response : list byte) :
  parse_at host_le query result = (Success, parsed) ->
  total_consumed parsed <= buf_len response ->
  exists nx rf : list byte,
    buildNXDomain host_le query parsed response
      = Some (total_consumed parsed, nx) /\
    buildRefused host_le query parsed response
      = Some (total_consumed parsed, rf) /\
    getRCode host_le nx 0 = 3 /\ getRCode host_le rf 0 = 5 /\
    forall out : list byte, out = nx \/ out = rf ->
      getId host_le out 0 = id parsed /\
      isResponse host_le out 0 = true /\
      Z.testbit (getFlags host_le out 0) 7 = true /\
      (forall n, 4 <= n < 15 -> n <> 7 ->
         Z.testbit (getFlags host_le out 0) n = Z.testbit (flags parsed) n) /\
      getQDCount host_le out 0 = getQDCount host_le query 0 /\
      getANCount host_le out 0 = 0 /\
      be16 out 8 = 0 /\ be16 out 10 = 0.
Proof.
  intros Hparse Hcap.
  destruct (parse_at_success_fields _ _ _ _ Hparse)
    as (Hend & Htc & Hhdr & _ & _ & Hid & Hflags & _).
  rewrite <- Htc in Hend.
  destruct (error_response_form host_le query parsed response Hhdr
              ltac:(lia) Hcap) as (Hnx & Hrf).
  pose proof (be16_range query 2) as Hf.
  destruct (nxdomain_flags_bits _ Hf) as (Hnr & Hn15 & Hn7 & Hnrc & Hnk).
  destruct (refused_flags_bits _ Hf) as (Hrr & Hr15 & Hr7 & Hrrc & Hrk).
  destruct (flags_store_bytes query response (total_consumed parsed) _
              ltac:(lia) Hcap Hnr) as (Hnlen & Hnf & Hnq & _).
  destruct (flags_store_bytes query response (total_consumed parsed) _
              ltac:(lia) Hcap Hrr) as (Hrlen & Hrf' & Hrq & _).
  eexists. eexists. split; [exact Hnx|]. split; [exact Hrf|].
  assert (Hkeep : forall f out,
    out = store 6 (be_bytes16 0 ++ be_bytes16 0 ++ be_bytes16 0)
            (store 2 (be_bytes16 f)
               (memcpy response query (total_consumed parsed))) ->
    buf_len (store 2 (be_bytes16 f)
               (memcpy response query (total_consumed parsed)))
      = buf_len response ->
    be16 (store 2 (be_bytes16 f)
            (memcpy response query (total_consumed parsed))) 2 = f ->
    (forall i, 0 <= i < 2 \/ 4 <= i < total_consumed parsed ->
       byte_at (store 2 (be_bytes16 f)
                  (memcpy response query (total_consumed parsed))) i
         = byte_at query i) ->
    be16 out 0 = be16 query 0 /\ be16 out 2 = f /\
    be16 out 4 = be16 query 4 /\ be16 out 6 = 0 /\ be16 out 8 = 0 /\
    be16 out 10 = 0).
  { intros f out -> Hlen Hfl Hq.
    assert (Hout : forall i, 0 <= i < 6 ->
      byte_at (store 6 (be_bytes16 0 ++ be_bytes16 0 ++ be_bytes16 0)
                 (store 2 (be_bytes16 f)
                    (memcpy response query (total_consumed parsed)))) i
      = byte_at (store 2 (be_bytes16 f)
                   (memcpy response query (total_consumed parsed))) i).
    { intros i Hi. apply byte_at_store_outside; try lia.
      rewrite Hlen. buf_lens. lia. }
    assert (Hin : forall i, 6 <= i < 12 ->
      byte_at (store 6 (be_bytes16 0 ++ be_bytes16 0 ++ be_bytes16 0)
                 (store 2 (be_bytes16 f)
                    (memcpy response query (total_consumed parsed)))) i
      = 0).
    { intros i Hi.
      rewrite byte_at_store_inside by (rewrite ?Hlen; buf_lens; lia).
      assert (Hc : i = 6 \/ i = 7 \/ i = 8 \/ i = 9 \/ i = 10 \/ i = 11)
        by lia.
      destruct Hc as [->|[->|[->|[->|[->| ->]]]]]; reflexivity. }
    unfold be16 in *. rewrite !Hout, !Hin by lia.
    rewrite (Hq 0), (Hq (0 + 1)), (Hq 4), (Hq (4 + 1)) by lia.
    repeat split; try reflexivity. exact Hfl. }
  destruct (Hkeep _ _ eq_refl Hnlen Hnf Hnq)
    as (Hn0 & Hn2 & Hn4 & Hn6 & Hn8 & Hn10).
  destruct (Hkeep _ _ eq_refl Hrlen Hrf' Hrq)
    as (Hr0 & Hr2 & Hr4 & Hr6 & Hr8 & Hr10).
  split; [unfold getRCode; rewrite getFlags_be, Hn2; exact Hnrc|].
  split; [unfold getRCode; rewrite getFlags_be, Hr2; exact Hrrc|].
  intros out [->| ->]; unfold isResponse, isQuery;
    rewrite getId_be, !getFlags_be, !getQDCount_be, getANCount_be.
  - rewrite Hn0, Hn2, Hn4, Hn6, Hn8, Hn10, land_bit15, Hn15, Hid, Hflags.
    repeat split; try reflexivity; assumption.
  - rewrite Hr0, Hr2, Hr4, Hr6, Hr8, Hr10, land_bit15, Hr15, Hid, Hflags.
    repeat split; try reflexivity; assumption.
Qed.

(** The buffer of an answer: the copy of the query with flags [f],
    [an_count] 1 and the record [rec] after the question. *)
Lemma answer_buffer_bytes (query response rec : list byte) (tc f : Z) :
  12 <= tc <= buf_len query -> tc + buf_len rec <= buf_len response ->
  0 <= f < 65536 ->
  forall out : list byte,
    out = store tc rec
            (store 6 (be_bytes16 1)
               (store 2 (be_bytes16 f) (memcpy response query tc))) ->
    buf_len out = buf_len response /\
    be16 out 0 = be16 query 0 /\ be16 out 2 = f /\
    be16 out 4 = be16 query 4 /\ be16 out 6 = 1 /\
    (forall i, 8 <= i < tc -> byte_at out i = byte_at query i) /\
    (forall i, tc + buf_len rec <= i -> byte_at out i = byte_at response i) /\
    (forall i, tc <= i < tc + buf_len rec ->
       byte_at out i = u8 (nth (Z.to_nat (i - tc)) rec x00)) /\
    skipn (Z.to_nat tc) (datagram (tc + buf_len rec) out) = rec.
Proof.
  intros Htc Hcap Hf out ->.
  pose proof (buf_len_nonneg rec) as Hrec.
  destruct (flags_store_bytes query response tc f Htc ltac:(lia) Hf)
    as (Hlen & Hfl & Hq & Hrest).
  set (h2 := store 2 (be_bytes16 f) (memcpy response query tc)) in *.
  assert (Hlen6 : buf_len (store 6 (be_bytes16 1) h2) = buf_len response)
    by (rewrite store_length; rewrite ?Hlen; buf_lens; lia).
  assert (H6 : forall i, 0 <= i < 6 \/ 8 <= i ->
             byte_at (store 6 (be_bytes16 1) h2) i = byte_at h2 i).
  { intros i Hi. apply byte_at_store_outside; rewrite ?Hlen; buf_lens; lia. }
  assert (Hout : forall i, 0 <= i < tc \/ tc + buf_len rec <= i ->
             byte_at (store tc rec (store 6 (be_bytes16 1) h2)) i
             = byte_at (store 6 (be_bytes16 1) h2) i).
  { intros i Hi. apply byte_at_store_outside; rewrite ?Hlen6; lia. }
  split; [rewrite store_length; rewrite ?Hlen6; lia|].
  unfold be16 in *.
  rewrite (Hout 0), (Hout (0 + 1)), (Hout 2), (Hout (2 + 1)), (Hout 4),
    (Hout (4 + 1)), (Hout 6), (Hout (6 + 1)) by lia.
  rewrite (H6 0), (H6 (0 + 1)), (H6 2), (H6 (2 + 1)), (H6 4), (H6 (4 + 1))
    by lia.
  rewrite (Hq 0), (Hq (0 + 1)), (Hq 4), (Hq (4 + 1)) by lia.
  split; [reflexivity|]. split; [exact Hfl|]. split; [reflexivity|].
  split.
  { rewrite !byte_at_store_inside by (rewrite ?Hlen; buf_lens; lia).
    reflexivity. }
  split; [|split; [|split]].
  - intros i Hi. rewrite Hout, H6, Hq by lia. reflexivity.
  - intros i Hi. rewrite Hout, H6, Hrest by lia. reflexivity.
  - intros i Hi. apply byte_at_store_inside; rewrite ?Hlen6; lia.
  - apply datagram_store_tail. rewrite Hlen6. lia.
Qed.





(** ** The name of the answer *)

(** On a name without compression pointer the jump counter plays no
    part in decoding. *)
Lemma decodeName_loop_plain_jumps (data : list byte) (buf_size : Z) :
  forall (fuel : nat) (offset n : Z) (out : list byte) (jc jc' : Z)
         (first_label : bool),
    prefix_scan fuel data offset = Some (n, EndZero) ->
    jc < MAX_LABELS -> jc' < MAX_LABELS ->
    decodeName_loop fuel data offset out buf_size jc first_label
    = decodeName_loop fuel data offset out buf_size jc' first_label.
Proof.
  induction fuel as [|fuel IH];
    intros offset n out jc jc' first_label Hp Hjc Hjc'; [reflexivity|].
  rewrite prefix_scan_S in Hp. rewrite !decodeName_loop_S. revert Hp.
  case_ltb jc MAX_LABELS; [|lia]. case_ltb jc' MAX_LABELS; [|lia].
  simpl negb. cbv iota.
  destruct (offset >=? buf_len data); [reflexivity|].
  destruct (byte_at data offset =? 0); [reflexivity|].
  destruct (Z.land (byte_at data offset) 192 =? 192); [discriminate|].
  destruct ((byte_at data offset >? 63)
            || (offset + 1 + byte_at data offset >? buf_len data));
    [discriminate|].
  destruct (prefix_scan fuel data (offset + 1 + byte_at data offset))
    as [[m k]|] eqn:E; [|discriminate].
  intros [= <- ->].
  destruct (negb first_label && _); [reflexivity|].
  destruct (_ >? buf_size); [reflexivity|].
  apply (IH _ m); assumption.
Qed.

(** X12. In an A response to a query with an uncompressed name, the
    name of the answer record, the pointer C0 0C at offset
    [total_consumed], decodes to the name of the question. *)
Theorem answer_name_is_question_name (host_le : bool) (query : list byte)
    (result parsed : DNSParseResult) (ip ttl : Z) (response : list byte)
    (n buf_size : Z) :
  parse_at host_le query result = (Success, parsed) ->
  name_prefix query DNS_HEADER_SIZE = Some (n, EndZero) ->
  total_consumed parsed + 16 <= buf_len response ->
  exists out : list byte,
    buildAResponse host_le query parsed ip ttl response
      = Some (total_consumed parsed + 16, out) /\
    decodeName (datagram (total_consumed parsed + 16) out)
               (total_consumed parsed) buf_size
    = decodeName query (name_offset (question parsed)) buf_size.
Proof.
  intros Hparse Hprefix Hcap.
  destruct (parse_at_success_fields _ _ _ _ Hparse)
    as (Hend & Htc & Hhdr & _ & Hoff & _).
  rewrite <- Htc in Hend. rewrite Hoff.
  pose proof (prefix_scan_nonneg _ _ _ _ _ Hprefix) as Hn.
  assert (Hqend : total_consumed parsed = 12 + n + 1 + 4).
  { destruct (parse_at_plain_query host_le query result n) as (_ & Hq & _).
    - destruct (parse_at_success_fields _ _ _ _ Hparse)
        as (_ & _ & _ & _ & _ & _ & _ & _ & Hqd & _). exact Hqd.
    - exact Hprefix.
    - destruct (parse_at_success _ _ _ _ Hparse)
        as (name_end & wire_len & Hscan & _ & _ & Hfit & Hp).
      assert (Hplain : parseName query DNS_HEADER_SIZE
                       = Ok (DNS_HEADER_SIZE + n + 1, 0 + n + 1)).
      { eapply parseName_fuel; [|unfold DNS_HEADER_SIZE; lia].
        apply parseName_loop_plain; [exact Hprefix|reflexivity]. }
      rewrite Hscan in Hplain. injection Hplain as -> _.
      unfold DNS_HEADER_SIZE in Hfit. lia.
    - rewrite Hparse in Hq. simpl in Hq. rewrite Htc. exact Hq. }
  destruct (answer_response_form host_le query parsed ip ttl [] response
              Hhdr ltac:(lia)) as (Ha & _).
  specialize (Ha Hcap).
  pose proof (be16_range query 2) as Hf.
  destruct (answer_buffer_bytes query response
              (a_record ttl (bytes32 host_le ip))
              (total_consumed parsed) _ ltac:(lia)
              ltac:(buf_lens; lia)
              (proj1 (answer_flags_bits _ Hf)) _ eq_refl)
    as (Hlen & _ & _ & _ & _ & Hq & _ & Hrec & _).
  rewrite a_record_length, bytes32_length in Hrec.
  eexists. split; [exact Ha|].
  set (tc := total_consumed parsed) in *.
  set (out := store tc _ _) in *.
  set (R := datagram (tc + 16) out).
  assert (HlenR : buf_len R = tc + 16) by (apply datagram_length; lia).
  assert (HR : forall i, 0 <= i < tc + 16 -> byte_at R i = byte_at out i)
    by (intros i Hi; apply byte_at_datagram; lia).
  assert (Hc0 : byte_at R tc = 192).
  { rewrite HR, Hrec by lia. replace (tc - tc) with 0 by lia. reflexivity. }
  assert (H0c : byte_at R (tc + 1) = 12).
  { rewrite HR, Hrec by lia. replace (tc + 1 - tc) with 1 by lia.
    reflexivity. }
  unfold DNS_HEADER_SIZE in Hprefix.
  destruct (decodeName_loop_local query R buf_size (length query) 12 n
              [] 0 true Hprefix ltac:(lia)) as (r & Hdq & Hdr).
  { intros i Hi. rewrite HR, Hq by lia. reflexivity. }
  { lia. }
  { reflexivity. }
  assert (HprefixR : prefix_scan (length query) R 12 = Some (n, EndZero)).
  { apply (prefix_scan_local query); [exact Hprefix| |lia].
    intros i Hi. rewrite HR, Hq by lia. reflexivity. }
  rewrite (decodeName_fuel _ _ _ _ _ Hdq) by lia.
  apply (decodeName_fuel R tc buf_size (S (length query))); [|lia].
  rewrite decodeName_loop_S, Hc0, H0c. flip_cmp.
  change (negb (0 <? MAX_LABELS)) with false. cbv iota.
  case_leb (buf_len R) tc; [lia|].
  change (192 =? 0) with false. change (Z.land 192 192 =? 192) with true.
  cbv iota.
  case_leb (buf_len R) (tc + 1); [lia|].
  change (Z.lor (Z.shiftl (Z.land 192 63) 8) 12) with 12.
  rewrite (decodeName_loop_plain_jumps R buf_size _ 12 n [] (0 + 1) 0 true
             HprefixR); [exact Hdr|reflexivity|reflexivity].
Qed.

Lemma answer_name_is_question_name_witness :
  exists out : list byte,
    buildAResponse true S1_packet (snd (parse_at true S1_packet blank_result))
      (bswap32 0xC0A80164) 300 (repeat x00 64) = Some (33 + 16, out) /\
    decodeName (datagram (33 + 16) out) 33 256 = decodeName S1_packet 12 256.
Proof.
  exact (answer_name_is_question_name true S1_packet blank_result
           (snd (parse_at true S1_packet blank_result))
           (bswap32 0xC0A80164) 300 (repeat x00 64) 16 256
           eq_refl eq_refl ltac:(vm_compute; congruence)).
Defined.

Lemma error_response_header_witness :
  exists nx rf : list byte,
    buildNXDomain true S1_packet (snd (parse_at true S1_packet blank_result))
      (repeat x00 64) = Some (33, nx) /\
    buildRefused true S1_packet (snd (parse_at true S1_packet blank_result))
      (repeat x00 64) = Some (33, rf) /\
    getRCode true nx 0 = 3 /\ getRCode true rf 0 = 5.
Proof.
  destruct (error_response_header true S1_packet blank_result
              (snd (parse_at true S1_packet blank_result)) (repeat x00 64)
              eq_refl ltac:(vm_compute; congruence))
    as (nx & rf & Hnx & Hrf & H3 & H5 & _).
  exists nx, rf. auto.
Defined.




(** ** The trie: insert, match and remove *)

Lemma matchImpl_loop_new_node (labels : list string) (mw : option Rule) :
  matchImpl_loop new_node labels mw = mw.
Proof. destruct labels; reflexivity. Qed.

(** Once a wildcard is remembered the walk returns a rule. *)
Lemma matchImpl_loop_remembered :
  forall (labels : list string) (node : TrieNode) (r : Rule),
    is_Some (matchImpl_loop node labels (Some r)).
Proof.
  induction labels as [|label rest IH]; intros node r; simpl.
  - destruct (exact_rule node), (wildcard_rule node); eauto.
  - destruct (wildcard_rule node) as [w|];
      destruct (children node !! label) as [child|]; eauto.
Qed.

(** A walk through the node of a wildcard rule just inserted returns a
    rule. *)
Lemma matchImpl_insertImpl_wildcard (r : Rule) :
  forall (labels more : list string) (node : TrieNode) (mw : option Rule),
    is_Some (matchImpl_loop (insertImpl node labels true r)
                            (labels ++ more) mw).
Proof.
  induction labels as [|label rest IH]; intros more node mw.
  - simpl app. destruct more as [|m more]; simpl.
    + destruct (exact_rule node); eauto.
    + destruct (children node !! m); [apply matchImpl_loop_remembered|eauto].
  - simpl. rewrite lookup_insert_eq. apply IH.
Qed.

Lemma matchImpl_insertImpl_wildcard_new (r : Rule) :
  forall (labels more : list string) (mw : option Rule),
    matchImpl_loop (insertImpl new_node labels true r) (labels ++ more) mw
    = Some r.
Proof.
  induction labels as [|label rest IH]; intros more mw.
  - simpl app. destruct more as [|m more]; reflexivity.
  - simpl. rewrite lookup_insert_eq. apply IH.
Qed.

(** An insert leaves the walks that do not end at its node (exact rule)
    or do not pass through it (wildcard rule) as they were. *)
Lemma matchImpl_insertImpl_other (is_wildcard : bool) (r : Rule) :
  forall (labels labels' : list string) (node : TrieNode) (mw : option Rule),
    (if is_wildcard then forall more, labels' <> labels ++ more
     else labels' <> labels) ->
    matchImpl_loop (insertImpl node labels is_wildcard r) labels' mw
    = matchImpl_loop node labels' mw.
Proof.
  induction labels as [|label rest IH]; intros labels' node mw Hne.
  - destruct is_wildcard.
    + contradiction (Hne labels'). reflexivity.
    + destruct labels' as [|l' rest']; [contradiction Hne; reflexivity|].
      reflexivity.
  - destruct labels' as [|l' rest']; [reflexivity|].
    simpl. destruct (decide (label = l')) as [->|Hl].
    + rewrite lookup_insert_eq.
      assert (Hne' : if is_wildcard then forall more, rest' <> rest ++ more
                     else rest' <> rest).
      { destruct is_wildcard.
        - intros more ->. apply (Hne more). reflexivity.
        - intros ->. apply Hne. reflexivity. }
      rewrite (IH _ _ _ Hne').
      destruct (children node !! l') as [child|]; [reflexivity|].
      apply matchImpl_loop_new_node.
    + rewrite lookup_insert_ne by assumption. reflexivity.
Qed.

(** ** Splitting a domain *)

Lemma lowercase_app (a b : string) :
  lowercase (a +:+ b) = lowercase a +:+ lowercase b.
Proof.
  induction a as [|c a IH]; simpl; [reflexivity|]. rewrite IH. reflexivity.
Qed.

Lemma split_loop_labels :
  forall (domain : string) (labels : list string) (current : string),
    split_loop domain labels current
    = labels ++ split_loop domain [] current.
Proof.
  induction domain as [|c domain IH]; intros labels current; simpl.
  - destruct (negb (String.eqb current EmptyString));
      [reflexivity|rewrite app_nil_r; reflexivity].
  - destruct (Ascii.eqb c "."%char).
    + destruct (negb (String.eqb current EmptyString)).
      * rewrite (IH (labels ++ [current])), (IH [current]).
        rewrite app_assoc. reflexivity.
      * apply IH.
    + apply IH.
Qed.

Lemma split_loop_app_dot (b : string) :
  forall (a current : string),
    split_loop (a +:+ String "."%char b) [] current
    = split_loop a [] current ++ split_loop b [] EmptyString.
Proof.
  induction a as [|c a IH]; intros current; simpl.
  - destruct (negb (String.eqb current EmptyString)) eqn:E.
    + apply split_loop_labels.
    + apply negb_false_iff, String.eqb_eq in E. subst current. reflexivity.
  - destruct (Ascii.eqb c "."%char).
    + destruct (negb (String.eqb current EmptyString)).
      * rewrite split_loop_labels, (split_loop_labels a [current]).
        rewrite IH, app_assoc. reflexivity.
      * apply IH.
    + apply IH.
Qed.

Lemma splitAndReverse_app_dot (a b : string) :
  splitAndReverse (a +:+ String "."%char b)
  = splitAndReverse b ++ splitAndReverse a.
Proof.
  unfold splitAndReverse. rewrite split_loop_app_dot. apply rev_app_distr.
Qed.

Lemma has_dot_app (a b : string) :
  has_dot (a +:+ b) = has_dot a || has_dot b.
Proof.
  induction a as [|c a IH]; simpl; [reflexivity|].
  rewrite IH. apply orb_assoc.
Qed.

Lemma append_not_empty (a : string) (c : ascii) :
  a +:+ String c EmptyString <> EmptyString.
Proof. destruct a; discriminate. Qed.

Lemma split_loop_good :
  forall (domain : string) (labels : list string) (current : string),
    Forall good_label labels -> has_dot current = false ->
    Forall good_label (split_loop domain labels current).
Proof.
  induction domain as [|c domain IH]; intros labels current Hl Hc; simpl.
  - destruct (String.eqb_spec current EmptyString); simpl; [exact Hl|].
    apply Forall_app. split; [exact Hl|].
    constructor; [split; assumption|constructor].
  - destruct (Ascii.eqb c "."%char) eqn:Edot.
    + destruct (String.eqb_spec current EmptyString); simpl.
      * apply IH; assumption.
      * apply IH; [|reflexivity].
        apply Forall_app. split; [exact Hl|].
        constructor; [split; assumption|constructor].
    + apply IH; [exact Hl|].
      rewrite has_dot_app, Hc. simpl. rewrite Edot. reflexivity.
Qed.

(** X13. The labels [splitAndReverse] produces are never empty and hold
    no dot, whatever the dots of the domain; and splitting composes:
    the labels of [a.b] are the labels of [b] followed by the labels of
    [a], so that a trailing dot changes nothing. *)
Theorem splitAndReverse_labels (a b : string) :
  Forall good_label (splitAndReverse a) /\
  splitAndReverse (a +:+ "." +:+ b) = splitAndReverse b ++ splitAndReverse a /\
  splitAndReverse (a +:+ ".") = splitAndReverse a.
Proof.
  split; [|split].
  - unfold splitAndReverse. apply Forall_rev.
    apply split_loop_good; [constructor|reflexivity].
  - apply splitAndReverse_app_dot.
  - apply (splitAndReverse_app_dot a EmptyString).
Qed.

Lemma matchImpl_loop_none (node : TrieNode) (labels : list string)
    (mw : option Rule) :
  matchImpl_loop node labels None = None ->
  matchImpl_loop node labels mw = mw.
Proof.
  rewrite !matchImpl_loop_spec.
  destruct (spec_match node labels); [discriminate|reflexivity].
Qed.

(** Below a wildcard rule just inserted, a walk that found no rule
    before now returns the new rule. *)
Lemma matchImpl_insertImpl_wildcard_none (r : Rule) :
  forall (labels more : list string) (node : TrieNode) (mw : option Rule),
    matchImpl_loop node (labels ++ more) None = None ->
    matchImpl_loop (insertImpl node labels true r) (labels ++ more) mw
    = Some r.
Proof.
  induction labels as [|label rest IH]; intros more node mw Hold.
  - simpl app in *. destruct more as [|m more]; simpl in *.
    + destruct (exact_rule node); [discriminate|reflexivity].
    + destruct (wildcard_rule node) as [w|].
      { destruct (children node !! m) as [child|]; [|discriminate].
        destruct (matchImpl_loop_remembered more child w) as [x Hx].
        congruence. }
      destruct (children node !! m) as [child|]; [|reflexivity].
      apply matchImpl_loop_none. exact Hold.
  - simpl in *. rewrite lookup_insert_eq.
    destruct (wildcard_rule node) as [w|].
    { destruct (children node !! label) as [child|]; [|discriminate].
      destruct (matchImpl_loop_remembered (rest ++ more) child w) as [x Hx].
      congruence. }
    apply IH.
    destruct (children node !! label) as [child|]; [exact Hold|].
    apply matchImpl_loop_new_node.
Qed.

Lemma rule_at_new_node (labels : list string) (is_wildcard : bool) :
  rule_at new_node labels is_wildcard = None.
Proof. destruct labels, is_wildcard; reflexivity. Qed.

Lemma rule_at_cons (node : TrieNode) (label : string) (rest : list string)
    (is_wildcard : bool) :
  rule_at node (label :: rest) is_wildcard
  = match children node !! label with
    | Some child => rule_at child rest is_wildcard
    | None => None
    end.
Proof.
  unfold rule_at. simpl. destruct (children node !! label); reflexivity.
Qed.

(** Removing a rule just inserted where none was gives a node that
    every walk answers as the node before the insert. *)
Lemma removeImpl_insertImpl (is_wildcard : bool) (r : Rule) :
  forall (labels : list string) (node : TrieNode),
    rule_at node labels is_wildcard = None ->
    exists node',
      removeImpl (insertImpl node labels is_wildcard r) labels is_wildcard
      = Some node' /\
      forall labels' mw,
        matchImpl_loop node' labels' mw = matchImpl_loop node labels' mw.
Proof.
  induction labels as [|label rest IH]; intros node Hnone.
  - unfold rule_at in Hnone. simpl in Hnone.
    destruct node as [ch ex wc]. simpl in *.
    destruct is_wildcard; subst; simpl; eexists; (split; [reflexivity|]);
      reflexivity.
  - rewrite rule_at_cons in Hnone. simpl.
    rewrite lookup_insert_eq.
    set (child := match children node !! label with
                  | Some c => c
                  | None => new_node
                  end).
    assert (Hchild : rule_at child rest is_wildcard = None).
    { unfold child. destruct (children node !! label); [exact Hnone|].
      apply rule_at_new_node. }
    destruct (IH child Hchild) as (child' & -> & Hsame).
    eexists. split; [reflexivity|].
    intros [|l' rest'] mw; [reflexivity|].
    simpl. destruct (decide (label = l')) as [->|Hl].
    + rewrite lookup_insert_eq, Hsame. unfold child.
      destruct (children node !! l'); [reflexivity|].
      apply matchImpl_loop_new_node.
    + rewrite !lookup_insert_ne by assumption. reflexivity.
Qed.


Lemma size_incr_decr (n : Z) :
  0 <= n < 2 ^ 64 -> size_decr (size_incr n) = n.
Proof.
  unfold size_decr, size_incr.
  change (2 ^ 64) with 18446744073709551616. intros H. lia_div.
Qed.

Lemma lowercase_not_empty (d : string) :
  d <> EmptyString -> lowercase d <> EmptyString.
Proof. destruct d; [congruence|discriminate]. Qed.

Lemma append_empty_left (a b : string) :
  a +:+ b = EmptyString -> a = EmptyString.
Proof. destruct a; [reflexivity|discriminate]. Qed.

(** X14. An exact rule is found again under its domain, in any case of
    the letters and with or without a trailing dot; a second insert for
    the same domain replaces the rule, and [size] counts both
    inserts. *)
Theorem insert_exact_then_match (t : DomainTrie) (d : string)
    (r1 r2 : Rule) :
  d <> EmptyString -> has_wildcard_prefix d = false ->
  0 <= size t -> size t + 2 < 2 ^ 64 ->
  match_ (insert t d (Some r1)) d = Some r1 /\
  match_ (insert t d (Some r1)) (uppercase d) = Some r1 /\
  match_ (insert t d (Some r1)) (d +:+ ".") = Some r1 /\
  match_ (insert (insert t d (Some r1)) d (Some r2)) d = Some r2 /\
  size (insert (insert t d (Some r1)) d (Some r2)) = size t + 2.
Proof.
  intros Hd Hw H0 H2. repeat split.
  - apply match_insert_exact; auto.
  - apply match_insert_exact; auto.
    + destruct d; [congruence|discriminate].
    + rewrite lowercase_uppercase. reflexivity.
  - apply match_insert_exact; auto.
    + intros E. apply append_empty_left in E. contradiction.
    + rewrite lowercase_app. apply (splitAndReverse_app_dot _ EmptyString).
  - apply match_insert_exact; auto.
  - unfold insert, size.
    destruct (String.eqb_spec d EmptyString); [contradiction|].
    simpl. unfold size_incr. unfold size in *.
    change (2 ^ 64) with 18446744073709551616 in *. lia_div.
Qed.

Lemma insert_exact_then_match_witness :
  match_ (insert empty_trie "example.com" (Some rule_log)) "EXAMPLE.COM"
  = Some rule_log.
Proof.
  apply (insert_exact_then_match empty_trie "example.com" rule_log
           rule_block); [discriminate|reflexivity|simpl; lia|simpl; lia].
Defined.

Lemma wildcard_prefix_labels (base : string) :
  base <> EmptyString ->
  has_wildcard_prefix ("*." +:+ base) = true /\
  substr2 ("*." +:+ base) = base.
Proof. destruct base; [congruence|]. intros _. split; reflexivity. Qed.

Lemma under_base_labels (sub base : string) :
  splitAndReverse (lowercase (sub +:+ "." +:+ base))
  = splitAndReverse (lowercase base) ++ splitAndReverse (lowercase sub).
Proof. rewrite lowercase_app. apply splitAndReverse_app_dot. Qed.

Lemma under_base_not_empty (sub base : string) :
  sub +:+ "." +:+ base <> EmptyString.
Proof. destruct sub; discriminate. Qed.

(** X15. After [insert] of the wildcard rule [*.base], [match] returns
    a rule for [base] itself and for every [sub.base]; it is the new
    rule wherever [match] returned none before. *)
Theorem insert_wildcard_covers (t : DomainTrie) (base sub : string)
    (r : Rule) :
  base <> EmptyString ->
  let t' := insert t ("*." +:+ base) (Some r) in
  is_Some (match_ t' base) /\
  is_Some (match_ t' (sub +:+ "." +:+ base)) /\
  (match_ t base = None -> match_ t' base = Some r) /\
  (match_ t (sub +:+ "." +:+ base) = None ->
   match_ t' (sub +:+ "." +:+ base) = Some r).
Proof.
  intros Hb t'. subst t'.
  destruct (wildcard_prefix_labels base Hb) as [Hw Hs].
  pose proof (under_base_not_empty sub base) as Hne.
  unfold match_, insert.
  destruct (String.eqb_spec ("*." +:+ base) EmptyString) as [E|_];
    [discriminate E|].
  destruct (String.eqb_spec base EmptyString); [contradiction|].
  destruct (String.eqb_spec (sub +:+ "." +:+ base) EmptyString);
    [contradiction|].
  rewrite Hw, Hs, under_base_labels. simpl root_. unfold matchImpl.
  pose proof (app_nil_r (splitAndReverse (lowercase base))) as Hnil.
  repeat split.
  - rewrite <- Hnil at 2. apply matchImpl_insertImpl_wildcard.
  - apply matchImpl_insertImpl_wildcard.
  - intros Hold. rewrite <- Hnil at 2.
    apply matchImpl_insertImpl_wildcard_none. rewrite Hnil. exact Hold.
  - apply matchImpl_insertImpl_wildcard_none.
Qed.

Lemma insert_wildcard_covers_witness :
  is_Some (match_ (insert S4_trie "*.example.com" (Some rule_log))
                  ("a.b" +:+ "." +:+ "example.com")).
Proof.
  apply (insert_wildcard_covers S4_trie "example.com" "a.b" rule_log).
  discriminate.
Defined.

(** X16. [insert] changes [match] only at the rule's own label path
    (an exact rule) or below it (a wildcard rule): every other domain is
    answered as before. *)
Theorem insert_leaves_other_domains (t : DomainTrie) (d d' : string)
    (r : Rule) :
  (if has_wildcard_prefix d
   then forall more, splitAndReverse (lowercase d') <> rule_labels d ++ more
   else splitAndReverse (lowercase d') <> rule_labels d) ->
  match_ (insert t d (Some r)) d' = match_ t d'.
Proof.
  intros Hother. unfold match_, insert.
  destruct (String.eqb d' EmptyString); [reflexivity|].
  destruct (String.eqb d EmptyString); [reflexivity|].
  simpl root_. unfold matchImpl.
  apply matchImpl_insertImpl_other. exact Hother.
Qed.

Lemma insert_leaves_other_domains_witness :
  match_ (insert S4_trie "*.example.com" (Some rule_log)) "example.org"
  = match_ S4_trie "example.org".
Proof.
  apply (insert_leaves_other_domains S4_trie "*.example.com"
           "example.org" rule_log).
  simpl. intros more. vm_compute. discriminate.
Defined.

(** X17. [remove] undoes an [insert] made where no rule of that kind was
    stored: it returns true, [size] is what it was, and every domain is
    matched as before the insert. *)
Theorem remove_undoes_insert (t : DomainTrie) (d : string) (r : Rule) :
  d <> EmptyString ->
  rule_at (root_ t) (rule_labels d) (has_wildcard_prefix d) = None ->
  0 <= size t < 2 ^ 64 ->
  let res := remove (insert t d (Some r)) d in
  fst res = true /\
  size (snd res) = size t /\
  forall d', match_ (snd res) d' = match_ t d'.
Proof.
  intros Hd Hnone Hsize res. subst res. unfold remove, insert.
  destruct (String.eqb_spec d EmptyString); [contradiction|].
  simpl root_. simpl rule_count_.
  destruct (removeImpl_insertImpl (has_wildcard_prefix d) r _ _ Hnone)
    as (root' & Hrm & Hsame).
  unfold rule_labels in Hrm. rewrite Hrm. simpl.
  split; [reflexivity|]. split.
  - unfold size. simpl. apply size_incr_decr. exact Hsize.
  - intros d'. unfold match_. simpl root_.
    destruct (String.eqb d' EmptyString); [reflexivity|].
    apply Hsame.
Qed.

Lemma remove_undoes_insert_witness :
  fst (remove (insert S4_trie "mail.example.com" (Some rule_log))
              "mail.example.com") = true.
Proof.
  apply (remove_undoes_insert S4_trie "mail.example.com" rule_log);
    [discriminate|reflexivity|vm_compute; split; congruence].
Defined.


(** X19. After [clear] the trie is as new: [size] is 0, [match] returns
    none for every domain and [remove] finds no rule. *)
Theorem clear_forgets (t : DomainTrie) (d : string) :
  size (clear t) = 0 /\
  match_ (clear t) d = None /\
  fst (remove (clear t) d) = false.
Proof.
  split; [reflexivity|]. split.
  - unfold match_, clear. destruct (String.eqb d EmptyString);
      [reflexivity|]. apply matchImpl_loop_new_node.
  - unfold remove, clear.
    destruct (String.eqb d EmptyString); [reflexivity|].
    simpl root_.
    destruct (splitAndReverse _) as [|l ls];
      destruct (has_wildcard_prefix d); reflexivity.
Qed.

(** ** The filter engine *)

Lemma check_keeps_stats_add_up (e : FilterEngine) (domain : option string)
    (qtype : Z) :
  stats_add_up (getStats e) ->
  stats_add_up (getStats (snd (check e domain qtype))).
Proof.
  unfold stats_add_up, check, getStats. simpl.
  change (2 ^ 64) with 18446744073709551616.
  intros (Ht & Ha & Hb & Hr & Hl & Hsum).
  destruct (match_chars (trie_ e) domain) as [rule|];
    [destruct (action rule)|]; simpl; unfold fetch_add1;
    change (2 ^ 64) with 18446744073709551616;
    repeat split; try lia; try lia_div.
Qed.

(** X20. The statistics of an engine add up after every sequence of
    calls of [check], [addRule] and [resetStats] on a new engine:
    [total_checks] is the sum of [allowed], [blocked], [redirected] and
    [logged] modulo 2^64, and every counter is below 2^64. *)
Theorem engine_stats_add_up (cs : list EngineCall) :
  stats_add_up (getStats (engine_calls new_engine cs)).
Proof.
  unfold engine_calls.
  assert (H0 : stats_add_up (getStats new_engine)).
  { unfold stats_add_up. simpl. repeat split; try lia. }
  revert H0. generalize new_engine.
  induction cs as [|c cs IH]; intros e He; [exact He|].
  simpl. apply IH. destruct c as [domain qtype|rule domain|]; simpl.
  - apply check_keeps_stats_add_up. exact He.
  - exact He.
  - unfold stats_add_up. simpl. repeat split; try lia.
Qed.

(** X21. A rule added for a domain without wildcard prefix is the rule
    the next [check] of that domain applies, in any case of the
    letters and for any query type: the result carries the action of the
    rule and the rule; [addRule] stores the rule after the rules stored
    before and leaves the counters as they were, and [check] leaves the
    trie and the stored rules as they were. *)
Theorem addRule_then_check (e : FilterEngine) (r : Rule) (d : string)
    (qtype : Z) :
  d <> EmptyString -> has_wildcard_prefix d = false ->
  let e' := addRule e r (Some d) in
  fst (check e' (Some d) qtype) = mkFilterResult (action r) (Some r) /\
  fst (check e' (Some (uppercase d)) qtype)
    = mkFilterResult (action r) (Some r) /\
  rules_storage_ e' = rules_storage_ e ++ [r] /\
  getStats e' = getStats e /\
  trie_ (snd (check e' (Some d) qtype)) = trie_ e' /\
  rules_storage_ (snd (check e' (Some d) qtype)) = rules_storage_ e'.
Proof.
  intros Hd Hw e'. subst e'.
  assert (Hm : match_ (insert (trie_ e) d (Some r)) d = Some r)
    by (apply match_insert_exact; auto).
  assert (Hu : match_ (insert (trie_ e) d (Some r)) (uppercase d) = Some r).
  { apply match_insert_exact; auto.
    - destruct d; [congruence|discriminate].
    - rewrite lowercase_uppercase. reflexivity. }
  unfold check, addRule.
  cbn [trie_ rules_storage_ match_chars insert_chars].
  rewrite Hm, Hu.
  repeat split; destruct (action r); reflexivity.
Qed.

Lemma addRule_then_check_witness :
  fst (check (addRule new_engine rule_block (Some "ads.example.com"))
             (Some "ads.example.com") 1)
  = mkFilterResult Block (Some rule_block).
Proof.
  apply (addRule_then_check new_engine rule_block "ads.example.com" 1);
    [discriminate|reflexivity].
Defined.

(** ** The facade: building a response *)

Lemma build_return_fits (n : Z) (out : list byte) (response_len : Z)
    (g : Counters) :
  0 < n ->
  build_return (Some (n, out)) response_len g
  = Some (XDP_DNS_OK, out, n, count_built g).
Proof.
  intros Hn. unfold build_return. case_eqb n 0; [lia|reflexivity].
Qed.

(** X22. The three entry points that build a response return the code
    of the parser and leave the buffer, [*response_len] and the counters
    as they were when the original packet does not parse; when it
    parses, they return [XDP_DNS_ERR_BUFFER_TOO_SMALL], again with no
    effect, for a buffer under [total_consumed] bytes (plus 16 for an A
    and 28 for an AAAA answer), and otherwise [XDP_DNS_OK], with the
    response of the builder, that length in [*response_len] and
    [response_built] counted. They never read through a null header and
    ask for no query: a parsed response is answered too. *)
Theorem facade_build_status (host_le : bool) (parsed0 : DNSParseResult)
    (packet ipv6 buf : list byte) (ip ttl len0 : Z) (g : Counters)
    (err : Error) (parsed : DNSParseResult) :
  parse_at host_le packet parsed0 = (err, parsed) ->
  buf_len ipv6 = 16 ->
  let nx := xdp_dns_build_nxdomain host_le parsed0 packet buf len0 g in
  let a := xdp_dns_build_a_response host_le parsed0 packet ip ttl buf
                                    len0 g in
  let aaaa := xdp_dns_build_aaaa_response host_le parsed0 packet ipv6 ttl
                                          buf len0 g in
  let tc := total_consumed parsed in
  (err <> Success ->
   nx = Some (Error_to_int err, buf, len0, g) /\
   a = Some (Error_to_int err, buf, len0, g) /\
   aaaa = Some (Error_to_int err, buf, len0, g)) /\
  (err = Success ->
   nx = (if buf_len buf <? tc
         then Some (XDP_DNS_ERR_BUFFER_TOO_SMALL, buf, len0, g)
         else option_map (fun b => (XDP_DNS_OK, snd b, tc, count_built g))
                (buildNXDomain host_le packet parsed buf)) /\
   a = (if buf_len buf <? tc + 16
        then Some (XDP_DNS_ERR_BUFFER_TOO_SMALL, buf, len0, g)
        else option_map
               (fun b => (XDP_DNS_OK, snd b, tc + 16, count_built g))
               (buildAResponse host_le packet parsed ip ttl buf)) /\
   aaaa = (if buf_len buf <? tc + 28
           then Some (XDP_DNS_ERR_BUFFER_TOO_SMALL, buf, len0, g)
           else option_map
                  (fun b => (XDP_DNS_OK, snd b, tc + 28, count_built g))
                  (buildAAAAResponse host_le packet parsed ipv6 ttl buf)) /\
   is_Some (buildNXDomain host_le packet parsed buf) /\
   is_Some (buildAResponse host_le packet parsed ip ttl buf) /\
   is_Some (buildAAAAResponse host_le packet parsed ipv6 ttl buf)).
Proof.
  intros Hparse H16 nx a aaaa tc. subst nx a aaaa tc.
  unfold xdp_dns_build_nxdomain, xdp_dns_build_a_response,
    xdp_dns_build_aaaa_response.
  rewrite Hparse. split.
  - intros Herr. rewrite (Error_eqb_Success _ Herr). auto.
  - intros ->. change (negb (Error_eqb Success Success)) with false.
    cbv iota.
    destruct (parse_at_success_fields _ _ _ _ Hparse)
      as (Hend & Htc & Hhdr & _).
    rewrite <- Htc in Hend.
    set (tc := total_consumed parsed) in *.
    assert (Hnx : buf_len buf < tc \/ tc <= buf_len buf) by lia.
    assert (Ha : buf_len buf < tc + 16 \/ tc + 16 <= buf_len buf) by lia.
    assert (Haaaa : buf_len buf < tc + 28 \/ tc + 28 <= buf_len buf) by lia.
    repeat split.
    + case_ltb (buf_len buf) tc.
      * unfold buildNXDomain. fold tc.
        case_ltb (buf_len buf) tc; [reflexivity|lia].
      * destruct (error_response_form host_le packet parsed buf Hhdr
                    ltac:(fold tc; lia) ltac:(fold tc; lia)) as (-> & _).
        fold tc. simpl option_map. apply build_return_fits. lia.
    + case_ltb (buf_len buf) (tc + 16).
      * unfold buildAResponse. fold tc.
        case_ltb (buf_len buf) (tc + 16); [reflexivity|lia].
      * destruct (answer_response_form host_le packet parsed ip ttl ipv6 buf
                    Hhdr ltac:(fold tc; lia)) as (Hf & _).
        rewrite Hf by (fold tc; lia).
        fold tc. simpl option_map. apply build_return_fits. lia.
    + case_ltb (buf_len buf) (tc + 28).
      * unfold buildAAAAResponse. fold tc.
        case_ltb (buf_len buf) (tc + 28); [reflexivity|lia].
      * destruct (answer_response_form host_le packet parsed ip ttl ipv6 buf
                    Hhdr ltac:(fold tc; lia)) as (_ & Hf).
        rewrite Hf by (fold tc; lia || exact H16).
        fold tc. simpl option_map. apply build_return_fits. lia.
    + unfold buildNXDomain. rewrite Hhdr.
      destruct (_ <? _); eauto.
    + unfold buildAResponse. rewrite Hhdr.
      destruct (_ <? _); eauto.
    + unfold buildAAAAResponse. rewrite Hhdr.
      destruct (_ <? _); eauto.
Qed.

Lemma facade_build_status_witness :
  exists out : list byte,
    xdp_dns_build_nxdomain true blank_result S1_packet (repeat x00 64) 0
                           zero_counters
    = Some (XDP_DNS_OK, out, 33, count_built zero_counters).
Proof.
  destruct (facade_build_status true blank_result S1_packet (repeat x01 16)
              (repeat x00 64) 0 300 0 zero_counters Success
              (snd (parse_at true S1_packet blank_result))
              eq_refl eq_refl) as (_ & H).
  destruct (H eq_refl) as (Hnx & _ & _ & (b & Hb) & _).
  rewrite Hnx, Hb. exists (snd b). reflexivity.
Defined.

(** ** The facade: parsing a query *)

Lemma datagram_store_head (bs buf : list byte) :
  datagram (buf_len bs) (store 0 bs buf) = bs.
Proof.
  unfold datagram, store, buf_len. rewrite Nat2Z.id. simpl.
  rewrite firstn_app, firstn_all, Nat.sub_diag. simpl.
  apply app_nil_r.
Qed.

Lemma datagram_store_after (n off : Z) (bs buf : list byte) :
  0 <= n <= off -> off <= buf_len buf ->
  datagram n (store off bs buf) = datagram n buf.
Proof.
  unfold datagram, store, buf_len. intros Hn Hoff.
  rewrite firstn_app, length_firstn.
  replace (Z.to_nat n - Init.Nat.min (Z.to_nat off) (length buf))%nat
    with 0%nat by lia.
  simpl. rewrite app_nil_r, firstn_firstn. f_equal. lia.
Qed.

(** X23. For a packet that parses as a query and a result with the 256
    bytes of [domain], [xdp_dns_parse] returns [XDP_DNS_OK] exactly when
    the decoded name fits ([name_wire_len] at most 258). It then counts
    the packet as received and parsed, stores the ID, the flags, the
    type, the class, the offsets and the decoded name with its length,
    and ends the name with a NUL byte unless it is empty or fills the
    buffer. A longer name returns -6, the code of [BufferTooSmall],
    which is none of the statuses of the facade, and counts a parse
    error. *)
Theorem facade_parse_query (host_le : bool) (parsed0 parsed : DNSParseResult)
    (packet : list byte) (res : XDPDNSParseResult) (g : Counters) :
  parse_at host_le packet parsed0 = (Success, parsed) ->
  is_query parsed = true ->
  buf_len (x_domain res) = 256 ->
  let r := xdp_dns_parse host_le parsed0 (Some packet) (Some res) g in
  let w := name_wire_len (question parsed) in
  (w <= 258 ->
   exists res' : XDPDNSParseResult,
     r = (XDP_DNS_OK, Some res', count_parsed (count_received g)) /\
     x_id res' = id parsed /\ x_flags res' = flags parsed /\
     x_qtype res' = qtype (question parsed) /\
     x_qclass res' = qclass (question parsed) /\
     x_name_offset res' = 12 /\
     x_question_end res' = question_end parsed /\
     x_domain_len res' = Z.max 0 (w - 2) /\
     buf_len (x_domain res') = 256 /\
     datagram (x_domain_len res') (x_domain res')
       = snd (decodeName packet 12 256) /\
     (0 < x_domain_len res' < 256 ->
      byte_at (x_domain res') (x_domain_len res') = 0) /\
     (x_domain_len res' = 0 -> x_domain res' = x_domain res)) /\
  (258 < w ->
   status_of r = -6 /\
   snd r = count_parse_error (count_received g)).
Proof.
  intros Hparse Hq H256 r w. subst r w.
  destruct (parse_at_success_fields _ _ _ _ Hparse)
    as (Hend & _ & _ & _ & Hoff & _).
  destruct (parse_at_success _ _ _ _ Hparse)
    as (name_end & wire_len & Hscan & _ & _ & _ & Hp).
  assert (Hw : name_wire_len (question parsed) = wire_len)
    by (rewrite Hp; reflexivity).
  destruct (decodeName_after_scan packet name_end wire_len 256 Hscan
              ltac:(lia)) as (Hok & Hsmall).
  unfold DNS_HEADER_SIZE in *.
  unfold xdp_dns_parse. rewrite Hparse.
  case_ltb (buf_len packet) 12; [lia|].
  change (negb (Error_eqb Success Success)) with false. cbv iota.
  rewrite Hq, Hoff, H256, Hw. simpl negb. cbv iota.
  destruct (decodeName packet 12 256) as [err out] eqn:Edec.
  simpl fst in *. simpl snd in *.
  split.
  - intros Hfit. destruct Hok as (-> & Hlen); [lia|].
    change (negb (Error_eqb Success Success)) with false. cbv iota.
    eexists. split; [reflexivity|].
    cbn [x_id x_flags x_qtype x_qclass x_name_offset x_question_end
         x_domain x_domain_len].
    assert (Hs0 : buf_len (store 0 out (x_domain res)) = 256)
      by (rewrite store_length; lia).
    repeat split; try reflexivity; try exact Hlen.
    + destruct ((buf_len out >? 0) && (buf_len out <? 256)) eqn:E;
        [|exact Hs0].
      apply andb_true_iff in E. destruct E as [E1 E2].
      rewrite store_length; rewrite ?buf_len_single; lia.
    + destruct ((buf_len out >? 0) && (buf_len out <? 256)) eqn:E;
        [|apply datagram_store_head].
      apply andb_true_iff in E. destruct E as [E1 E2].
      rewrite datagram_store_after by lia. apply datagram_store_head.
    + intros Hin.
      assert (E : (buf_len out >? 0) && (buf_len out <? 256) = true)
        by (apply andb_true_iff; split; lia).
      rewrite E. rewrite byte_at_store_inside;
        rewrite ?buf_len_single; try lia.
      replace (buf_len out - buf_len out) with 0 by lia. reflexivity.
    + intros H0.
      assert (E : (buf_len out >? 0) = false) by lia.
      rewrite E. simpl andb. cbv iota.
      destruct out; [|discriminate H0].
      unfold store. simpl. reflexivity.
  - intros Hbig. rewrite Hsmall by lia.
    change (negb (Error_eqb BufferTooSmall Success)) with true. cbv iota.
    split; reflexivity.
Qed.

Lemma facade_parse_query_witness :
  status_of (xdp_dns_parse true blank_result (Some long_name_packet)
               (Some blank_xresult) zero_counters) = -6.
Proof.
  apply (facade_parse_query true blank_result
           (snd (parse_at true long_name_packet blank_result))
           long_name_packet blank_xresult zero_counters);
    [vm_compute; reflexivity|reflexivity|reflexivity|
     vm_compute; reflexivity].
Defined.

(** ** Comparing a name with a text *)

Lemma to_u8_u8 (b : byte) : to_u8 (u8 b) = b.
Proof.
  unfold to_u8, u8. pose proof (Byte.to_N_bounded b) as Hb.
  rewrite Z.mod_small by lia. rewrite N2Z.id, Byte.of_to_N. reflexivity.
Qed.

Lemma u8_inj (a b : byte) : u8 a = u8 b -> a = b.
Proof.
  intros H. rewrite <- (to_u8_u8 a), <- (to_u8_u8 b), H. reflexivity.
Qed.

(** Two buffers of one length that hold the same byte at every offset
    are the same. *)
Lemma bytes_ext (a b : list byte) :
  buf_len a = buf_len b ->
  (forall i, 0 <= i < buf_len a -> byte_at a i = byte_at b i) ->
  a = b.
Proof.
  unfold buf_len, byte_at. intros Hlen Hbytes.
  apply (nth_ext a b x00 x00); [lia|].
  intros n Hn. apply u8_inj.
  specialize (Hbytes (Z.of_nat n) ltac:(lia)).
  rewrite Nat2Z.id in Hbytes. exact Hbytes.
Qed.

Lemma tolower_range (x : Z) : 0 <= x < 256 -> 0 <= tolower x < 256.
Proof.
  unfold tolower. intros Hx.
  destruct ((65 <=? x) && (x <=? 90)) eqn:E; [|lia].
  apply andb_true_iff in E. destruct E as [E1 E2]. lia.
Qed.

Lemma tolower_dot (x : Z) : tolower x = 46 <-> x = 46.
Proof.
  unfold tolower.
  destruct ((65 <=? x) && (x <=? 90)) eqn:E; [|tauto].
  apply andb_true_iff in E. destruct E as [E1 E2]. lia.
Qed.

Lemma lower_bytes_length (bs : list byte) :
  buf_len (lower_bytes bs) = buf_len bs.
Proof. unfold buf_len, lower_bytes. rewrite length_map. reflexivity. Qed.

Lemma byte_at_lower_bytes (bs : list byte) (k : Z) :
  0 <= k < buf_len bs ->
  byte_at (lower_bytes bs) k = tolower (byte_at bs k).
Proof.
  unfold buf_len, byte_at, lower_bytes. intros Hk.
  rewrite (nth_indep _ x00 (to_u8 (tolower (u8 x00))))
    by (rewrite length_map; lia).
  rewrite (map_nth (fun b => to_u8 (tolower (u8 b)))).
  rewrite u8_to_u8. apply Z.mod_small. apply tolower_range, u8_range.
Qed.

Lemma byte_at_skipn (d : list byte) (p k : Z) :
  0 <= p -> 0 <= k ->
  byte_at (skipn (Z.to_nat p) d) k = byte_at d (p + k).
Proof.
  unfold byte_at. intros Hp Hk. f_equal.
  rewrite nth_skipn. f_equal. lia.
Qed.

Lemma byte_at_firstn (d : list byte) (c k : Z) :
  0 <= k < c -> byte_at (firstn (Z.to_nat c) d) k = byte_at d k.
Proof. apply byte_at_datagram. Qed.

Lemma byte_at_app_left (a b : list byte) (k : Z) :
  0 <= k < buf_len a -> byte_at (a ++ b) k = byte_at a k.
Proof.
  unfold byte_at, buf_len. intros Hk. f_equal. apply app_nth1. lia.
Qed.

Lemma byte_at_lower_label (data : list byte) (off n k : Z) :
  0 <= k < n ->
  byte_at (lower_label data off n) k = tolower (byte_at data (off + k)).
Proof.
  unfold byte_at at 1. unfold lower_label. intros Hk.
  rewrite (nth_indep _ x00
             ((fun i => to_u8 (tolower (byte_at data (off + Z.of_nat i))))
                0%nat))
    by (rewrite length_map, length_seq; lia).
  rewrite (map_nth (fun i => to_u8 (tolower (byte_at data
                                               (off + Z.of_nat i))))).
  rewrite seq_nth by lia. simpl Nat.add.
  rewrite u8_to_u8, Z2Nat.id by lia.
  apply Z.mod_small. apply tolower_range, byte_at_range.
Qed.

Lemma skipn_length_Z (d : list byte) (p : Z) :
  0 <= p <= buf_len d -> buf_len (skipn (Z.to_nat p) d) = buf_len d - p.
Proof. unfold buf_len. intros Hp. rewrite length_skipn. lia. Qed.

(** A text whose lowered form starts with the bytes [L]: it has them,
    up to case, and its rest gives the rest. *)
Lemma lower_skipn_split (d L R : list byte) (p : Z) :
  0 <= p <= buf_len d ->
  lower_bytes (skipn (Z.to_nat p) d) = L ++ R <->
  p + buf_len L <= buf_len d /\
  (forall k, 0 <= k < buf_len L ->
             tolower (byte_at d (p + k)) = byte_at L k) /\
  lower_bytes (skipn (Z.to_nat (p + buf_len L)) d) = R.
Proof.
  intros Hp. pose proof (buf_len_nonneg L) as HL.
  assert (Hsplit : lower_bytes (skipn (Z.to_nat p) d)
                   = lower_bytes (firstn (Z.to_nat (buf_len L))
                                         (skipn (Z.to_nat p) d))
                     ++ lower_bytes (skipn (Z.to_nat (p + buf_len L)) d)).
  { unfold lower_bytes. rewrite <- map_app. f_equal.
    rewrite <- (firstn_skipn (Z.to_nat (buf_len L))
                  (skipn (Z.to_nat p) d)) at 1.
    f_equal. rewrite skipn_skipn. f_equal. lia. }
  split.
  - intros H.
    assert (Hlen : buf_len d - p = buf_len L + buf_len R).
    { rewrite <- skipn_length_Z by lia.
      rewrite <- lower_bytes_length, H. apply buf_len_app. }
    pose proof (buf_len_nonneg R) as HR.
    split; [lia|]. split.
    + intros k Hk. rewrite <- (byte_at_app_left L R) by lia.
      rewrite <- H, byte_at_lower_bytes
        by (rewrite skipn_length_Z; lia).
      rewrite byte_at_skipn by lia. reflexivity.
    + apply (f_equal (skipn (Z.to_nat (buf_len L)))) in H.
      unfold lower_bytes in H. rewrite skipn_map, skipn_skipn in H.
      rewrite skipn_app in H.
      replace (Z.to_nat (buf_len L) - length L)%nat with 0%nat in H
        by (unfold buf_len; lia).
      rewrite (skipn_all2 (n := Z.to_nat (buf_len L)) L) in H
        by (unfold buf_len; lia).
      rewrite skipn_O in H. simpl in H. rewrite <- H.
      unfold lower_bytes. do 2 f_equal. lia.
  - intros (Hfit & Hbytes & Hrest).
    rewrite Hsplit, Hrest. f_equal.
    assert (Hl : buf_len (firstn (Z.to_nat (buf_len L))
                            (skipn (Z.to_nat p) d)) = buf_len L).
    { unfold buf_len in *. rewrite length_firstn, length_skipn. lia. }
    apply bytes_ext.
    + rewrite lower_bytes_length. exact Hl.
    + intros i Hi. rewrite lower_bytes_length, Hl in Hi.
      rewrite byte_at_lower_bytes by lia.
      rewrite byte_at_firstn, byte_at_skipn by lia.
      apply Hbytes. lia.
Qed.

(** The [for] loop of [domainEquals] succeeds exactly when the text
    holds the bytes of the label, up to case. *)
Lemma compare_label_spec (packet domain : list byte) (offset : Z) :
  forall (count : nat) (i p : Z),
    0 <= p <= buf_len domain ->
    match compare_label count packet offset i domain p with
    | Some p' =>
      p' = p + Z.of_nat count /\ p' <= buf_len domain /\
      forall k, 0 <= k < Z.of_nat count ->
        tolower (byte_at domain (p + k))
        = tolower (byte_at packet (offset + i + k))
    | None =>
      ~ (p + Z.of_nat count <= buf_len domain /\
         forall k, 0 <= k < Z.of_nat count ->
           tolower (byte_at domain (p + k))
           = tolower (byte_at packet (offset + i + k)))
    end.
Proof.
  induction count as [|count IH]; intros i p Hp.
  - simpl. split; [lia|]. split; [lia|]. intros k Hk. lia.
  - cbn [compare_label]. flip_cmp.
    case_leb (buf_len domain) p; [intros [H _]; lia|].
    case_eqb (tolower (byte_at packet (offset + i)))
             (tolower (byte_at domain p)); simpl negb; cbv iota.
    + specialize (IH (i + 1) (p + 1) ltac:(lia)).
      destruct (compare_label count packet offset (i + 1) domain (p + 1))
        as [p'|].
      * destruct IH as (-> & Hle & Hbytes).
        split; [lia|]. split; [lia|].
        intros k Hk. destruct (Z.eq_dec k 0) as [->|Hk0].
        -- rewrite !Z.add_0_r. congruence.
        -- specialize (Hbytes (k - 1) ltac:(lia)).
           replace (p + 1 + (k - 1)) with (p + k) in Hbytes by lia.
           replace (offset + (i + 1) + (k - 1)) with (offset + i + k)
             in Hbytes by lia.
           exact Hbytes.
      * intros (Hfit & Hbytes). apply IH. split; [lia|].
        intros k Hk. specialize (Hbytes (k + 1) ltac:(lia)).
        replace (p + 1 + k) with (p + (k + 1)) by lia.
        replace (offset + (i + 1) + k) with (offset + i + (k + 1)) by lia.
        exact Hbytes.
    + intros (_ & Hbytes). specialize (Hbytes 0 ltac:(lia)).
      rewrite !Z.add_0_r in Hbytes. congruence.
Qed.

Lemma dotted_name_S (fuel : nat) (data : list byte) (offset : Z)
    (first_label : bool) :
  dotted_name (S fuel) data offset first_label =
    if byte_at data offset =? 0 then []
    else (if first_label then [] else [to_u8 46])
           ++ lower_label data (offset + 1) (byte_at data offset)
           ++ dotted_name fuel data (offset + 1 + byte_at data offset) false.
Proof. reflexivity. Qed.

(** What [decodeName] has written when it succeeds on an uncompressed
    name. *)
Lemma decodeName_loop_dotted (data : list byte) (buf_size : Z) :
  forall (fuel : nat) (offset n : Z) (out out' : list byte) (jc : Z)
         (first_label : bool),
    prefix_scan fuel data offset = Some (n, EndZero) ->
    decodeName_loop fuel data offset out buf_size jc first_label
      = Some (Success, out') ->
    out' = out ++ dotted_name fuel data offset first_label.
Proof.
  induction fuel as [|fuel IH];
    intros offset n out out' jc first_label Hp Hdec; [discriminate|].
  rewrite prefix_scan_S in Hp. rewrite decodeName_loop_S in Hdec.
  rewrite dotted_name_S. revert Hp Hdec.
  destruct (negb (jc <? MAX_LABELS)); [discriminate|].
  destruct (offset >=? buf_len data); [discriminate|].
  destruct (byte_at data offset =? 0).
  { intros _ [= <-]. rewrite app_nil_r. reflexivity. }
  destruct (Z.land (byte_at data offset) 192 =? 192); [discriminate|].
  destruct ((byte_at data offset >? 63)
            || (offset + 1 + byte_at data offset >? buf_len data));
    [discriminate|].
  destruct (prefix_scan fuel data (offset + 1 + byte_at data offset))
    as [[m k]|] eqn:E; [|discriminate].
  intros [= <- ->].
  destruct (negb first_label && _); [discriminate|].
  destruct (_ >? buf_size); [discriminate|].
  intros Hdec. rewrite (IH _ _ _ _ _ _ E Hdec).
  destruct first_label; simpl negb; cbv iota;
    rewrite <- ?app_assoc; reflexivity.
Qed.

Lemma dotted_name_at_zero (fuel : nat) (data : list byte) (offset : Z)
    (first_label : bool) :
  byte_at data offset = 0 -> dotted_name fuel data offset first_label = [].
Proof.
  intros H0. destruct fuel; [reflexivity|].
  rewrite dotted_name_S, H0. reflexivity.
Qed.

Lemma dotted_name_dot (fuel : nat) (data : list byte) (offset : Z) :
  byte_at data offset <> 0 ->
  dotted_name fuel data offset false
  = match fuel with
    | O => []
    | S _ => to_u8 46 :: dotted_name fuel data offset true
    end.
Proof.
  intros Hb. destruct fuel; [reflexivity|].
  rewrite !dotted_name_S. case_eqb (byte_at data offset) 0; [contradiction|].
  reflexivity.
Qed.

(** One turn of the loop of [domainEquals] unfolded. *)
Lemma domainEquals_loop_S (fuel : nat) (packet : list byte) (offset : Z)
    (domain : list byte) (p jc : Z) :
  domainEquals_loop (S fuel) packet offset domain p jc =
    if negb (jc <? MAX_LABELS) then Some false
    else if offset >=? buf_len packet then Some false
    else if byte_at packet offset =? 0 then Some (p =? buf_len domain)
    else if Z.land (byte_at packet offset) 0xC0 =? 0xC0 then
      if offset + 1 >=? buf_len packet then Some false
      else domainEquals_loop fuel packet
             (Z.lor (Z.shiftl (Z.land (byte_at packet offset) 0x3F) 8)
                    (byte_at packet (offset + 1)))
             domain p (jc + 1)
    else
      match compare_label (Z.to_nat (byte_at packet offset)) packet
                          (offset + 1) 0 domain p with
      | None => Some false
      | Some p' =>
        if negb (byte_at packet (offset + 1 + byte_at packet offset) =? 0)
        then
          if (p' >=? buf_len domain) || negb (byte_at domain p' =? 46)
          then Some false
          else domainEquals_loop fuel packet
                 (offset + 1 + byte_at packet offset) domain (p' + 1) jc
        else domainEquals_loop fuel packet
               (offset + 1 + byte_at packet offset) domain p' jc
      end.
Proof. reflexivity. Qed.

Lemma domainEquals_loop_total (packet domain : list byte) :
  forall (fuel : nat) (offset p jc : Z),
    jc <= MAX_LABELS ->
    turns_left packet offset jc <= Z.of_nat fuel ->
    domainEquals_loop fuel packet offset domain p jc <> None.
Proof.
  induction fuel as [|fuel IH]; intros offset p jc Hle Hfuel.
  - pose proof (turns_left_pos packet offset jc Hle). lia.
  - rewrite domainEquals_loop_S. flip_cmp.
    pose proof (byte_at_range packet offset) as Hb.
    case_ltb jc MAX_LABELS; simpl negb; cbv iota; [|discriminate].
    case_leb (buf_len packet) offset; [discriminate|].
    case_eqb (byte_at packet offset) 0; [discriminate|].
    assert (Hstep : turns_left packet (offset + 1 + byte_at packet offset) jc
                    <= Z.of_nat fuel).
    { pose proof (turns_left_label packet offset
                    (1 + byte_at packet offset) jc).
      replace (offset + 1 + byte_at packet offset)
        with (offset + (1 + byte_at packet offset)) by lia.
      lia. }
    destruct (Z.land (byte_at packet offset) 192 =? 192).
    + case_leb (buf_len packet) (offset + 1); [discriminate|].
      apply IH; [lia|].
      pose proof (turns_left_jump packet offset _ jc Hcmp Hcmp0
                    (pointer_target_nonneg packet offset)). lia.
    + destruct (compare_label _ _ _ _ _ _) as [p'|]; [|discriminate].
      destruct (negb _).
      * destruct (_ || _); [discriminate|]. apply IH; [lia|exact Hstep].
      * apply IH; [lia|exact Hstep].
Qed.

Lemma domainEquals_loop_mono (packet domain : list byte) (r : bool) :
  forall (fuel fuel' : nat) (offset p jc : Z),
    domainEquals_loop fuel packet offset domain p jc = Some r ->
    (fuel <= fuel')%nat ->
    domainEquals_loop fuel' packet offset domain p jc = Some r.
Proof.
  induction fuel as [|fuel IH]; intros fuel' offset p jc Hr Hle;
    [discriminate|].
  destruct fuel' as [|fuel']; [lia|].
  rewrite domainEquals_loop_S in Hr |- *.
  destruct (compare_label _ _ _ _ _ _) as [p'|];
    repeat match goal with
           | H : context [if ?c then _ else _] |- _ => destruct c
           end; try assumption; apply IH; try assumption; lia.
Qed.

Lemma domainEquals_fuel (packet : list byte) (q : DNSQuestion)
    (domain : list byte) (fuel : nat) (r : bool) :
  domainEquals_loop fuel packet (name_offset q) domain 0 0 = Some r ->
  0 <= name_offset q ->
  domainEquals packet q domain = r.
Proof.
  intros Hr Hoff. unfold domainEquals.
  destruct (domainEquals_loop (name_fuel packet) packet (name_offset q)
              domain 0 0) as [r'|] eqn:E.
  - destruct (Nat.le_ge_cases fuel (name_fuel packet)) as [Hle|Hle].
    + rewrite (domainEquals_loop_mono _ _ _ _ _ _ _ _ Hr Hle) in E.
      congruence.
    + rewrite (domainEquals_loop_mono _ _ _ _ _ _ _ _ E Hle) in Hr.
      congruence.
  - exfalso. revert E. apply domainEquals_loop_total.
    + unfold MAX_LABELS. lia.
    + apply name_fuel_enough. assumption.
Qed.

Lemma lower_skipn_nil (d : list byte) (p : Z) :
  0 <= p <= buf_len d ->
  lower_bytes (skipn (Z.to_nat p) d) = [] <-> p = buf_len d.
Proof.
  intros Hp. split.
  - intros H. apply (f_equal buf_len) in H.
    rewrite lower_bytes_length, skipn_length_Z in H by lia.
    change (buf_len []) with 0 in H. lia.
  - intros ->. unfold buf_len. rewrite Nat2Z.id, skipn_all. reflexivity.
Qed.

(** On an uncompressed name [domainEquals] answers whether the text,
    lowered, is the dotted name. *)
Lemma domainEquals_loop_dotted (data domain : list byte) :
  forall (fuel : nat) (offset n p jc : Z),
    prefix_scan fuel data offset = Some (n, EndZero) ->
    jc < MAX_LABELS -> 0 <= p <= buf_len domain ->
    exists b : bool,
      domainEquals_loop fuel data offset domain p jc = Some b /\
      (b = true <->
       lower_bytes (skipn (Z.to_nat p) domain)
       = dotted_name fuel data offset true).
Proof.
  induction fuel as [|fuel IH]; intros offset n p jc Hscan Hjc Hp;
    [discriminate|].
  rewrite prefix_scan_S in Hscan. rewrite domainEquals_loop_S.
  rewrite dotted_name_S. revert Hscan.
  pose proof (byte_at_range data offset) as Hb.
  case_ltb jc MAX_LABELS; [|lia]. simpl negb. cbv iota.
  destruct (offset >=? buf_len data); [discriminate|].
  case_eqb (byte_at data offset) 0.
  { intros _. eexists. split; [reflexivity|].
    rewrite lower_skipn_nil by lia. apply Z.eqb_eq. }
  destruct (Z.land (byte_at data offset) 192 =? 192); [discriminate|].
  destruct ((byte_at data offset >? 63)
            || (offset + 1 + byte_at data offset >? buf_len data));
    [discriminate|].
  destruct (prefix_scan fuel data (offset + 1 + byte_at data offset))
    as [[m k]|] eqn:E; [|discriminate].
  intros [= <- ->].
  set (l := byte_at data offset) in *.
  set (L := lower_label data (offset + 1) l).
  assert (HL : buf_len L = l) by (apply lower_label_length; lia).
  cbn [app].
  pose proof (compare_label_spec data domain (offset + 1) (Z.to_nat l) 0 p
                Hp) as Hlab.
  rewrite Z2Nat.id in Hlab by lia.
  pose proof (lower_skipn_split domain L
                (dotted_name fuel data (offset + 1 + l) false) p Hp)
    as Hsplit.
  rewrite HL in Hsplit.
  assert (Hbytes : (forall k, 0 <= k < l ->
                      tolower (byte_at domain (p + k)) = byte_at L k) <->
                   (forall k, 0 <= k < l ->
                      tolower (byte_at domain (p + k))
                      = tolower (byte_at data (offset + 1 + 0 + k)))).
  { split; intros H k Hk; specialize (H k Hk); unfold L in *;
      rewrite byte_at_lower_label in * by lia;
      rewrite Z.add_0_r in *; exact H. }
  destruct (compare_label (Z.to_nat l) data (offset + 1) 0 domain p)
    as [p'|].
  2:{ exists false. split; [reflexivity|].
      split; [discriminate|]. intros H. exfalso. apply Hlab.
      apply Hsplit in H. destruct H as (Hfit & Hb1 & _).
      split; [exact Hfit|]. apply Hbytes. exact Hb1. }
  destruct Hlab as (-> & Hfit & Hb1).
  pose proof (proj2 Hbytes Hb1) as HbL.
  destruct fuel as [|fuel']; [discriminate E|].
  case_eqb (byte_at data (offset + 1 + l)) 0; simpl negb; cbv iota.
  - destruct (IH (offset + 1 + l) m (p + l) jc E Hjc ltac:(lia))
      as (b & Hloop & Hiff).
    exists b. split; [exact Hloop|].
    rewrite Hiff, Hsplit.
    rewrite !dotted_name_at_zero by assumption.
    tauto.
  - rewrite dotted_name_dot in Hsplit by assumption.
    pose proof (lower_skipn_split domain [to_u8 46]
                  (dotted_name (S fuel') data (offset + 1 + l) true)
                  (p + l) ltac:(lia)) as Hdot.
    change (buf_len [to_u8 46]) with 1 in Hdot.
    change (to_u8 46 :: dotted_name (S fuel') data (offset + 1 + l) true)
      with ([to_u8 46]
              ++ dotted_name (S fuel') data (offset + 1 + l) true)
      in Hsplit.
    flip_cmp.
    case_leb (buf_len domain) (p + l); simpl orb; cbv iota.
    { exists false. split; [reflexivity|].
      rewrite dotted_name_dot by assumption.
      split; [discriminate|]. intros H. exfalso.
      apply Hsplit in H. destruct H as (_ & _ & H).
      apply Hdot in H. lia. }
    destruct (Z.eqb_spec (byte_at domain (p + l)) 46) as [H46|H46];
      simpl negb; cbv iota.
    + destruct (IH (offset + 1 + l) m (p + l + 1) jc E Hjc ltac:(lia))
        as (b & Hloop & Hiff).
      exists b. split; [exact Hloop|].
      rewrite dotted_name_dot by assumption.
      rewrite Hiff, Hsplit, Hdot.
      split.
      * intros H. split; [lia|]. split; [exact HbL|].
        split; [lia|]. split; [|exact H].
        intros k Hk. replace k with 0 by lia.
        rewrite Z.add_0_r, H46. reflexivity.
      * intros (_ & _ & _ & _ & H). exact H.
    + exists false. split; [reflexivity|].
      rewrite dotted_name_dot by assumption.
      split; [discriminate|]. intros H. exfalso.
      apply Hsplit in H. destruct H as (_ & _ & H).
      apply Hdot in H. destruct H as (_ & H & _).
      specialize (H 0 ltac:(lia)). rewrite Z.add_0_r in H.
      change (byte_at [to_u8 46] 0) with 46 in H.
      apply (proj1 (tolower_dot _)) in H. contradiction.
Qed.

Lemma decodeName_loop_plain_some (data : list byte) (buf_size : Z) :
  forall (fuel : nat) (offset n : Z) (out : list byte) (jc : Z)
         (first_label : bool),
    prefix_scan fuel data offset = Some (n, EndZero) ->
    jc < MAX_LABELS ->
    exists r : Error * list byte,
      decodeName_loop fuel data offset out buf_size jc first_label = Some r.
Proof.
  induction fuel as [|fuel IH];
    intros offset n out jc first_label Hp Hjc; [discriminate|].
  rewrite prefix_scan_S in Hp. rewrite decodeName_loop_S. revert Hp.
  case_ltb jc MAX_LABELS; [|lia]. simpl negb. cbv iota.
  destruct (offset >=? buf_len data); [discriminate|].
  destruct (byte_at data offset =? 0); [eauto|].
  destruct (Z.land (byte_at data offset) 192 =? 192); [discriminate|].
  destruct ((byte_at data offset >? 63)
            || (offset + 1 + byte_at data offset >? buf_len data));
    [discriminate|].
  destruct (prefix_scan fuel data (offset + 1 + byte_at data offset))
    as [[m k]|] eqn:E; [|discriminate].
  intros [= <- ->].
  destruct (negb first_label && _); [eauto|].
  destruct (_ >? buf_size); [eauto|].
  apply (IH _ m); assumption.
Qed.

Lemma not_upper_tolower (b : byte) : not_upper b -> tolower (u8 b) = u8 b.
Proof.
  unfold not_upper, tolower. intros Hb.
  destruct ((65 <=? u8 b) && (u8 b <=? 90)) eqn:E; [|reflexivity].
  apply andb_true_iff in E. destruct E as [E1 E2]. lia.
Qed.

Lemma byte_at_not_upper (bs : list byte) (k : Z) :
  Forall not_upper bs -> tolower (byte_at bs k) = byte_at bs k.
Proof.
  intros Hall. unfold byte_at.
  destruct (Nat.lt_ge_cases (Z.to_nat k) (length bs)) as [Hlt|Hge].
  - apply not_upper_tolower.
    rewrite List.Forall_forall in Hall. apply Hall.
    apply nth_In. exact Hlt.
  - rewrite nth_overflow by exact Hge. reflexivity.
Qed.

Lemma lower_bytes_not_upper (bs : list byte) :
  Forall not_upper bs -> lower_bytes bs = bs.
Proof.
  intros Hall. apply bytes_ext; [apply lower_bytes_length|].
  intros i Hi. rewrite lower_bytes_length in Hi.
  rewrite byte_at_lower_bytes by lia. apply byte_at_not_upper. exact Hall.
Qed.

Lemma dot_not_upper : not_upper (to_u8 46).
Proof.
  unfold not_upper. rewrite u8_to_u8. change (46 mod 256) with 46. lia.
Qed.

Lemma dotted_name_not_upper (data : list byte) :
  forall (fuel : nat) (offset : Z) (first_label : bool),
    Forall not_upper (dotted_name fuel data offset first_label).
Proof.
  induction fuel as [|fuel IH]; intros offset first_label; [constructor|].
  rewrite dotted_name_S.
  destruct (byte_at data offset =? 0); [constructor|].
  apply Forall_app. split.
  - destruct first_label; [constructor|].
    constructor; [apply dot_not_upper|constructor].
  - apply Forall_app. split; [apply lower_label_not_upper|apply IH].
Qed.

(** X24. For a question whose name is uncompressed, [domainEquals]
    returns true exactly for the texts that are, with ASCII capitals
    lowered, the name [decodeName] gives; in particular for that name
    itself. *)
Theorem domainEquals_decoded (packet : list byte) (q : DNSQuestion)
    (domain name : list byte) (n buf_size : Z) :
  name_prefix packet (name_offset q) = Some (n, EndZero) ->
  0 <= name_offset q ->
  decodeName packet (name_offset q) buf_size = (Success, name) ->
  (domainEquals packet q domain = true <-> lower_bytes domain = name) /\
  domainEquals packet q name = true.
Proof.
  intros Hprefix Hoff Hdec. unfold name_prefix in Hprefix.
  destruct (decodeName_loop_plain_some packet buf_size _ _ _ [] 0 true
              Hprefix ltac:(reflexivity)) as (r & Hloop).
  rewrite (decodeName_fuel _ _ _ _ _ Hloop Hoff) in Hdec. subst r.
  pose proof (decodeName_loop_dotted _ _ _ _ _ _ _ _ _ Hprefix Hloop)
    as Hname.
  simpl app in Hname.
  assert (Hchar : forall text : list byte,
            domainEquals packet q text = true <-> lower_bytes text = name).
  { intros text.
    destruct (domainEquals_loop_dotted packet text _ _ n 0 0 Hprefix
                ltac:(reflexivity)
                ltac:(pose proof (buf_len_nonneg text); lia))
      as (b & Hb & Hiff).
    rewrite (domainEquals_fuel _ _ _ _ _ Hb Hoff).
    rewrite Hiff, Hname. reflexivity. }
  split; [apply Hchar|].
  apply Hchar. apply lower_bytes_not_upper.
  rewrite Hname. apply dotted_name_not_upper.
Qed.

Lemma domainEquals_decoded_witness :
  domainEquals S1_packet
    (question (snd (parse_at true S1_packet blank_result)))
    (bytes_of [0x57; 0x57; 0x57; 0x2E; 0x45; 0x78; 0x61; 0x6D; 0x70; 0x6C;
               0x65; 0x2E; 0x43; 0x4F; 0x4D]) = true.
Proof.
  pose proof (domainEquals_decoded S1_packet
                (question (snd (parse_at true S1_packet blank_result)))
                (bytes_of [0x57; 0x57; 0x57; 0x2E; 0x45; 0x78; 0x61; 0x6D;
                           0x70; 0x6C; 0x65; 0x2E; 0x43; 0x4F; 0x4D])
                (snd (decodeName S1_packet 12 256)) 16 256
                eq_refl ltac:(vm_compute; congruence) eq_refl) as [H _].
  apply H. reflexivity.
Defined.

(** ** A name that ends with a suffix *)

Lemma compare_suffix_spec (domain_buf suffix : list byte) (start : Z) :
  forall (count : nat) (i : Z),
    compare_suffix count domain_buf start suffix i = true <->
    forall k, 0 <= k < Z.of_nat count ->
      tolower (byte_at domain_buf (start + (i + k)))
      = tolower (byte_at suffix (i + k)).
Proof.
  induction count as [|count IH]; intros i.
  - simpl. split; [intros _ k Hk; lia|reflexivity].
  - cbn [compare_suffix].
    destruct (Z.eqb_spec (tolower (byte_at domain_buf (start + i)))
                         (tolower (byte_at suffix i))) as [Heq|Hne];
      simpl negb; cbv iota.
    + rewrite IH. split.
      * intros H k Hk. destruct (Z.eq_dec k 0) as [->|Hk0].
        -- rewrite !Z.add_0_r. exact Heq.
        -- specialize (H (k - 1) ltac:(lia)).
           replace (i + 1 + (k - 1)) with (i + k) in H by lia. exact H.
      * intros H k Hk. specialize (H (k + 1) ltac:(lia)).
        replace (i + (k + 1)) with (i + 1 + k) in H by lia. exact H.
    + split; [discriminate|]. intros H. exfalso. apply Hne.
      specialize (H 0 ltac:(lia)). rewrite !Z.add_0_r in H. exact H.
Qed.

Lemma decodeName_not_upper (packet : list byte) (name_offset buf_size : Z) :
  0 <= buf_size ->
  Forall not_upper (snd (decodeName packet name_offset buf_size)).
Proof.
  intros Hsize. unfold decodeName.
  destruct (decodeName_loop (name_fuel packet) packet name_offset []
              buf_size 0 true) as [[err out]|] eqn:E; [|constructor].
  apply (decodeName_loop_writes _ _ _ _ _ _ _ _ _ E); [exact Hsize|].
  constructor.
Qed.

Lemma firstn_snoc (bs : list byte) (s : Z) :
  0 < s <= buf_len bs ->
  firstn (Z.to_nat s) bs
  = firstn (Z.to_nat (s - 1)) bs ++ [nth (Z.to_nat (s - 1)) bs x00].
Proof.
  unfold buf_len. intros Hs.
  replace (Z.to_nat s) with (S (Z.to_nat (s - 1))) by lia.
  assert (Hlt : (Z.to_nat (s - 1) < length bs)%nat) by lia.
  revert Hlt. generalize (Z.to_nat (s - 1)). clear Hs.
  induction bs as [|b bs IH]; intros n Hlt; [simpl in Hlt; lia|].
  destruct n as [|n]; [reflexivity|].
  simpl in Hlt. cbn [firstn nth app]. f_equal. apply IH. lia.
Qed.

(** X25. [domainEndsWith] returns false when [decodeName] fails on the
    name with its buffer of 256 bytes; otherwise it returns true exactly
    when the decoded name is some text followed by the suffix with its
    ASCII capitals lowered, where the text is empty or ends with a dot:
    the suffix starts at a label boundary. *)
Theorem domainEndsWith_decoded (packet : list byte) (q : DNSQuestion)
    (suffix name : list byte) (err : Error) :
  decodeName packet (name_offset q) 256 = (err, name) ->
  (err <> Success -> domainEndsWith packet q suffix = false) /\
  (err = Success ->
   (domainEndsWith packet q suffix = true <->
    exists pre : list byte,
      name = pre ++ lower_bytes suffix /\
      (pre = [] \/ exists pre', pre = pre' ++ [to_u8 46]))).
Proof.
  intros Hdec.
  pose proof (decodeName_not_upper packet (name_offset q) 256 ltac:(lia))
    as Hlow.
  unfold domainEndsWith. change (MAX_DOMAIN_LENGTH + 1) with 256.
  rewrite Hdec in *. simpl snd in Hlow. split.
  - intros Herr. rewrite (Error_eqb_Success _ Herr). reflexivity.
  - intros ->. change (negb (Error_eqb Success Success)) with false.
    cbv iota.
    pose proof (buf_len_nonneg suffix) as Hs.
    pose proof (buf_len_nonneg name) as Hn.
    set (start := buf_len name - buf_len suffix).
    case_ltb (buf_len name) (buf_len suffix).
    { split; [discriminate|]. intros (pre & -> & _). exfalso.
      rewrite buf_len_app, lower_bytes_length in Hcmp.
      pose proof (buf_len_nonneg pre). lia. }
    assert (Hspec :
      compare_suffix (Z.to_nat (buf_len suffix)) name start suffix 0 = true
      <-> forall k, 0 <= k < buf_len suffix ->
            tolower (byte_at name (start + k)) = tolower (byte_at suffix k)).
    { rewrite compare_suffix_spec, Z2Nat.id by lia.
      split; intros H k Hk; specialize (H k Hk);
        rewrite ?Z.add_0_l in *; exact H. }
    destruct (compare_suffix (Z.to_nat (buf_len suffix)) name start suffix 0)
      eqn:Ecmp; simpl negb; cbv iota.
    + assert (Hbytes : forall k, 0 <= k < buf_len suffix ->
                byte_at name (start + k) = tolower (byte_at suffix k)).
      { intros k Hk. rewrite <- (proj1 Hspec eq_refl k Hk).
        rewrite byte_at_not_upper by exact Hlow. reflexivity. }
      assert (Htail : skipn (Z.to_nat start) name = lower_bytes suffix).
      { apply bytes_ext.
        - rewrite skipn_length_Z, lower_bytes_length by (unfold start; lia).
          unfold start. lia.
        - intros i Hi.
          rewrite skipn_length_Z in Hi by (unfold start; lia).
          rewrite byte_at_skipn by (unfold start; lia).
          rewrite byte_at_lower_bytes by (unfold start in Hi; lia).
          apply Hbytes. unfold start in Hi. lia. }
      assert (Hname : name = firstn (Z.to_nat start) name
                             ++ lower_bytes suffix).
      { rewrite <- Htail. symmetry. apply firstn_skipn. }
      assert (Hunique : forall pre, name = pre ++ lower_bytes suffix ->
                pre = firstn (Z.to_nat start) name).
      { intros pre Hpre. rewrite Hname in Hpre at 1.
        apply app_inv_tail in Hpre. auto. }
      flip_cmp.
      case_ltb 0 start; simpl andb; cbv iota.
      * destruct (Z.eqb_spec (byte_at name (start - 1)) 46) as [H46|H46];
          simpl negb; cbv iota.
        -- split; [intros _|reflexivity].
           exists (firstn (Z.to_nat start) name). split; [exact Hname|].
           right. exists (firstn (Z.to_nat (start - 1)) name).
           rewrite firstn_snoc by (unfold start in *; lia).
           do 2 f_equal. apply u8_inj. rewrite u8_to_u8. exact H46.
        -- split; [discriminate|]. intros (pre & Hpre & Hdot). exfalso.
           apply Hunique in Hpre. subst pre.
           destruct Hdot as [Hnil|(pre' & Hdot)].
           ++ apply (f_equal buf_len) in Hnil.
              unfold buf_len in Hnil at 1.
              rewrite length_firstn in Hnil. change (buf_len []) with 0 in Hnil.
              unfold start, buf_len in *. lia.
           ++ rewrite firstn_snoc in Hdot by (unfold start in *; lia).
              apply app_inj_tail in Hdot. destruct Hdot as [_ Hdot].
              apply H46. unfold byte_at. rewrite Hdot. reflexivity.
      * split; [intros _|reflexivity].
        exists (firstn (Z.to_nat start) name). split; [exact Hname|].
        left. replace (Z.to_nat start) with 0%nat by lia. reflexivity.
    + split; [discriminate|]. intros (pre & Hpre & _). exfalso.
      assert (Hlen : buf_len pre = start).
      { apply (f_equal buf_len) in Hpre.
        rewrite buf_len_app, lower_bytes_length in Hpre.
        unfold start. lia. }
      assert (Hall : false = true).
      { apply Hspec. intros k Hk.
        rewrite byte_at_not_upper by exact Hlow.
        rewrite Hpre. unfold byte_at at 1.
        rewrite app_nth2 by (unfold buf_len in *; lia).
        replace (Z.to_nat (start + k) - length pre)%nat with (Z.to_nat k)
          by (unfold buf_len in *; lia).
        fold (byte_at (lower_bytes suffix) k).
        apply byte_at_lower_bytes. lia. }
      discriminate Hall.
Qed.

Lemma domainEndsWith_decoded_witness :
  domainEndsWith S1_packet
    (question (snd (parse_at true S1_packet blank_result)))
    (bytes_of [0x45; 0x78; 0x61; 0x6D; 0x70; 0x6C; 0x65; 0x2E; 0x43; 0x4F;
               0x4D]) = true.
Proof.
  pose proof (domainEndsWith_decoded S1_packet
                (question (snd (parse_at true S1_packet blank_result)))
                (bytes_of [0x45; 0x78; 0x61; 0x6D; 0x70; 0x6C; 0x65; 0x2E;
                           0x43; 0x4F; 0x4D])
                (snd (decodeName S1_packet 12 256)) Success eq_refl)
    as [_ H].
  apply (H eq_refl).
  exists (bytes_of [0x77; 0x77; 0x77; 0x2E]). split; [reflexivity|].
  right. exists (bytes_of [0x77; 0x77; 0x77]). reflexivity.
Defined.

(** ** The causes of the errors of the parser *)

(** The scan reports [InvalidLabel] only at a length byte over 63
    without the two pointer bits, and [PointerLoop] only after a byte
    with both pointer bits. *)
Lemma parseName_loop_causes (data : list byte) :
  forall (fuel : nat) (offset oo : Z) (jumped : bool) (jc tl : Z)
         (e : Error),
    parseName_loop fuel data offset oo jumped jc tl = Some (Err e) ->
    0 <= offset -> jc < MAX_LABELS ->
    (e = InvalidLabel ->
     exists o, 0 <= o < buf_len data /\ 63 < byte_at data o /\
               Z.land (byte_at data o) 192 <> 192) /\
    (e = PointerLoop ->
     exists o, 0 <= o < buf_len data /\
               Z.land (byte_at data o) 192 = 192).
Proof.
  induction fuel as [|fuel IH]; intros offset oo jumped jc tl e Hr Hoff Hjc;
    [discriminate|].
  rewrite parseName_loop_S in Hr. flip_cmp. revert Hr.
  pose proof (byte_at_range data offset) as Hb.
  case_ltb jc MAX_LABELS; [|lia]. simpl negb. cbv iota.
  case_leb (buf_len data) offset;
    [intros [= <-]; split; discriminate|].
  destruct (byte_at data offset =? 0); [discriminate|].
  destruct (Z.eqb_spec (Z.land (byte_at data offset) 192) 192)
    as [Hptr|Hptr].
  - case_leb (buf_len data) (offset + 1);
      [intros [= <-]; split; discriminate|].
    destruct (buf_len data <=? _).
    + intros [= <-]. split; [discriminate|]. intros _.
      exists offset. split; [lia|exact Hptr].
    + intros Hr.
      destruct (Z.eq_dec (jc + 1) MAX_LABELS) as [Hlast|Hmore].
      * destruct fuel as [|fuel']; [discriminate|].
        rewrite parseName_loop_S in Hr. rewrite Hlast in Hr.
        change (negb (MAX_LABELS <? MAX_LABELS)) with true in Hr.
        cbv iota in Hr. injection Hr as <-.
        split; [discriminate|]. intros _.
        exists offset. split; [lia|exact Hptr].
      * apply (IH _ _ _ _ _ _ Hr);
          [apply pointer_target_nonneg|lia].
  - unfold MAX_LABEL_LENGTH.
    case_ltb 63 (byte_at data offset).
    + intros [= <-]. split; [|discriminate]. intros _.
      exists offset. split; [lia|]. split; [lia|exact Hptr].
    + destruct (buf_len data <? _);
        [intros [= <-]; split; discriminate|].
      intros Hr. apply (IH _ _ _ _ _ _ Hr); lia.
Qed.

(** X26. The causes of the errors of [parse] on non-null arguments:
    [PacketTooShort] exactly for a packet under 17 bytes;
    [InvalidHeader] exactly for a longer packet whose [qd_count] is 0;
    [InvalidLabel] only when the packet holds a byte over 63 without
    both pointer bits, and [PointerLoop] only when it holds a byte with
    both pointer bits; never [BufferTooSmall] or [NotQuery]. *)
Theorem parse_error_causes (host_le : bool) (data : list byte)
    (result : DNSParseResult) :
  let err := fst (parse host_le (Some data) (Some result)) in
  (err = PacketTooShort <-> buf_len data < 17) /\
  (err = InvalidHeader <-> 17 <= buf_len data /\ be16 data 4 = 0) /\
  (err = InvalidLabel ->
   exists o, 0 <= o < buf_len data /\ 63 < byte_at data o /\
             Z.land (byte_at data o) 192 <> 192) /\
  (err = PointerLoop ->
   exists o, 0 <= o < buf_len data /\ Z.land (byte_at data o) 192 = 192) /\
  err <> BufferTooSmall /\ err <> NotQuery.
Proof.
  intros err. subst err. unfold parse.
  destruct (parse_at host_le data result) as [err r'] eqn:E.
  simpl fst. revert E. unfold parse_at.
  rewrite getQDCount_be.
  unfold MIN_DNS_QUERY_SIZE, DNS_HEADER_SIZE. change (12 + 5) with 17.
  case_ltb (buf_len data) 17.
  { intros [= <- _].
    repeat split; try discriminate; try lia; try tauto. }
  case_eqb (be16 data 4) 0.
  { intros [= <- _].
    repeat split; try discriminate; try lia; try tauto. }
  destruct (parseName data 12) as [[name_end wire_len]|e] eqn:Escan.
  - destruct (name_end + 4 >? buf_len data); intros [= <- _];
      repeat split; try discriminate; try lia; try tauto.
  - intros [= <- _].
    pose proof (parseName_errors _ _ _ Escan) as Hscan.
    unfold parseName in Escan.
    destruct (parseName_loop (name_fuel data) data 12 12 false 0 0)
      as [r|] eqn:Eloop.
    + subst r.
      destruct (parseName_loop_causes _ _ _ _ _ _ _ _ Eloop
                  ltac:(lia) ltac:(reflexivity)) as (Hlabel & Hloop).
      unfold scan_error in Hscan.
      assert (Hne : forall x,
                x = PacketTooShort \/ x = InvalidHeader
                \/ x = BufferTooSmall \/ x = NotQuery -> e <> x).
      { intros x Hx ->.
        destruct Hscan as [Hs|[Hs|Hs]];
          destruct Hx as [Hx|[Hx|[Hx|Hx]]]; congruence. }
      split.
      { split; [|lia].
        intros He. exfalso. apply (Hne PacketTooShort); tauto. }
      split.
      { split; [|intros [_ H0]; contradiction].
        intros He. exfalso. apply (Hne InvalidHeader); tauto. }
      split; [exact Hlabel|]. split; [exact Hloop|].
      split; apply Hne; tauto.
    + exfalso. revert Eloop. apply parseName_loop_total.
      * unfold MAX_LABELS. lia.
      * apply name_fuel_enough. lia.
Qed.

(** ** The counters of the facade *)

Lemma fetch_add1_small (c : Z) :
  0 <= c -> c + 1 < 2 ^ 64 -> fetch_add1 c = c + 1.
Proof.
  unfold fetch_add1. change (2 ^ 64) with 18446744073709551616.
  intros H0 H1. apply Z.mod_small. lia.
Qed.

(** The counters at the return of [xdp_dns_parse]. *)
Lemma xdp_dns_parse_counters (host_le : bool) (parsed0 : DNSParseResult)
    (packet_data : option (list byte)) (result : option XDPDNSParseResult)
    (g : Counters) :
  let g' := snd (xdp_dns_parse host_le parsed0 packet_data result g) in
  g' = g \/ g' = count_received g
  \/ g' = count_parse_error (count_received g)
  \/ g' = count_parsed (count_received g).
Proof.
  unfold xdp_dns_parse.
  destruct packet_data as [packet|], result as [res|]; simpl; auto.
  destruct (buf_len packet <? 12); simpl; auto.
  destruct (parse_at host_le packet parsed0) as [err parsed].
  destruct (negb (Error_eqb err Success)); simpl; auto.
  destruct (negb (is_query parsed)); simpl; auto.
  destruct (decodeName _ _ _) as [err' out].
  destruct (negb (Error_eqb err' Success)); simpl; auto.
Qed.

Lemma build_return_counters (built : option (Z * list byte))
    (response_len : Z) (g : Counters) :
  let g' := counters_of (build_return built response_len g) g in
  g' = g \/ g' = count_built g.
Proof.
  unfold build_return. destruct built as [[n out]|]; simpl; auto.
  destruct (n =? 0); simpl; auto.
Qed.

Lemma facade_call_fit (host_le : bool) (parsed0 : DNSParseResult)
    (g : Counters) (c : FacadeCall) (k : Z) :
  counters_fit k g -> 0 <= k -> k + 1 < 2 ^ 64 ->
  counters_fit (k + 1) (facade_call host_le parsed0 g c).
Proof.
  intros (Hp & He & Hb & Hsum & Hk & Hlat) H0 H1.
  assert (Hstep : forall g',
    g' = g \/ g' = count_received g
    \/ g' = count_parse_error (count_received g)
    \/ g' = count_parsed (count_received g) \/ g' = count_built g ->
    counters_fit (k + 1) g').
  { intros g' Hg'. unfold counters_fit.
    destruct Hg' as [->|[->|[->|[->| ->]]]]; simpl;
      rewrite ?fetch_add1_small by lia; repeat split; lia. }
  destruct c as [pd res|packet buf len|packet ip ttl buf len
                 |packet ipv6 ttl buf len|]; simpl.
  - apply Hstep.
    pose proof (xdp_dns_parse_counters host_le parsed0 pd res g) as H.
    simpl in H. tauto.
  - apply Hstep. unfold xdp_dns_build_nxdomain.
    destruct (parse_at host_le packet parsed0) as [err parsed].
    destruct (negb (Error_eqb err Success)); [simpl; auto|].
    pose proof (build_return_counters
                  (buildNXDomain host_le packet parsed buf) len g) as H.
    simpl in H. tauto.
  - apply Hstep. unfold xdp_dns_build_a_response.
    destruct (parse_at host_le packet parsed0) as [err parsed].
    destruct (negb (Error_eqb err Success)); [simpl; auto|].
    pose proof (build_return_counters
                  (buildAResponse host_le packet parsed ip ttl buf) len g)
      as H.
    simpl in H. tauto.
  - apply Hstep. unfold xdp_dns_build_aaaa_response.
    destruct (parse_at host_le packet parsed0) as [err parsed].
    destruct (negb (Error_eqb err Success)); [simpl; auto|].
    pose proof (build_return_counters
                  (buildAAAAResponse host_le packet parsed ipv6 ttl buf)
                  len g) as H.
    simpl in H. tauto.
  - unfold counters_fit. simpl. repeat split; lia.
Qed.

(** X27. After [xdp_dns_reset_stats] and any sequence of fewer than
    2^64 calls of the entry points, the counters fit the calls: the
    packets parsed and the parse errors together are at most the
    packets received, the packets received and the responses built
    together are at most the number of calls, and [total_latency_ns] is
    0, since no entry point adds to it; [xdp_dns_get_stats] reports
    these counters and 0 for the allowed, blocked and redirected
    packets. *)
Theorem facade_counters_fit (host_le : bool) (parsed0 : DNSParseResult)
    (g0 : Counters) (stats0 : XDPDNSStats) (cs : list FacadeCall) :
  Z.of_nat (length cs) < 2 ^ 64 ->
  let g := facade_calls host_le parsed0 (xdp_dns_reset_stats g0) cs in
  counters_fit (Z.of_nat (length cs)) g /\
  xdp_dns_get_stats (Some stats0) g
  = Some (mkXDPDNSStats (g_packets_received g) (g_packets_parsed g) 0 0 0
            (g_parse_errors g) (g_response_built g) 0).
Proof.
  intros Hlen g.
  assert (Hfit : counters_fit (Z.of_nat (length cs)) g).
  { subst g. unfold facade_calls.
    assert (Hgen : forall (l : list FacadeCall) (k : Z) (g : Counters),
              counters_fit k g -> 0 <= k ->
              k + Z.of_nat (length l) < 2 ^ 64 ->
              counters_fit (k + Z.of_nat (length l))
                (fold_left (facade_call host_le parsed0) l g)).
    { induction l as [|c l IH]; intros k g Hg H0 Hk.
      - simpl. rewrite Z.add_0_r. exact Hg.
      - cbn [fold_left]. cbn [length] in Hk |- *.
        replace (k + Z.of_nat (S (length l)))
          with (k + 1 + Z.of_nat (length l)) by lia.
        apply IH; [|lia|lia].
        apply facade_call_fit; [exact Hg|lia|lia]. }
    apply (Hgen cs 0); [|lia|lia].
    unfold counters_fit. simpl. repeat split; lia. }
  split; [exact Hfit|].
  destruct Hfit as (_ & _ & _ & _ & _ & Hlat).
  unfold xdp_dns_get_stats. rewrite Hlat. reflexivity.
Qed.

Lemma facade_counters_fit_witness :
  counters_fit 2
    (facade_calls true blank_result (xdp_dns_reset_stats zero_counters)
       [ApiParse (Some S1_packet) (Some blank_xresult);
        ApiBuildNXDomain S1_packet (repeat x00 64) 0]).
Proof.
  apply (facade_counters_fit true blank_result zero_counters
           (mkXDPDNSStats 0 0 0 0 0 0 0 0)
           [ApiParse (Some S1_packet) (Some blank_xresult);
            ApiBuildNXDomain S1_packet (repeat x00 64) 0]).
  simpl. lia.
Defined.
